(** * endpoint: a shallow embedding of the transport endpoints

    The Go package [endpoint] gives one interface over TCP, UDP,
    Unix-domain sockets and serial lines.  Its code is almost entirely
    a sequence of system calls whose results decide the control flow, so
    the embedding is a state monad over a [world]: the world holds the
    answers the environment (kernel, clock, resolver) will give, in the
    order they are asked for, and the chronological trace of the calls
    the program has made.  Go panics are an outcome of their own. *)

From stdpp Require Import base numbers list strings gmap.

Local Open Scope Z_scope.

(** ** Go values *)

(** [error] values.  [Errno] is [syscall.Errno]; [SyscallError] is what
    [os.NewSyscallError] builds; [ErrorString] is [errors.New]; [Errorf]
    keeps the format string and the arguments of [fmt.Errorf]. *)
Inductive error : Type :=
| Errno (e : Z)
| SyscallError (name : string) (e : error)
| ErrorString (msg : string)
| Errorf (format : string) (args : list fmtarg)
with fmtarg : Type :=
| AStr (s : string)
| AInt (n : Z)
| AErr (e : error).

(** The errno values of linux, as in package [syscall]. *)
Definition EINTR : Z := 4.
Definition EBADF : Z := 9.
Definition EINVAL : Z := 22.
Definition ENFILE : Z := 23.
Definition EMFILE : Z := 24.
Definition EPROTONOSUPPORT : Z := 93.
Definition ECONNREFUSED : Z := 111.

(** [err == syscall.E...]: comparison of an [error] interface value with
    an errno constant. *)
Definition is_errno (err : option error) (e : Z) : bool :=
  match err with
  | Some (Errno e') => e' =? e
  | _ => false
  end.

Definition is_nil (err : option error) : bool :=
  match err with None => true | Some _ => false end.

(** [os.NewSyscallError]: nil stays nil. *)
Definition NewSyscallError (name : string) (err : option error) : option error :=
  match err with
  | None => None
  | Some e => Some (SyscallError name e)
  end.

(** [time.Duration] is a count of nanoseconds. *)
Definition Duration : Type := Z.
Definition Millisecond : Duration := 1000000.
Definition Second : Duration := 1000000000.

(** [syscall.Termios] (linux). *)
Record Termios : Type := mkTermios {
  Iflag : Z;
  Oflag : Z;
  Cflag : Z;
  Lflag : Z;
  Line : Z;
  Cc : list Z;
  Ispeed : Z;
  Ospeed : Z
}.

(** The zero value [syscall.Termios{}]. *)
Definition Termios_zero : Termios :=
  mkTermios 0 0 0 0 0 (replicate 32 0) 0 0.

(** [syscall.Timeval], as [syscall.NsecToTimeval] computes it (rounding
    up to the microsecond). *)
Record Timeval : Type := mkTimeval { Sec : Z; Usec : Z }.

Definition NsecToTimeval (nsec : Z) : Timeval :=
  let nsec := nsec + 999 in
  let usec := Z.quot (Z.rem nsec 1000000000) 1000 in
  let sec := Z.quot nsec 1000000000 in
  if usec <? 0 then mkTimeval (sec - 1) (usec + 1000000) else mkTimeval sec usec.

(** Low-level socket addresses ([syscall.Sockaddr]); [None] is the nil
    interface. *)
Inductive Sockaddr : Type :=
| SockaddrInet4 (port : Z) (addr : list Z)
| SockaddrInet6 (port : Z) (zoneId : Z) (addr : list Z)
| SockaddrUnix (name : string).

(** [net.TCPAddr] and [net.UDPAddr] have the same fields; [IP = None] is
    the nil slice. *)
Record IPAddr : Type := mkIPAddr {
  IP : option (list Z);
  Port : Z;
  Zone : string
}.

(** [net.UnixAddr]. *)
Record UnixAddr : Type := mkUnixAddr { Name : string; Net : string }.

(** ** The environment *)

(** The calls the package makes on its environment. *)
Inductive call : Type :=
| SysOpen (path : string) (mode perm : Z)
| SysClose (fd : Z)
| SysRead (fd : Z) (len : Z)
| SysWrite (fd : Z) (data : list Z)
| SysSelect (nfd : Z) (rd wr : option (list Z)) (timeout : Timeval)
| SysSocket (family sotype proto : Z)
| SysConnect (fd : Z) (sa : option Sockaddr)
| SysSetsockoptInt (fd level opt value : Z)
| SysSetNonblock (fd : Z) (nonblocking : bool)
| SysCloseOnExec (fd : Z)
| SysSendto (fd : Z) (data : list Z) (flags : Z) (sa : option Sockaddr)
| SysRecvfrom (fd : Z) (len : Z) (flags : Z)
| SysIoctl (fd req : Z) (arg : list Z)
| SysTcgetattr (fd : Z)
| SysTcsetattr (fd : Z) (t : Termios)
| TimeNow
| NetResolveTCPAddr (network address : string)
| NetResolveUDPAddr (network address : string)
| NetResolveUnixAddr (network address : string)
| NetInterfaceByName (name : string)
| LogPrintf (format : string).

(** The answers of the environment. *)
Inductive resp : Type :=
| RVal (v : Z)                        (* success, with an integer result *)
| RErr (e : Z)                        (* failure with errno [e] *)
| RSel (n : Z) (ready : list Z)       (* select: count, and the set as rewritten *)
| RNow (t : Z)                        (* the clock, in nanoseconds *)
| RTermios (t : Termios)              (* tcgetattr: the attributes read *)
| RIPAddr (a : IPAddr)                (* a resolved TCP or UDP address *)
| RUnixAddr (a : UnixAddr)            (* a resolved Unix address *)
| RFail (msg : string).               (* a library error that is not an errno *)

Record world : Type := World {
  script : list resp;   (* answers still to come *)
  trace : list call     (* calls made so far, oldest first *)
}.

(** How a run ends: it returns, it panics, or the script does not
    describe it (it is exhausted, or an answer has the wrong shape). *)
Inductive outcome (A : Type) : Type :=
| Returns (a : A) (w : world)
| Panics (w : world)
| Stuck.
Arguments Returns {A} a w.
Arguments Panics {A} w.
Arguments Stuck {A}.

Definition M (A : Type) : Type := world → outcome A.

#[export] Instance M_ret : MRet M := λ A a w, Returns a w.
#[export] Instance M_bind : MBind M := λ A B f m w,
  match m w with
  | Returns a w' => f a w'
  | Panics w' => Panics w'
  | Stuck => Stuck
  end.

#[local] Arguments mbind {_ _ _ _} _ _ / : assert.
#[local] Arguments mret {_ _ _} _ / : assert.

Definition stuck {A : Type} : M A := λ _, Stuck.
Definition panic {A : Type} : M A := λ w, Panics w.

(** One call: it is appended to the trace and answered by the head of
    the script. *)
Definition sys (c : call) : M resp := λ w,
  match script w with
  | [] => Stuck
  | r :: rs => Returns r (World rs (trace w ++ [c]))
  end.

(** A call that asks nothing of the environment (logging). *)
Definition emit (c : call) : M unit := λ w,
  Returns tt (World (script w) (trace w ++ [c])).

(** System calls that return an integer and an error.  On failure the
    integer is -1, as package [syscall] returns it. *)
Definition int_call (c : call) : M (Z * option error) :=
  r ← sys c;
  match r with
  | RVal v => mret (v, None)
  | RErr e => mret (-1, Some (Errno e))
  | _ => stuck
  end.

(** System calls that return only an error. *)
Definition err_call (c : call) : M (option error) :=
  r ← sys c;
  match r with
  | RVal _ => mret None
  | RErr e => mret (Some (Errno e))
  | _ => stuck
  end.

Definition syscall_Open (path : string) (mode perm : Z) := int_call (SysOpen path mode perm).
Definition syscall_Close (fd : Z) := err_call (SysClose fd).
Definition syscall_Read (fd : Z) (p : list Z) := int_call (SysRead fd (Z.of_nat (length p))).
Definition syscall_Write (fd : Z) (p : list Z) := int_call (SysWrite fd p).
Definition syscall_Socket (family sotype proto : Z) := int_call (SysSocket family sotype proto).
Definition syscall_Connect (fd : Z) (sa : option Sockaddr) := err_call (SysConnect fd sa).
Definition syscall_SetsockoptInt (fd level opt value : Z) := err_call (SysSetsockoptInt fd level opt value).
Definition syscall_SetNonblock (fd : Z) (b : bool) := err_call (SysSetNonblock fd b).
Definition syscall_Sendto (fd : Z) (p : list Z) (flags : Z) (sa : option Sockaddr) :=
  err_call (SysSendto fd p flags sa).

(** [syscall.CloseOnExec] returns nothing. *)
Definition syscall_CloseOnExec (fd : Z) : M unit :=
  _ ← sys (SysCloseOnExec fd); mret tt.

(** [syscall.Recvfrom]: the count and the error (the sender is dropped by
    every caller in the package). *)
Definition syscall_Recvfrom (fd : Z) (p : list Z) (flags : Z) :=
  int_call (SysRecvfrom fd (Z.of_nat (length p)) flags).

(** The one set that the package hands to [syscall.Select]. *)
Definition passed_set (rd wr : option (list Z)) : list Z :=
  match rd, wr with
  | Some s, _ => s
  | None, Some s => s
  | None, None => []
  end.

(** [syscall.Select] on one set: the count, the set as the kernel left
    it (as it was passed, when the call fails), and the error. *)
Definition syscall_Select (nfd : Z) (rd wr : option (list Z)) (timeout : Timeval)
  : M (Z * list Z * option error) :=
  r ← sys (SysSelect nfd rd wr timeout);
  match r with
  | RSel n ready => mret (n, ready, None)
  | RErr e => mret (-1, passed_set rd wr, Some (Errno e))
  | _ => stuck
  end.

(** [time.Now()], in nanoseconds. *)
Definition time_Now : M Z :=
  r ← sys TimeNow;
  match r with
  | RNow t => mret t
  | _ => stuck
  end.

(** [Syscall(SYS_IOCTL, fd, req, arg)]: the result and the errno (0 when
    the call succeeds). *)
Definition syscall_Ioctl (fd req : Z) (arg : list Z) : M (Z * Z) :=
  r ← sys (SysIoctl fd req arg);
  match r with
  | RVal v => mret (v, 0)
  | RErr e => mret (-1, e)
  | _ => stuck
  end.

(** [b[k:]]: a panic ([None]) when [k] is out of range. *)
Definition slice_from (b : list Z) (k : Z) : option (list Z) :=
  if (0 <=? k) && (k <=? Z.of_nat (length b))
  then Some (drop (Z.to_nat k) b)
  else None.

Definition len (b : list Z) : Z := Z.of_nat (length b).

(** ** Configurations (the version with read and write timeouts) *)

Inductive EndPointType : Type :=
| EndPointTCP
| EndPointUnix
| EndPointUDP
| EndPointSerial.

#[export] Instance EndPointType_eq_dec : EqDecision EndPointType.
Proof. solve_decision. Defined.

Definition PARITY_NONE : Z := 0.
Definition PARITY_ODD : Z := 1.
Definition PARITY_EVEN : Z := 2.
Definition PARITY_MARK : Z := 3.
Definition PARITY_SPACE : Z := 4.

Definition TCPDelay : Z := 0.
Definition TCPNoDelay : Z := 1.

Module RS485Config.
Record t : Type := mk {
  Enabled : bool;
  DelayRtsBeforeSend : Z;
  DelayRtsAfterSend : Z;
  RtsHighDuringSend : bool;
  RtsHighAfterSend : bool;
  RxDuringTx : bool
}.
End RS485Config.

Module SerialConfig.
Record t : Type := mk {
  Address : string;
  BaudRate : Z;
  DataBits : Z;
  StopBits : Z;
  Parity : Z;
  ReadTimeout : Duration;
  WriteTimeout : Duration;
  RS485 : RS485Config.t
}.
End SerialConfig.

Module TCPConfig.
Record t : Type := mk {
  Network : string;
  Address : string;
  KeepAlive : Duration;
  NoDelay : Z;
  ReadTimeout : Duration;
  WriteTimeout : Duration
}.
End TCPConfig.

Module UDPConfig.
Record t : Type := mk {
  Network : string;
  Address : string;
  ReadTimeout : Duration;
  WriteTimeout : Duration
}.
End UDPConfig.

Module UnixSocketConfig.
Record t : Type := mk {
  Network : string;
  Address : string;
  ReadTimeout : Duration;
  WriteTimeout : Duration
}.
End UnixSocketConfig.

(** [EndPointConfig]: the four types that implement the interface. *)
Inductive EndPointConfig : Type :=
| CfgSerial (c : SerialConfig.t)
| CfgTCP (c : TCPConfig.t)
| CfgUDP (c : UDPConfig.t)
| CfgUnix (c : UnixSocketConfig.t).

Definition Type_ (c : EndPointConfig) : EndPointType :=
  match c with
  | CfgSerial _ => EndPointSerial
  | CfgTCP _ => EndPointTCP
  | CfgUDP _ => EndPointUDP
  | CfgUnix _ => EndPointUnix
  end.

Definition AddressName (c : EndPointConfig) : string :=
  match c with
  | CfgSerial c => SerialConfig.Address c
  | CfgTCP c => TCPConfig.Address c
  | CfgUDP c => UDPConfig.Address c
  | CfgUnix c => UnixSocketConfig.Address c
  end.

(** ** Constants of package [syscall] (linux) *)

Definition O_RDWR : Z := 0x2.
Definition O_NOCTTY : Z := 0x100.
Definition O_NONBLOCK : Z := 0x800.
Definition O_CLOEXEC : Z := 0x80000.

Definition CS5 : Z := 0x0.
Definition CS6 : Z := 0x10.
Definition CS7 : Z := 0x20.
Definition CS8 : Z := 0x30.
Definition CSIZE : Z := 0x30.
Definition CSTOPB : Z := 0x40.
Definition CREAD : Z := 0x80.
Definition PARENB : Z := 0x100.
Definition PARODD : Z := 0x200.
Definition CLOCAL : Z := 0x800.
Definition CMSPAR : Z := 0x40000000.
Definition INPCK : Z := 0x10.
Definition TCIOFLUSH : Z := 0x2.

Definition AF_UNIX : Z := 1.
Definition AF_INET : Z := 2.
Definition AF_INET6 : Z := 10.
Definition SOCK_STREAM : Z := 1.
Definition SOCK_DGRAM : Z := 2.
Definition SOCK_NONBLOCK : Z := 0x800.
Definition SOCK_CLOEXEC : Z := 0x80000.
Definition IPPROTO_TCP : Z := 6.
Definition IPPROTO_UDP : Z := 17.
Definition SOL_SOCKET : Z := 1.
Definition SO_KEEPALIVE : Z := 9.
Definition TCP_NODELAY : Z := 1.
Definition TCP_KEEPIDLE : Z := 4.
Definition TCP_KEEPINTVL : Z := 5.

(** ** Terminal attributes *)

Definition with_Cflag (f : Z → Z) (t : Termios) : Termios :=
  mkTermios (Iflag t) (Oflag t) (f (Cflag t)) (Lflag t) (Line t) (Cc t) (Ispeed t) (Ospeed t).

Definition with_Iflag (f : Z → Z) (t : Termios) : Termios :=
  mkTermios (f (Iflag t)) (Oflag t) (Cflag t) (Lflag t) (Line t) (Cc t) (Ispeed t) (Ospeed t).

(** [x |= m] and [x &^= m] on flag words. *)
Definition bis (m x : Z) : Z := Z.lor x m.
Definition bic (m x : Z) : Z := Z.ldiff x m.

(** Modelled from the spec: [cfSetIspeed] and [cfSetOspeed] are not in
    src/; the spec has them "set both input and output speed to the
    looked-up flag". *)
Definition cfSetIspeed (t : Termios) (speed : Z) : Termios :=
  mkTermios (Iflag t) (Oflag t) (Cflag t) (Lflag t) (Line t) (Cc t) speed (Ospeed t).

Definition cfSetOspeed (t : Termios) (speed : Z) : Termios :=
  mkTermios (Iflag t) (Oflag t) (Cflag t) (Lflag t) (Line t) (Cc t) (Ispeed t) speed.

(** Modelled from the spec: the table [charSizes] is not in src/; the
    spec has it "map data bits 5-8 to the character-size field". *)
Definition charSizes (bits : Z) : option Z :=
  if bits =? 5 then Some CS5
  else if bits =? 6 then Some CS6
  else if bits =? 7 then Some CS7
  else if bits =? 8 then Some CS8
  else None.

(** Modelled from the spec: [fdzero], [fdset] and [fdisset] are not in
    src/; an [FdSet] is the set of the descriptors marked in it. *)
Definition fdzero : list Z := [].
Definition fdset (fd : Z) (s : list Z) : list Z := fd :: s.
Definition fdisset (fd : Z) (s : list Z) : bool := bool_decide (fd ∈ s).

(** Modelled from the spec: [tcgetattr] and [tcsetattr] are not in src/;
    they read and apply the terminal attributes of a descriptor. *)
Definition tcgetattr (fd : Z) : M (Termios * option error) :=
  r ← sys (SysTcgetattr fd);
  match r with
  | RTermios t => mret (t, None)
  | RErr e => mret (Termios_zero, Some (Errno e))
  | _ => stuck
  end.

Definition tcsetattr (fd : Z) (t : Termios) : M (option error) :=
  err_call (SysTcsetattr fd t).

(** [newTermios]: the terminal attributes of a serial configuration.  The
    table [baudRates] is not in src/ and is a parameter; a lookup
    [flag, ok = baudRates[k]] is [Some flag] when [ok].  The attributes
    built so far are returned next to the error, as the Go function
    returns its named results. *)
Section newTermios.
Variable baudRates : Z → option Z.

Definition stopBits (c : SerialConfig.t) (termios : Termios) : Termios * option error :=
  let s := SerialConfig.StopBits c in
  if (s =? 0) || (s =? 1) then (with_Cflag (bic CSTOPB) termios, None)
  else if s =? 2 then (with_Cflag (bis CSTOPB) termios, None)
  else (termios, Some (Errorf "serial: unsupported stop bits %v" [AInt s])).

Definition parity (c : SerialConfig.t) (termios : Termios) : Termios * option error :=
  let m := SerialConfig.Parity c in
  if m =? PARITY_NONE then
    (with_Iflag (bic INPCK) (with_Cflag (bic PARENB) termios), None)
  else if m =? PARITY_ODD then
    (with_Iflag (bis INPCK)
       (with_Cflag (bic CMSPAR) (with_Cflag (bis PARODD) (with_Cflag (bis PARENB) termios))), None)
  else if m =? PARITY_EVEN then
    (with_Iflag (bis INPCK)
       (with_Cflag (bic CMSPAR) (with_Cflag (bic PARODD) (with_Cflag (bis PARENB) termios))), None)
  else if m =? PARITY_MARK then
    (with_Iflag (bis INPCK)
       (with_Cflag (bis CMSPAR) (with_Cflag (bis PARODD) (with_Cflag (bis PARENB) termios))), None)
  else if m =? PARITY_SPACE then
    (with_Iflag (bis INPCK)
       (with_Cflag (bis CMSPAR) (with_Cflag (bic PARODD) (with_Cflag (bis PARENB) termios))), None)
  else (termios, Some (Errorf "serial: unsupported parity %v" [AInt m])).

Definition newTermios (c : SerialConfig.t) : Termios * option error :=
  let termios := Termios_zero in
  match baudRates (SerialConfig.BaudRate c) with
  | None =>
      (termios, Some (Errorf "serial: unsupported baud rate %v" [AInt (SerialConfig.BaudRate c)]))
  | Some flag =>
      let termios := with_Cflag (bis flag) termios in
      let termios := cfSetIspeed termios flag in
      let termios := cfSetOspeed termios flag in
      match charSizes (SerialConfig.DataBits c) with
      | None =>
          (termios,
           Some (Errorf "serial: unsupported character size %v" [AInt (SerialConfig.DataBits c)]))
      | Some flag =>
          let termios := with_Cflag (bic CSIZE) termios in
          let termios := with_Cflag (bis flag) termios in
          match stopBits c termios with
          | (termios, Some e) => (termios, Some e)
          | (termios, None) =>
              match parity c termios with
              | (termios, Some e) => (termios, Some e)
              | (termios, None) => (with_Cflag (bis (Z.lor CREAD CLOCAL)) termios, None)
              end
          end
      end
  end.
End newTermios.

(** ** The serial transport *)

Definition rs485Enabled : Z := Z.shiftl 1 0.
Definition rs485RTSOnSend : Z := Z.shiftl 1 1.
Definition rs485RTSAfterSend : Z := Z.shiftl 1 2.
Definition rs485RXDuringTX : Z := Z.shiftl 1 4.
Definition rs485Tiocs : Z := 0x542f.

(** [enableRS485]; the [rs485_ioctl_opts] handed to the ioctl is the list
    of its eight words. *)
Definition enableRS485 (fd : Z) (config : RS485Config.t) : M (option error) :=
  if negb (RS485Config.Enabled config) then mret None
  else
    let flags := rs485Enabled in
    let flags := if RS485Config.RtsHighDuringSend config then Z.lor flags rs485RTSOnSend else flags in
    let flags := if RS485Config.RtsHighAfterSend config then Z.lor flags rs485RTSAfterSend else flags in
    let flags := if RS485Config.RxDuringTx config then Z.lor flags rs485RXDuringTX else flags in
    let rs485 :=
      [flags; RS485Config.DelayRtsBeforeSend config; RS485Config.DelayRtsAfterSend config;
       0; 0; 0; 0; 0] in
    '(r, errno) ← syscall_Ioctl fd rs485Tiocs rs485;
    if negb (errno =? 0) then mret (NewSyscallError "SYS_IOCTL (RS485)" (Some (Errno errno)))
    else if negb (r =? 0) then mret (Some (ErrorString "serial: unknown error from SYS_IOCTL (RS485)"))
    else mret None.

Module serial.
Record t : Type := mk {
  fd : Z;
  address : string;
  oldTermios : option Termios;
  readTimeout : Duration;
  writeTimeout : Duration
}.

Definition with_fd (v : Z) (p : t) : t :=
  mk v (address p) (oldTermios p) (readTimeout p) (writeTimeout p).
Definition with_address (v : string) (p : t) : t :=
  mk (fd p) v (oldTermios p) (readTimeout p) (writeTimeout p).
Definition with_oldTermios (v : option Termios) (p : t) : t :=
  mk (fd p) (address p) v (readTimeout p) (writeTimeout p).
Definition with_readTimeout (v : Duration) (p : t) : t :=
  mk (fd p) (address p) (oldTermios p) v (writeTimeout p).
Definition with_writeTimeout (v : Duration) (p : t) : t :=
  mk (fd p) (address p) (oldTermios p) (readTimeout p) v.

(** [newSerial]: [&serial{fd: -1}]. *)
Definition newSerial : t := mk (-1) EmptyString None 0 0.

(** Methods have a pointer receiver: they take the struct and return
    it as they leave it. *)

Definition setTermios (p : t) (termios : Termios) : M (option error) :=
  err ← tcsetattr (fd p) termios;
  match err with
  | Some e => mret (Some (Errorf "serial: could not set setting: %v" [AErr e]))
  | None => mret None
  end.

Definition backupTermios (p : t) : M t :=
  '(oldT, err) ← tcgetattr (fd p);
  match err with
  | Some e => _ ← emit (LogPrintf "serial: could not get setting: %v\n"); mret p
  | None => mret (with_oldTermios (Some oldT) p)
  end.

Definition restoreTermios (p : t) : M t :=
  match oldTermios p with
  | None => mret p
  | Some old =>
      err ← tcsetattr (fd p) old;
      match err with
      | Some e => _ ← emit (LogPrintf "serial: could not restore setting: %v\n"); mret p
      | None => mret (with_oldTermios None p)
      end
  end.

Definition Close (p : t) : M (t * option error) :=
  if fd p =? -1 then mret (p, None)
  else
    p ← restoreTermios p;
    err ← syscall_Close (fd p);
    let p := with_fd (-1) p in
    let p := with_oldTermios None p in
    mret (p, err).

Section Open.
Variable baudRates : Z → option Z.

(** [Open] calls itself when the device open is interrupted; [fuel]
    bounds the depth of that recursion. *)
Fixpoint Open_fuel (fuel : nat) (c : SerialConfig.t) (p : t) : M (t * option error) :=
  match fuel with
  | O => stuck
  | S fuel =>
      let p := with_address (SerialConfig.Address c) p in
      '(fd', err) ← syscall_Open (SerialConfig.Address c)
                      (Z.lor (Z.lor (Z.lor O_RDWR O_NOCTTY) O_NONBLOCK) O_CLOEXEC) 0x1b6 (* 0666 *);
      let p := with_fd fd' p in
      match err with
      | None =>
        let '(termios, err) := newTermios baudRates c in
        if negb (is_nil err) then mret (p, err)
        else
          p ← backupTermios p;
          err ← setTermios p termios;
          if negb (is_nil err) then
            _ ← syscall_Close (fd p);
            let p := with_fd (-1) p in
            let p := with_oldTermios None p in
            mret (p, err)
          else
            err ← enableRS485 (fd p) (SerialConfig.RS485 c);
            if negb (is_nil err) then
              '(p, _) ← Close p;
              mret (p, err)
            else
              let p :=
                if 0 <? SerialConfig.ReadTimeout c
                then with_readTimeout (SerialConfig.ReadTimeout c) p
                else with_readTimeout (5000 * Millisecond) p in
              let p :=
                if 0 <? SerialConfig.WriteTimeout c
                then with_writeTimeout (SerialConfig.WriteTimeout c) p
                else with_writeTimeout (1000 * Millisecond) p in
              mret (p, err)
      | Some e =>
        if is_errno err EINTR then
          '(p, _) ← Open_fuel fuel c p;
          mret (p, err)
        else if is_errno err ENFILE || is_errno err EMFILE then
          mret (p, Some (Errorf "serial: open serial %v: %v (too many file opened)"
                           [AStr (SerialConfig.Address c); AErr e]))
        else
          mret (p, Some (Errorf "serial: open serial %v: %v"
                           [AStr (SerialConfig.Address c); AErr e]))
      end
  end.

(** Each call of [Open] takes one answer from the script, so the
    recursion is never deeper than the script is long. *)
Definition Open (c : SerialConfig.t) (p : t) : M (t * option error) := λ w,
  Open_fuel (S (length (script w))) c p w.
End Open.

Definition timeout_error (d : Duration) : error :=
  Errorf "serial: select timeout: %v" [AInt d].

(** The loop of [Read].  Its state is the named result [n], [readLen]
    and [hasData]; the second component of the result is the named
    result [err].  One turn asks the clock once, so [fuel] beyond the
    length of the script is never used up.  [int] is modelled by [Z]:
    the counts the kernel hands back are far below 2^63, where the sums
    are exact. *)
Fixpoint Read_loop (fuel : nat) (p : t) (b : list Z) (expireTime : Z)
    (n readLen : Z) (hasData : bool) : M (Z * option error) :=
  match fuel with
  | O => stuck
  | S fuel =>
      now ← time_Now;
      let remainTime := expireTime - now in
      if remainTime <=? 0 then mret (n, Some (timeout_error (readTimeout p)))
      else
        let rfds := fdset (fd p) fdzero in
        let timeout := NsecToTimeval remainTime in
        '(nFd, rfds, err) ← syscall_Select (fd p + 1) (Some rfds) None timeout;
        match err with
        | None =>
            if (nFd =? 0) || negb (fdisset (fd p) rfds) then
              if hasData then mret (readLen, None)
              else mret (n, Some (timeout_error (readTimeout p)))
            else
              match slice_from b readLen with
              | None => panic
              | Some rest =>
                  '(n, err) ← syscall_Read (fd p) rest;
                  match err with
                  | None =>
                      if 0 <? n then Read_loop fuel p b expireTime n (readLen + n) true
                      else mret (n, Some (Errorf "serial: read no data" []))
                  | Some e =>
                      if negb (is_errno err EINTR)
                      then mret (n, Some (Errorf "serial: could not read: %v" [AErr e]))
                      else Read_loop fuel p b expireTime n readLen hasData
                  end
              end
        | Some e =>
            if negb (is_errno err EINTR)
            then mret (n, Some (Errorf "serial: could not select: %v" [AErr e]))
            else Read_loop fuel p b expireTime n readLen hasData
        end
  end.

(** [Read(b)]: the count and the error.  The bytes stored in [b] are
    not tracked, only the counts. *)
Definition Read (p : t) (b : list Z) : M (Z * option error) := λ w,
  (now ← time_Now;
   let expireTime := now + readTimeout p in
   Read_loop (length (script w)) p b expireTime 0 0 false) w.

(** The inner loop of [Write]: wait until the descriptor is writable.
    [None] is the [break]; an error is returned by [Write]. *)
Fixpoint Write_wait (fuel : nat) (p : t) (expireTime : Z) : M (option error) :=
  match fuel with
  | O => stuck
  | S fuel =>
      now ← time_Now;
      let remainTime := expireTime - now in
      if remainTime <=? 0 then mret (Some (timeout_error (writeTimeout p)))
      else
        let wfds := fdset (fd p) fdzero in
        let timeout := NsecToTimeval remainTime in
        '(nFd, wfds, err) ← syscall_Select (fd p + 1) None (Some wfds) timeout;
        match err with
        | None =>
            if (nFd =? 0) || negb (fdisset (fd p) wfds)
            then mret (Some (timeout_error (writeTimeout p)))
            else mret None
        | Some e =>
            if negb (is_errno err EINTR)
            then mret (Some (Errorf "serial: could not select: %v" [AErr e]))
            else Write_wait fuel p expireTime
        end
  end.

(** The outer loop of [Write]; its state is [writeLen].  In the last
    branch the error is not nil, by the test before it. *)
Fixpoint Write_loop (fuel : nat) (p : t) (b : list Z) (expireTime : Z)
    (writeLen : Z) : M (Z * option error) :=
  match fuel with
  | O => stuck
  | S fuel =>
      match slice_from b writeLen with
      | None => panic
      | Some rest =>
          '(n, err) ← syscall_Write (fd p) rest;
          if is_nil err || is_errno err EINTR then
            let writeLen := writeLen + n in
            if writeLen =? len b then mret (writeLen, None)
            else if len b <? writeLen then
              mret (n, Some (Errorf "serial: write overflow: %v > %v" [AInt writeLen; AInt (len b)]))
            else
              r ← Write_wait fuel p expireTime;
              match r with
              | Some e => mret (n, Some e)
              | None => Write_loop fuel p b expireTime writeLen
              end
          else
            match err with
            | Some e => mret (n, Some (Errorf "serial: could not write: %v" [AErr e]))
            | None => mret (n, None)
            end
      end
  end.

Definition Write (p : t) (b : list Z) : M (Z * option error) := λ w,
  (now ← time_Now;
   let expireTime := now + writeTimeout p in
   Write_loop (length (script w)) p b expireTime 0) w.

Definition Fd (p : t) : Z := fd p.

Definition TCFLSH : Z := 0x540B.

Definition Flush (p : t) : M (option error) :=
  '(r, errno) ← syscall_Ioctl (fd p) TCFLSH [TCIOFLUSH];
  if negb (errno =? 0) then mret (NewSyscallError "SYS_IOCTL (TCFLSH)" (Some (Errno errno)))
  else if negb (r =? 0) then mret (Some (ErrorString "serial: unknown error from SYS_IOCTL (TCFLSH)"))
  else mret None.

Definition NetAddr (p : t) : UnixAddr := mkUnixAddr (address p) "serial".

Definition SockAddr (p : t) : option Sockaddr := None.
End serial.

(** ** Sockets *)

(** [sysSocket]: a non-blocking, close-on-exec socket, with the fall-back
    for kernels that refuse the flags at creation.  [ForkLock] has no
    counterpart in a sequential model. *)
Definition sysSocket (family sotype proto : Z) : M (Z * option error) :=
  '(s, err) ← syscall_Socket family (Z.lor (Z.lor sotype SOCK_NONBLOCK) SOCK_CLOEXEC) proto;
  if is_nil err then mret (s, None)
  else if is_errno err EPROTONOSUPPORT || is_errno err EINVAL then
    '(s, err) ← syscall_Socket family sotype proto;
    _ ← (if is_nil err then syscall_CloseOnExec s else mret tt);
    if negb (is_nil err) then mret (-1, NewSyscallError "socket" err)
    else
      err ← syscall_SetNonblock s true;
      if negb (is_nil err) then
        _ ← syscall_Close s;
        mret (-1, NewSyscallError "setnonblock" err)
      else mret (s, None)
  else mret (-1, NewSyscallError "socket" err).

Definition setNoDelay (fd : Z) (noDelay : Z) : M (option error) :=
  err ← syscall_SetsockoptInt fd IPPROTO_TCP TCP_NODELAY noDelay;
  mret (NewSyscallError "setsockopt" err).

Definition setKeepAlive (fd : Z) (d : Duration) : M (option error) :=
  if d <=? 0 then mret (Some (ErrorString "invalid time duration"))
  else
    let secs := Z.quot d Second in
    err ← syscall_SetsockoptInt fd SOL_SOCKET SO_KEEPALIVE 1;
    if negb (is_nil err) then mret (NewSyscallError "setsockopt" err)
    else
      err ← syscall_SetsockoptInt fd IPPROTO_TCP TCP_KEEPINTVL secs;
      if negb (is_nil err) then mret (NewSyscallError "setsockopt" err)
      else
        err ← syscall_SetsockoptInt fd IPPROTO_TCP TCP_KEEPIDLE secs;
        mret (NewSyscallError "setsockopt" err).

(** ** Address resolution *)

(** The resolvers of package [net] are answered by the environment. *)
Definition resolve_ip (c : call) : M (option IPAddr * option error) :=
  r ← sys c;
  match r with
  | RIPAddr a => mret (Some a, None)
  | RFail msg => mret (None, Some (ErrorString msg))
  | _ => stuck
  end.

Definition net_ResolveTCPAddr (network address : string) := resolve_ip (NetResolveTCPAddr network address).
Definition net_ResolveUDPAddr (network address : string) := resolve_ip (NetResolveUDPAddr network address).

Definition net_ResolveUnixAddr (network address : string) : M (option UnixAddr * option error) :=
  r ← sys (NetResolveUnixAddr network address);
  match r with
  | RUnixAddr a => mret (Some a, None)
  | RFail msg => mret (None, Some (ErrorString msg))
  | _ => stuck
  end.

(** [net.InterfaceByName]: the index of the interface, or an error. *)
Definition net_InterfaceByName (name : string) : M (Z * option error) :=
  r ← sys (NetInterfaceByName name);
  match r with
  | RVal index => mret (index, None)
  | RFail msg => mret (0, Some (ErrorString msg))
  | _ => stuck
  end.

(** [ip.To4() != nil] and [ip.To16() != nil], as package [net] decides
    them from the length and the mapped-address prefix. *)
Definition To4_ok (ip : option (list Z)) : bool :=
  match ip with
  | None => false
  | Some l =>
      (length l =? 4)%nat
      || ((length l =? 16)%nat
          && bool_decide (take 12 l = replicate 10 0 ++ [0xff; 0xff]))
  end.

Definition To16_ok (ip : option (list Z)) : bool :=
  match ip with
  | None => false
  | Some l => (length l =? 4)%nat || (length l =? 16)%nat
  end.

(** [copy(dst, src)] into an array: as many bytes as both hold. *)
Definition copy (dst src : list Z) : list Z :=
  take (length dst) src ++ drop (length src) dst.

Definition determineProto (v4 v6 : string) (known : list string)
    (msg : string) (proto : string) (addr : IPAddr) : string * option error :=
  if To4_ok (IP addr) then (v4, None)
  else if To16_ok (IP addr) then (v6, None)
  else if bool_decide (proto ∈ known) then (proto, None)
  else (EmptyString, Some (Errorf msg [])).

Definition determineTCPProto : string → IPAddr → string * option error :=
  determineProto "tcp4" "tcp6" ["tcp"; "tcp4"; "tcp6"]%string "only tcp/tcp4/tcp6 are supported".

Definition determineUDPProto : string → IPAddr → string * option error :=
  determineProto "udp4" "udp6" ["udp"; "udp4"; "udp6"]%string "only udp/udp4/udp6 are supported".

(** The [switch] on the protocol version that [getTCPSockaddr] and
    [getUDPSockaddr] share, with the names of the three versions. *)
Definition sockaddr_of (v0 v4 v6 : string) (version : string) (a : IPAddr)
    : M (option Sockaddr * Z * option error) :=
  if String.eqb version v0 then
    mret (Some (SockaddrInet4 (Port a) (replicate 4 0)), AF_INET, None)
  else if String.eqb version v4 then
    let addr :=
      match IP a with
      | None => replicate 4 0
      | Some ip =>
          if (length ip =? 16)%nat then copy (replicate 4 0) (take 4 (drop 12 ip))
          else copy (replicate 4 0) ip
      end in
    mret (Some (SockaddrInet4 (Port a) addr), AF_INET, None)
  else if String.eqb version v6 then
    let addr :=
      match IP a with
      | None => replicate 16 0
      | Some ip => copy (replicate 16 0) ip
      end in
    if negb (String.eqb (Zone a) EmptyString) then
      '(index, err) ← net_InterfaceByName (Zone a);
      if negb (is_nil err) then mret (None, 0, err)
      else mret (Some (SockaddrInet6 (Port a) (index `mod` 2 ^ 32) addr), AF_INET6, None)
    else mret (Some (SockaddrInet6 (Port a) 0 addr), AF_INET6, None)
  else mret (None, 0, None).

Definition getTCPSockaddr (proto addr : string)
    : M (option Sockaddr * Z * option IPAddr * option error) :=
  '(tcpAddr, err) ← net_ResolveTCPAddr proto addr;
  match tcpAddr with
  | None => mret (None, 0, tcpAddr, err)
  | Some a =>
      let '(tcpVersion, err) := determineTCPProto proto a in
      if negb (is_nil err) then mret (None, 0, tcpAddr, err)
      else
        '(sa, family, err) ← sockaddr_of "tcp" "tcp4" "tcp6" tcpVersion a;
        mret (sa, family, tcpAddr, err)
  end.

Definition getUDPSockaddr (proto addr : string)
    : M (option Sockaddr * Z * option IPAddr * option error) :=
  '(udpAddr, err) ← net_ResolveUDPAddr proto addr;
  match udpAddr with
  | None => mret (None, 0, udpAddr, err)
  | Some a =>
      let '(udpVersion, err) := determineUDPProto proto a in
      if negb (is_nil err) then mret (None, 0, udpAddr, err)
      else
        '(sa, family, err) ← sockaddr_of "udp" "udp4" "udp6" udpVersion a;
        mret (sa, family, udpAddr, err)
  end.

Definition getUnixSockaddr (proto addr : string)
    : M (option Sockaddr * Z * option UnixAddr * option error) :=
  '(unixAddr, err) ← net_ResolveUnixAddr proto addr;
  match unixAddr with
  | None => mret (None, 0, unixAddr, err)
  | Some a =>
      if String.eqb (Net a) "unix" then mret (Some (SockaddrUnix (Name a)), AF_UNIX, unixAddr, None)
      else mret (None, 0, unixAddr, Some (Errorf "only unix are supported" []))
  end.

(** ** The TCP transport *)

Module tcp.
Record t : Type := mk {
  fd : Z;
  netAddr : option IPAddr;
  sockAddr : option Sockaddr;
  readTimeout : Duration;
  writeTimeout : Duration
}.

Definition with_fd (v : Z) (p : t) : t :=
  mk v (netAddr p) (sockAddr p) (readTimeout p) (writeTimeout p).
Definition with_readTimeout (v : Duration) (p : t) : t :=
  mk (fd p) (netAddr p) (sockAddr p) v (writeTimeout p).
Definition with_writeTimeout (v : Duration) (p : t) : t :=
  mk (fd p) (netAddr p) (sockAddr p) (readTimeout p) v.

Definition newTCP : t := mk (-1) None None 0 0.

Definition Open (c : TCPConfig.t) (p : t) : M (t * option error) :=
  '(sa, family, na, err) ← getTCPSockaddr (TCPConfig.Network c) (TCPConfig.Address c);
  let p := mk (fd p) na sa (readTimeout p) (writeTimeout p) in
  if negb (is_nil err) then
    mret (p, Some (Errorf "tcp: getTCPSockaddr %v %v: %v"
                     [AStr (TCPConfig.Network c); AStr (TCPConfig.Address c)]))
  else
    '(s, err) ← sysSocket family SOCK_STREAM IPPROTO_TCP;
    let p := with_fd s p in
    match err with
    | Some e => mret (p, Some (Errorf "tcp: sysSocket: %v" [AErr e]))
    | None =>
        err ← setNoDelay (fd p) (TCPConfig.NoDelay c);
        match err with
        | Some e =>
            _ ← syscall_Close (fd p);
            mret (p, Some (Errorf "tcp: setNoDelay: %v" [AErr e]))
        | None =>
            err ← setKeepAlive (fd p) (TCPConfig.KeepAlive c);
            match err with
            | Some e =>
                _ ← syscall_Close (fd p);
                mret (p, Some (Errorf "tcp: setKeepAlive: %v" [AErr e]))
            | None =>
                err ← syscall_Connect (fd p) (sockAddr p);
                match err with
                | Some e =>
                    _ ← syscall_Close (fd p);
                    mret (p, Some (Errorf "tcp: Connect: %v" [AErr (SyscallError "connect" e)]))
                | None =>
                    err ← syscall_SetNonblock (fd p) true;
                    match err with
                    | Some e =>
                        _ ← syscall_Close (fd p);
                        mret (p, Some (Errorf "tcp: SetNonblock: %v" [AErr e]))
                    | None =>
                        let p :=
                          if 0 <? TCPConfig.ReadTimeout c
                          then with_readTimeout (TCPConfig.ReadTimeout c) p else p in
                        let p :=
                          if 0 <? TCPConfig.WriteTimeout c
                          then with_writeTimeout (TCPConfig.WriteTimeout c) p else p in
                        mret (p, None)
                    end
                end
            end
        end
    end.

Definition Close (p : t) : M (t * option error) :=
  _ ← (if negb (fd p =? -1) then _ ← syscall_Close (fd p); mret tt else mret tt);
  mret (p, None).

Definition Read (p : t) (b : list Z) : M (Z * option error) := syscall_Read (fd p) b.
Definition Write (p : t) (b : list Z) : M (Z * option error) := syscall_Write (fd p) b.
Definition Fd (p : t) : Z := fd p.
Definition Flush (p : t) : M (option error) := mret None.
Definition NetAddr (p : t) : option IPAddr := netAddr p.
Definition SockAddr (p : t) : option Sockaddr := sockAddr p.
End tcp.

(** ** The UDP transport *)

Module udp.
Record t : Type := mk {
  fd : Z;
  netAddr : option IPAddr;
  sockAddr : option Sockaddr;
  readTimeout : Duration;
  writeTimeout : Duration
}.

Definition with_fd (v : Z) (p : t) : t :=
  mk v (netAddr p) (sockAddr p) (readTimeout p) (writeTimeout p).
Definition with_readTimeout (v : Duration) (p : t) : t :=
  mk (fd p) (netAddr p) (sockAddr p) v (writeTimeout p).
Definition with_writeTimeout (v : Duration) (p : t) : t :=
  mk (fd p) (netAddr p) (sockAddr p) (readTimeout p) v.

Definition newUDP : t := mk (-1) None None 0 0.

Definition Open (c : UDPConfig.t) (p : t) : M (t * option error) :=
  '(sa, family, na, err) ← getUDPSockaddr (UDPConfig.Network c) (UDPConfig.Address c);
  let p := mk (fd p) na sa (readTimeout p) (writeTimeout p) in
  if negb (is_nil err) then
    mret (p, Some (Errorf "udp: getUDPSockaddr %v %v: %v"
                     [AStr (UDPConfig.Network c); AStr (UDPConfig.Address c)]))
  else
    '(s, err) ← sysSocket family SOCK_DGRAM IPPROTO_UDP;
    let p := with_fd s p in
    match err with
    | Some e => mret (p, Some (Errorf "udp: sysSocket: %v" [AErr e]))
    | None =>
        let p :=
          if 0 <? UDPConfig.ReadTimeout c
          then with_readTimeout (UDPConfig.ReadTimeout c) p else p in
        let p :=
          if 0 <? UDPConfig.WriteTimeout c
          then with_writeTimeout (UDPConfig.WriteTimeout c) p else p in
        mret (p, None)
    end.

Definition Close (p : t) : M (t * option error) :=
  _ ← (if negb (fd p =? -1) then _ ← syscall_Close (fd p); mret tt else mret tt);
  mret (p, None).

Definition Read (p : t) (b : list Z) : M (Z * option error) :=
  syscall_Recvfrom (fd p) b 0.

(** [return len(b), syscall.Sendto(p.fd, b, 0, p.sockAddr)]. *)
Definition Write (p : t) (b : list Z) : M (Z * option error) :=
  err ← syscall_Sendto (fd p) b 0 (sockAddr p);
  mret (len b, err).

Definition Fd (p : t) : Z := fd p.
Definition Flush (p : t) : M (option error) := mret None.
Definition NetAddr (p : t) : option IPAddr := netAddr p.
Definition SockAddr (p : t) : option Sockaddr := sockAddr p.
End udp.

(** ** The Unix-domain socket transport *)

Module unixsocket.
Record t : Type := mk {
  fd : Z;
  netAddr : option UnixAddr;
  sockAddr : option Sockaddr;
  readTimeout : Duration;
  writeTimeout : Duration
}.

Definition with_fd (v : Z) (p : t) : t :=
  mk v (netAddr p) (sockAddr p) (readTimeout p) (writeTimeout p).
Definition with_readTimeout (v : Duration) (p : t) : t :=
  mk (fd p) (netAddr p) (sockAddr p) v (writeTimeout p).
Definition with_writeTimeout (v : Duration) (p : t) : t :=
  mk (fd p) (netAddr p) (sockAddr p) (readTimeout p) v.

Definition newUnixSocket : t := mk (-1) None None 0 0.

Definition Open (c : UnixSocketConfig.t) (p : t) : M (t * option error) :=
  '(sa, family, na, err) ←
    getUnixSockaddr (UnixSocketConfig.Network c) (UnixSocketConfig.Address c);
  let p := mk (fd p) na sa (readTimeout p) (writeTimeout p) in
  if negb (is_nil err) then
    mret (p, Some (Errorf "unixsocket: getUnixSockaddr %v %v: %v"
                     [AStr (UnixSocketConfig.Network c); AStr (UnixSocketConfig.Address c)]))
  else
    '(s, err) ← sysSocket family SOCK_STREAM 0;
    let p := with_fd s p in
    match err with
    | Some e => mret (p, Some (Errorf "unixsocket: sysSocket: %v" [AErr e]))
    | None =>
        err ← syscall_Connect (fd p) (sockAddr p);
        match err with
        | Some e => mret (p, Some (Errorf "tcp: Connect: %v" [AErr (SyscallError "connect" e)]))
        | None =>
            let p :=
              if 0 <? UnixSocketConfig.ReadTimeout c
              then with_readTimeout (UnixSocketConfig.ReadTimeout c) p else p in
            let p :=
              if 0 <? UnixSocketConfig.WriteTimeout c
              then with_writeTimeout (UnixSocketConfig.WriteTimeout c) p else p in
            mret (p, None)
        end
    end.

Definition Close (p : t) : M (t * option error) :=
  _ ← (if negb (fd p =? -1) then _ ← syscall_Close (fd p); mret tt else mret tt);
  mret (p, None).

Definition Read (p : t) (b : list Z) : M (Z * option error) := syscall_Read (fd p) b.
Definition Write (p : t) (b : list Z) : M (Z * option error) := syscall_Write (fd p) b.
Definition Fd (p : t) : Z := fd p.
Definition Flush (p : t) : M (option error) := mret None.
Definition NetAddr (p : t) : option UnixAddr := netAddr p.

(** [func (p *unixsocket) SockAddr() syscall.Sockaddr { return p.SockAddr() }]:
    the method calls itself.  [fuel] bounds the depth of the calls;
    [None] says that the call has not returned within it. *)
Fixpoint SockAddr (fuel : nat) (p : t) : option (option Sockaddr) :=
  match fuel with
  | O => None
  | S fuel => SockAddr fuel p
  end.
End unixsocket.

(** ** The [EndPoint] interface and the registry *)

(** The four implementations of [EndPoint]. *)
Inductive EndPoint : Type :=
| EpSerial (p : serial.t)
| EpTCP (p : tcp.t)
| EpUDP (p : udp.t)
| EpUnix (p : unixsocket.t).

Definition EndPoint_Type (p : EndPoint) : EndPointType :=
  match p with
  | EpSerial _ => EndPointSerial
  | EpTCP _ => EndPointTCP
  | EpUDP _ => EndPointUDP
  | EpUnix _ => EndPointUnix
  end.

Definition EndPoint_Fd (p : EndPoint) : Z :=
  match p with
  | EpSerial p => serial.Fd p
  | EpTCP p => tcp.Fd p
  | EpUDP p => udp.Fd p
  | EpUnix p => unixsocket.Fd p
  end.

(** [newEndPoint]: every configuration has one of the four types, so the
    [default] branch (a nil endpoint) is never taken. *)
Definition newEndPoint (c : EndPointConfig) : EndPoint :=
  match Type_ c with
  | EndPointTCP => EpTCP tcp.newTCP
  | EndPointUDP => EpUDP udp.newUDP
  | EndPointUnix => EpUnix unixsocket.newUnixSocket
  | EndPointSerial => EpSerial serial.newSerial
  end.

Definition EndPoint_Close (p : EndPoint) : M (EndPoint * option error) :=
  match p with
  | EpSerial p => '(p, err) ← serial.Close p; mret (EpSerial p, err)
  | EpTCP p => '(p, err) ← tcp.Close p; mret (EpTCP p, err)
  | EpUDP p => '(p, err) ← udp.Close p; mret (EpUDP p, err)
  | EpUnix p => '(p, err) ← unixsocket.Close p; mret (EpUnix p, err)
  end.

Definition EndPoint_Read (p : EndPoint) (b : list Z) : M (Z * option error) :=
  match p with
  | EpSerial p => serial.Read p b
  | EpTCP p => tcp.Read p b
  | EpUDP p => udp.Read p b
  | EpUnix p => unixsocket.Read p b
  end.

Definition EndPoint_Write (p : EndPoint) (b : list Z) : M (Z * option error) :=
  match p with
  | EpSerial p => serial.Write p b
  | EpTCP p => tcp.Write p b
  | EpUDP p => udp.Write p b
  | EpUnix p => unixsocket.Write p b
  end.

Section Registry.
Variable baudRates : Z → option Z.

(** [p.Open(c)] through the interface: each method asserts the type
    of its configuration and panics on another one. *)
Definition EndPoint_Open (p : EndPoint) (c : EndPointConfig) : M (EndPoint * option error) :=
  match p, c with
  | EpSerial p, CfgSerial c => '(p, err) ← serial.Open baudRates c p; mret (EpSerial p, err)
  | EpTCP p, CfgTCP c => '(p, err) ← tcp.Open c p; mret (EpTCP p, err)
  | EpUDP p, CfgUDP c => '(p, err) ← udp.Open c p; mret (EpUDP p, err)
  | EpUnix p, CfgUnix c => '(p, err) ← unixsocket.Open c p; mret (EpUnix p, err)
  | _, _ => panic
  end.

(** [Open(c, m)]: open and register.  The [sync.Map] is a finite map
    from address names to slices of endpoints; an endpoint is stored as
    it is when [Open] returns. *)
Definition Open (c : EndPointConfig) (m : gmap string (list EndPoint))
    : M (EndPoint * option error * gmap string (list EndPoint)) :=
  let p := newEndPoint c in
  if decide (Type_ c = EndPointSerial) then
    match m !! AddressName c with
    | Some _ => mret (p, Some (Errorf "opening serial repeated is unsupported" []), m)
    | None =>
        '(p, err) ← EndPoint_Open p c;
        if is_nil err then mret (p, err, <[AddressName c := [p]]> m)
        else mret (p, err, m)
    end
  else
    '(p, err) ← EndPoint_Open p c;
    if is_nil err then
      match m !! AddressName c with
      | Some slice => mret (p, err, <[AddressName c := slice ++ [p]]> m)
      | None => mret (p, err, <[AddressName c := [p]]> m)
      end
    else mret (p, err, m).

(** [Find(c, m)]: the slice (nil when absent) and whether it was found. *)
Definition Find (c : EndPointConfig) (m : gmap string (list EndPoint))
    : list EndPoint * bool :=
  match m !! AddressName c with
  | Some slice => (slice, true)
  | None => ([], false)
  end.

(** [Delete(c, m)]. *)
Definition Delete (c : EndPointConfig) (m : gmap string (list EndPoint))
    : gmap string (list EndPoint) :=
  delete (AddressName c) m.
End Registry.

(** * Vocabulary of the properties *)

(** The answers a system call takes: a value or an errno. *)
Definition is_answer (r : resp) : Prop := ∃ v, r = RVal v ∨ r = RErr v.

(** The flags of the device open. *)
Definition open_flags : Z := Z.lor (Z.lor (Z.lor O_RDWR O_NOCTTY) O_NONBLOCK) O_CLOEXEC.

(** The endpoint as the first statements of [Open] leave it: the address
    recorded, and the descriptor that the device open returned. *)
Definition opened (c : SerialConfig.t) (fd : Z) (p : serial.t) : serial.t :=
  serial.with_fd fd (serial.with_address (SerialConfig.Address c) p).

(** ** Runs of serial Read *)

(** A wait that reports no readiness: no descriptor counted, or ours not
    marked. *)
Definition no_readiness (fd nFd : Z) (rfds : list Z) : Prop :=
  nFd = 0 ∨ fd ∉ rfds.

(** The turns of the loop of [Read] that go round again, with what the
    environment answers in each: the wait is interrupted; the descriptor
    is ready and the read is interrupted; the descriptor is ready and
    [n] bytes are read. *)
Inductive read_turn : Type :=
| WaitInterrupted (now : Z)
| ReadInterrupted (now nFd : Z) (rfds : list Z)
| ReadBytes (now nFd : Z) (rfds : list Z) (n : Z).

Definition turn_script (t : read_turn) : list resp :=
  match t with
  | WaitInterrupted now => [RNow now; RErr EINTR]
  | ReadInterrupted now nFd rfds => [RNow now; RSel nFd rfds; RErr EINTR]
  | ReadBytes now nFd rfds n => [RNow now; RSel nFd rfds; RVal n]
  end.

Definition turns_script (ts : list read_turn) : list resp :=
  concat (map turn_script ts).

(** The bytes read in a sequence of turns. *)
Fixpoint bytes_read (ts : list read_turn) : Z :=
  match ts with
  | [] => 0
  | ReadBytes _ _ _ n :: ts => n + bytes_read ts
  | _ :: ts => bytes_read ts
  end.

(** The turns happen before the deadline, the reads on a ready
    descriptor, within the buffer, and each read brings bytes. *)
Fixpoint turns_ok (expireTime fd blen readLen : Z) (ts : list read_turn) : Prop :=
  match ts with
  | [] => True
  | WaitInterrupted now :: ts =>
      now < expireTime ∧ turns_ok expireTime fd blen readLen ts
  | ReadInterrupted now nFd rfds :: ts =>
      now < expireTime ∧ ¬ no_readiness fd nFd rfds ∧ readLen ≤ blen
      ∧ turns_ok expireTime fd blen readLen ts
  | ReadBytes now nFd rfds n :: ts =>
      now < expireTime ∧ ¬ no_readiness fd nFd rfds ∧ readLen ≤ blen ∧ 0 < n
      ∧ turns_ok expireTime fd blen (readLen + n) ts
  end.

(** ** Runs of serial Write *)

(** What a write adds to [writeLen]: the count of a successful write, and
    the -1 that package [syscall] returns with the error of an
    interrupted one. *)
Definition progress (r : resp) : Z :=
  match r with
  | RVal n => n
  | _ => -1
  end.

Definition is_progress (r : resp) : Prop := (∃ n, r = RVal n) ∨ r = RErr EINTR.

(** A turn of the outer loop of [Write] that goes round again: the answer
    to the write, the times at which the wait is interrupted, and the
    wait that finds the descriptor writable. *)
Record write_turn : Type := WriteTurn {
  wt_write : resp;
  wt_interrupted : list Z;
  wt_now : Z;
  wt_nFd : Z;
  wt_wfds : list Z
}.

Definition waits_script (waits : list Z) : list resp :=
  concat (map (λ t, [RNow t; RErr EINTR]) waits).

Definition wturn_script (t : write_turn) : list resp :=
  wt_write t :: waits_script (wt_interrupted t) ++ [RNow (wt_now t); RSel (wt_nFd t) (wt_wfds t)].

Definition wturns_script (ts : list write_turn) : list resp :=
  concat (map wturn_script ts).

(** What a sequence of turns adds to [writeLen]. *)
Fixpoint written (ts : list write_turn) : Z :=
  match ts with
  | [] => 0
  | t :: ts => progress (wt_write t) + written ts
  end.

(** The turns leave [writeLen] within the buffer and short of its end,
    and their waits end before the deadline on a writable descriptor. *)
Fixpoint wturns_ok (expireTime fd blen writeLen : Z) (ts : list write_turn) : Prop :=
  match ts with
  | [] => True
  | t :: ts =>
      is_progress (wt_write t)
      ∧ 0 ≤ writeLen + progress (wt_write t) < blen
      ∧ Forall (λ t, t < expireTime) (wt_interrupted t)
      ∧ wt_now t < expireTime
      ∧ ¬ no_readiness fd (wt_nFd t) (wt_wfds t)
      ∧ wturns_ok expireTime fd blen (writeLen + progress (wt_write t)) ts
  end.

(** The error of the overflow branch of [Write]. *)
Definition overflow_error (writeLen bLen : Z) : error :=
  Errorf "serial: write overflow: %v > %v" [AInt writeLen; AInt bLen].

(** ** Registries *)

Definition is_serial (p : EndPoint) : bool :=
  bool_decide (EndPoint_Type p = EndPointSerial).

(** The number of serial endpoints in a collection. *)
Definition serial_count (l : list EndPoint) : nat := length (List.filter is_serial l).

(** Every collection holds at most one serial endpoint. *)
Definition one_serial (m : gmap string (list EndPoint)) : Prop :=
  ∀ k l, m !! k = Some l → (serial_count l ≤ 1)%nat.

(** The registries that [Open] and [Delete] build from the empty one,
    whatever the configurations and the answers of the environment. *)
Inductive reachable (baudRates : Z → option Z) : gmap string (list EndPoint) → Prop :=
| reachable_empty : reachable baudRates ∅
| reachable_Open c m w p err m' w' :
    reachable baudRates m →
    Open baudRates c m w = Returns (p, err, m') w' →
    reachable baudRates m'
| reachable_Delete c m :
    reachable baudRates m →
    reachable baudRates (Delete c m).

(** * Example data *)

(** An instance of the rate table: three rates with their linux flags
    ([B9600], [B19200], [B115200]). *)
Definition example_baudRates (rate : Z) : option Z :=
  if rate =? 9600 then Some 0xd
  else if rate =? 19200 then Some 0xe
  else if rate =? 115200 then Some 0x1002
  else None.

Definition no_rs485 : RS485Config.t := RS485Config.mk false 0 0 false false false.
Definition rs485_on : RS485Config.t := RS485Config.mk true 0 0 true false false.

(** A serial configuration: 9600 8N1 on /dev/ttyS0, default timeouts. *)
Definition example_serial : SerialConfig.t :=
  SerialConfig.mk "/dev/ttyS0" 9600 8 1 PARITY_NONE 0 0 no_rs485.

(** The same configuration with one field changed. *)
Definition with_BaudRate (v : Z) (c : SerialConfig.t) : SerialConfig.t :=
  SerialConfig.mk (SerialConfig.Address c) v (SerialConfig.DataBits c) (SerialConfig.StopBits c)
    (SerialConfig.Parity c) (SerialConfig.ReadTimeout c) (SerialConfig.WriteTimeout c)
    (SerialConfig.RS485 c).

Definition with_DataBits (v : Z) (c : SerialConfig.t) : SerialConfig.t :=
  SerialConfig.mk (SerialConfig.Address c) (SerialConfig.BaudRate c) v (SerialConfig.StopBits c)
    (SerialConfig.Parity c) (SerialConfig.ReadTimeout c) (SerialConfig.WriteTimeout c)
    (SerialConfig.RS485 c).

Definition with_StopBits (v : Z) (c : SerialConfig.t) : SerialConfig.t :=
  SerialConfig.mk (SerialConfig.Address c) (SerialConfig.BaudRate c) (SerialConfig.DataBits c) v
    (SerialConfig.Parity c) (SerialConfig.ReadTimeout c) (SerialConfig.WriteTimeout c)
    (SerialConfig.RS485 c).

Definition with_Parity (v : Z) (c : SerialConfig.t) : SerialConfig.t :=
  SerialConfig.mk (SerialConfig.Address c) (SerialConfig.BaudRate c) (SerialConfig.DataBits c)
    (SerialConfig.StopBits c) v (SerialConfig.ReadTimeout c) (SerialConfig.WriteTimeout c)
    (SerialConfig.RS485 c).

Definition with_RS485 (v : RS485Config.t) (c : SerialConfig.t) : SerialConfig.t :=
  SerialConfig.mk (SerialConfig.Address c) (SerialConfig.BaudRate c) (SerialConfig.DataBits c)
    (SerialConfig.StopBits c) (SerialConfig.Parity c) (SerialConfig.ReadTimeout c)
    (SerialConfig.WriteTimeout c) v.

(** An open serial endpoint on descriptor 3, with a read timeout of
    200 ms and a write timeout of 1 s. *)
Definition example_port : serial.t :=
  serial.mk 3 "/dev/ttyS0" None (200 * Millisecond) (1000 * Millisecond).

(** A turn of [Write] on that endpoint: [n] bytes taken, and the
    descriptor writable at time [now]. *)
Definition ready_turn (n : Z) (now : Z) : write_turn := WriteTurn (RVal n) [] now 1 [3].

Definition example_ip : IPAddr := mkIPAddr (Some [127; 0; 0; 1]) 9000 EmptyString.
Definition example_peer : Sockaddr := SockaddrInet4 9000 [127; 0; 0; 1].

Definition example_tcp_config : TCPConfig.t :=
  TCPConfig.mk "tcp" "127.0.0.1:9000" 0 TCPNoDelay 0 0.

Definition example_udp_config : UDPConfig.t :=
  UDPConfig.mk "udp" "127.0.0.1:9000" 0 0.

Definition example_unix_config : UnixSocketConfig.t :=
  UnixSocketConfig.mk "unix" "/dev/ttyS0" 0 0.

(** Open endpoints: TCP on descriptor 5, UDP on descriptor 3. *)
Definition example_tcp : tcp.t := tcp.mk 5 (Some example_ip) (Some example_peer) 0 0.
Definition example_udp : udp.t := udp.mk 3 None (Some example_peer) 0 0.

(** * Further code and vocabulary *)

(** The first creation call of [sysSocket], with the two flags. *)
Definition socket_with_flags (family sotype proto : Z) : call :=
  SysSocket family (Z.lor (Z.lor sotype SOCK_NONBLOCK) SOCK_CLOEXEC) proto.

(** The named result [n] of [Read] after a sequence of turns that began
    with [n]: every read assigns it, an interrupted one the -1 that
    package [syscall] returns with the error. *)
Fixpoint last_count (n : Z) (ts : list read_turn) : Z :=
  match ts with
  | [] => n
  | WaitInterrupted _ :: ts => last_count n ts
  | ReadInterrupted _ _ _ :: ts => last_count (-1) ts
  | ReadBytes _ _ _ k :: ts => last_count k ts
  end.

(** The earlier version of the TCP transport: the endpoint has no
    timeouts, and [Open] neither closes the socket when a later step
    fails nor sets it non-blocking after the connection.  Of the
    configuration it reads the network, the address, and the two socket
    options. *)
Module tcp_v1.
Record t : Type := mk {
  fd : Z;
  netAddr : option IPAddr;
  sockAddr : option Sockaddr
}.

Definition with_fd (v : Z) (p : t) : t := mk v (netAddr p) (sockAddr p).

Definition newTCP : t := mk (-1) None None.

Definition Open (c : TCPConfig.t) (p : t) : M (t * option error) :=
  '(sa, family, na, err) ← getTCPSockaddr (TCPConfig.Network c) (TCPConfig.Address c);
  let p := mk (fd p) na sa in
  if negb (is_nil err) then
    mret (p, Some (Errorf "tcp: getTCPSockaddr %v %v: %v"
                     [AStr (TCPConfig.Network c); AStr (TCPConfig.Address c)]))
  else
    '(s, err) ← sysSocket family SOCK_STREAM IPPROTO_TCP;
    let p := with_fd s p in
    match err with
    | Some e => mret (p, Some (Errorf "tcp: sysSocket: %v" [AErr e]))
    | None =>
        err ← setNoDelay (fd p) (TCPConfig.NoDelay c);
        match err with
        | Some e => mret (p, Some (Errorf "tcp: setNoDelay: %v" [AErr e]))
        | None =>
            err ← setKeepAlive (fd p) (TCPConfig.KeepAlive c);
            match err with
            | Some e => mret (p, Some (Errorf "tcp: setKeepAlive: %v" [AErr e]))
            | None =>
                err ← syscall_Connect (fd p) (sockAddr p);
                match err with
                | Some e =>
                    mret (p, Some (Errorf "tcp: Connect: %v" [AErr (SyscallError "connect" e)]))
                | None => mret (p, None)
                end
            end
        end
    end.

Definition Close (p : t) : M (t * option error) :=
  _ ← (if negb (fd p =? -1) then _ ← syscall_Close (fd p); mret tt else mret tt);
  mret (p, None).
End tcp_v1.

(** The error that package [syscall] returns for an answer of the kernel:
    nil for a value, the errno for a failure. *)
Definition answer_error (r : resp) : option error :=
  match r with
  | RErr e => Some (Errno e)
  | _ => None
  end.

(** * Properties *)

(** ** Terminal attributes *)

Lemma land_bis m x : Z.land (bis m x) m = m.
Proof.
  unfold bis. apply Z.bits_inj'. intros i _.
  rewrite Z.land_spec, Z.lor_spec. destruct (Z.testbit x i), (Z.testbit m i); reflexivity.
Qed.

Lemma land_bic m x : Z.land (bic m x) m = 0.
Proof.
  unfold bic. apply Z.bits_inj'. intros i _.
  rewrite Z.land_spec, Z.ldiff_spec, Z.bits_0.
  destruct (Z.testbit x i), (Z.testbit m i); reflexivity.
Qed.

Lemma land_bis_other k m x : Z.land k m = 0 → Z.land (bis k x) m = Z.land x m.
Proof.
  intros H. unfold bis. apply Z.bits_inj'. intros i _.
  apply (f_equal (λ z, Z.testbit z i)) in H. rewrite Z.land_spec, Z.bits_0 in H.
  rewrite !Z.land_spec, Z.lor_spec.
  destruct (Z.testbit x i), (Z.testbit m i), (Z.testbit k i); done.
Qed.

Lemma land_bic_other k m x : Z.land k m = 0 → Z.land (bic k x) m = Z.land x m.
Proof.
  intros H. unfold bic. apply Z.bits_inj'. intros i _.
  apply (f_equal (λ z, Z.testbit z i)) in H. rewrite Z.land_spec, Z.bits_0 in H.
  rewrite !Z.land_spec, Z.ldiff_spec.
  destruct (Z.testbit x i), (Z.testbit m i), (Z.testbit k i); done.
Qed.

(** Reading the attributes after a chain of flag updates. *)
Ltac flags :=
  cbn [Cflag Iflag Ispeed Ospeed with_Cflag with_Iflag cfSetIspeed cfSetOspeed];
  repeat first
    [ rewrite land_bis
    | rewrite land_bic
    | rewrite land_bis_other by reflexivity
    | rewrite land_bic_other by reflexivity ].

Lemma supported_data_bits d : d ∈ [5; 6; 7; 8] ↔ is_Some (charSizes d).
Proof.
  unfold charSizes. split.
  - intros H. repeat (apply elem_of_cons in H as [-> | H]; [simpl; eauto |]).
    by apply elem_of_nil in H.
  - intros [f Hf]. repeat case_match; try discriminate;
      match goal with H : (_ =? _) = true |- _ => apply Z.eqb_eq in H; subst end;
      set_solver.
Qed.

Lemma stopBits_ok c t :
  SerialConfig.StopBits c ∈ [0; 1; 2] →
  ∃ t', stopBits c t = (t', None)
        ∧ Z.land (Cflag t') CSTOPB = (if SerialConfig.StopBits c =? 2 then CSTOPB else 0)
        ∧ Ispeed t' = Ispeed t ∧ Ospeed t' = Ospeed t.
Proof.
  intros H. unfold stopBits.
  repeat (apply elem_of_cons in H as [-> | H]); [| | | by apply elem_of_nil in H];
    simpl; eexists; (split; [reflexivity |]); flags; done.
Qed.

Lemma stopBits_unsupported c t :
  SerialConfig.StopBits c ∉ [0; 1; 2] →
  stopBits c t = (t, Some (Errorf "serial: unsupported stop bits %v" [AInt (SerialConfig.StopBits c)])).
Proof.
  intros H. unfold stopBits.
  destruct (Z.eqb_spec (SerialConfig.StopBits c) 0) as [E | _]; [rewrite E in H; set_solver |].
  destruct (Z.eqb_spec (SerialConfig.StopBits c) 1) as [E | _]; [rewrite E in H; set_solver |].
  destruct (Z.eqb_spec (SerialConfig.StopBits c) 2) as [E | _]; [rewrite E in H; set_solver |].
  reflexivity.
Qed.

Lemma parity_ok c t :
  SerialConfig.Parity c ∈ [PARITY_NONE; PARITY_ODD; PARITY_EVEN; PARITY_MARK; PARITY_SPACE] →
  ∃ t', parity c t = (t', None)
        ∧ Z.land (Cflag t') CSTOPB = Z.land (Cflag t) CSTOPB
        ∧ Ispeed t' = Ispeed t ∧ Ospeed t' = Ospeed t.
Proof.
  intros H. unfold parity.
  repeat (apply elem_of_cons in H as [-> | H]); [| | | | | by apply elem_of_nil in H];
    simpl; eexists; (split; [reflexivity |]); flags; done.
Qed.

Lemma parity_unsupported c t :
  SerialConfig.Parity c ∉ [PARITY_NONE; PARITY_ODD; PARITY_EVEN; PARITY_MARK; PARITY_SPACE] →
  parity c t = (t, Some (Errorf "serial: unsupported parity %v" [AInt (SerialConfig.Parity c)])).
Proof.
  intros H. unfold parity.
  destruct (Z.eqb_spec (SerialConfig.Parity c) PARITY_NONE) as [E | _]; [rewrite E in H; set_solver |].
  destruct (Z.eqb_spec (SerialConfig.Parity c) PARITY_ODD) as [E | _]; [rewrite E in H; set_solver |].
  destruct (Z.eqb_spec (SerialConfig.Parity c) PARITY_EVEN) as [E | _]; [rewrite E in H; set_solver |].
  destruct (Z.eqb_spec (SerialConfig.Parity c) PARITY_MARK) as [E | _]; [rewrite E in H; set_solver |].
  destruct (Z.eqb_spec (SerialConfig.Parity c) PARITY_SPACE) as [E | _]; [rewrite E in H; set_solver |].
  reflexivity.
Qed.

(** C7. The terminal-attribute mapping [newTermios] is a function of the
    configuration alone (given the rate table).  On every supported
    input, that is a baud rate in the table, data bits in {5,6,7,8}, stop
    bits in {0,1,2} and a parity among none, odd, even, mark, space, it
    returns attributes without an error: the input and the output speed
    are the flag looked up for the rate, the receiver-enable and
    ignore-modem-control bits are set, and the two-stop-bits flag is set
    exactly for 2 stop bits.  An unsupported baud rate, data-bit count,
    stop-bit count or parity mode, the others being supported, gives the
    error of that field. *)
Theorem newTermios_supported_or_error (baudRates : Z → option Z) (c : SerialConfig.t) :
  (∀ flag, baudRates (SerialConfig.BaudRate c) = Some flag →
     SerialConfig.DataBits c ∈ [5; 6; 7; 8] →
     SerialConfig.StopBits c ∈ [0; 1; 2] →
     SerialConfig.Parity c ∈ [PARITY_NONE; PARITY_ODD; PARITY_EVEN; PARITY_MARK; PARITY_SPACE] →
     ∃ t, newTermios baudRates c = (t, None)
          ∧ Ispeed t = flag ∧ Ospeed t = flag
          ∧ Z.land (Cflag t) CREAD = CREAD
          ∧ Z.land (Cflag t) CLOCAL = CLOCAL
          ∧ Z.land (Cflag t) CSTOPB = (if SerialConfig.StopBits c =? 2 then CSTOPB else 0))
  ∧ (baudRates (SerialConfig.BaudRate c) = None →
     (newTermios baudRates c).2 =
       Some (Errorf "serial: unsupported baud rate %v" [AInt (SerialConfig.BaudRate c)]))
  ∧ (is_Some (baudRates (SerialConfig.BaudRate c)) →
     SerialConfig.DataBits c ∉ [5; 6; 7; 8] →
     (newTermios baudRates c).2 =
       Some (Errorf "serial: unsupported character size %v" [AInt (SerialConfig.DataBits c)]))
  ∧ (is_Some (baudRates (SerialConfig.BaudRate c)) →
     SerialConfig.DataBits c ∈ [5; 6; 7; 8] →
     SerialConfig.StopBits c ∉ [0; 1; 2] →
     (newTermios baudRates c).2 =
       Some (Errorf "serial: unsupported stop bits %v" [AInt (SerialConfig.StopBits c)]))
  ∧ (is_Some (baudRates (SerialConfig.BaudRate c)) →
     SerialConfig.DataBits c ∈ [5; 6; 7; 8] →
     SerialConfig.StopBits c ∈ [0; 1; 2] →
     SerialConfig.Parity c ∉ [PARITY_NONE; PARITY_ODD; PARITY_EVEN; PARITY_MARK; PARITY_SPACE] →
     (newTermios baudRates c).2 =
       Some (Errorf "serial: unsupported parity %v" [AInt (SerialConfig.Parity c)])).
Proof.
  unfold newTermios. repeat split.
  - intros flag Hb Hd Hs Hp. rewrite Hb.
    apply supported_data_bits in Hd as [cs Hcs]. rewrite Hcs.
    edestruct stopBits_ok as (t1 & -> & Hst1 & Hi1 & Ho1); [exact Hs |].
    edestruct parity_ok as (t2 & -> & Hst2 & Hi2 & Ho2); [exact Hp |].
    eexists. split; [reflexivity |].
    rewrite <- Hst1, <- Hst2.
    repeat split; flags; rewrite ?Hi2, ?Ho2, ?Hi1, ?Ho1; flags; try reflexivity.
    + unfold bis. apply Z.bits_inj'. intros i _. rewrite !Z.land_spec, !Z.lor_spec.
      destruct (Z.testbit CREAD i), (Z.testbit (Cflag t2) i), (Z.testbit CLOCAL i); done.
    + unfold bis. apply Z.bits_inj'. intros i _. rewrite !Z.land_spec, !Z.lor_spec.
      destruct (Z.testbit CREAD i), (Z.testbit (Cflag t2) i), (Z.testbit CLOCAL i); done.
  - intros ->. reflexivity.
  - intros [flag ->] Hd.
    destruct (charSizes (SerialConfig.DataBits c)) eqn:Hcs; [| reflexivity].
    exfalso. apply Hd, supported_data_bits. eauto.
  - intros [flag ->] Hd Hs.
    apply supported_data_bits in Hd as [cs ->].
    rewrite stopBits_unsupported by done. reflexivity.
  - intros [flag ->] Hd Hs Hp.
    apply supported_data_bits in Hd as [cs ->].
    edestruct stopBits_ok as (t1 & -> & _); [exact Hs |].
    rewrite parity_unsupported by done. reflexivity.
Qed.

Ltac in_list := cbn; repeat first [apply list_elem_of_here | apply list_elem_of_further].
Ltac not_in_list :=
  cbn; intros Hin;
  repeat (apply elem_of_cons in Hin as [Hin | Hin]; [discriminate Hin |]);
  by apply elem_of_nil in Hin.

Lemma newTermios_supported_or_error_witness :
  (∃ t, newTermios example_baudRates (with_StopBits 2 example_serial) = (t, None)
        ∧ Ispeed t = 0xd ∧ Ospeed t = 0xd
        ∧ Z.land (Cflag t) CREAD = CREAD
        ∧ Z.land (Cflag t) CLOCAL = CLOCAL
        ∧ Z.land (Cflag t) CSTOPB = CSTOPB)
  ∧ (newTermios example_baudRates (with_BaudRate 12345 example_serial)).2 =
      Some (Errorf "serial: unsupported baud rate %v" [AInt 12345])
  ∧ (newTermios example_baudRates (with_DataBits 9 example_serial)).2 =
      Some (Errorf "serial: unsupported character size %v" [AInt 9])
  ∧ (newTermios example_baudRates (with_StopBits 3 example_serial)).2 =
      Some (Errorf "serial: unsupported stop bits %v" [AInt 3])
  ∧ (newTermios example_baudRates (with_Parity 5 example_serial)).2 =
      Some (Errorf "serial: unsupported parity %v" [AInt 5]).
Proof.
  split; [| split; [| split; [| split]]].
  - apply (proj1 (newTermios_supported_or_error example_baudRates
                    (with_StopBits 2 example_serial)) 0xd);
      [reflexivity | in_list | in_list | in_list].
  - apply (proj1 (proj2 (newTermios_supported_or_error example_baudRates
                    (with_BaudRate 12345 example_serial)))).
    reflexivity.
  - apply (proj1 (proj2 (proj2 (newTermios_supported_or_error example_baudRates
                    (with_DataBits 9 example_serial)))));
      [cbn; eauto | not_in_list].
  - apply (proj1 (proj2 (proj2 (proj2 (newTermios_supported_or_error example_baudRates
                    (with_StopBits 3 example_serial))))));
      [cbn; eauto | in_list | not_in_list].
  - apply (proj2 (proj2 (proj2 (proj2 (newTermios_supported_or_error example_baudRates
                    (with_Parity 5 example_serial))))));
      [cbn; eauto | in_list | in_list | not_in_list].
Defined.

(** ** UDP Write *)

(** C3, as stated, fails: with a three-byte buffer and a send that the
    kernel refuses, [Write] returns the full count 3 together with the
    error of the send. *)
Lemma udp_Write_full_count_with_failure :
  len [1; 2; 3] = 3
  ∧ udp.Write example_udp [1; 2; 3] (World [RErr ECONNREFUSED] []) =
      Returns (3, Some (Errno ECONNREFUSED))
        (World [] [SysSendto 3 [1; 2; 3] 0 (Some example_peer)]).
Proof. split; reflexivity. Qed.

(** C3, amended.  UDP [Write] hands the whole buffer to one send and
    always reports the requested length as its count; its error is the
    error of that send: nil when the send succeeds, and the send's error,
    next to the full count, when it fails. *)
Theorem udp_Write_count_and_error (p : udp.t) (b : list Z) :
  (∀ v rs tr,
     udp.Write p b (World (RVal v :: rs) tr) =
       Returns (len b, None) (World rs (tr ++ [SysSendto (udp.fd p) b 0 (udp.sockAddr p)])))
  ∧ (∀ e rs tr,
     udp.Write p b (World (RErr e :: rs) tr) =
       Returns (len b, Some (Errno e))
         (World rs (tr ++ [SysSendto (udp.fd p) b 0 (udp.sockAddr p)])))
  ∧ (∀ w n err w',
     udp.Write p b w = Returns (n, err) w' →
     n = len b
     ∧ (err = None ↔ ∃ v, head (script w) = Some (RVal v))
     ∧ trace w' = trace w ++ [SysSendto (udp.fd p) b 0 (udp.sockAddr p)]).
Proof.
  split; [| split]; [reflexivity | reflexivity |].
  intros [s tr] n err w'. unfold udp.Write, syscall_Sendto, err_call, sys, mbind, M_bind.
  cbn [script trace].
  destruct s as [| r rs]; [discriminate |].
  destruct r; cbn; try discriminate; intros [= <- <- <-]; cbn;
    (split; [reflexivity | split; [| reflexivity]]); split; eauto; try discriminate.
  intros [v [=]].
Qed.

Lemma udp_Write_count_and_error_witness :
  3 = len [1; 2; 3]
  ∧ (Some (Errno ECONNREFUSED) = None ↔ ∃ v, head [RErr ECONNREFUSED] = Some (RVal v))
  ∧ [SysSendto 3 [1; 2; 3] 0 (Some example_peer)] =
      [] ++ [SysSendto (udp.fd example_udp) [1; 2; 3] 0 (udp.sockAddr example_udp)].
Proof.
  apply (proj2 (proj2 (udp_Write_count_and_error example_udp [1; 2; 3]))
           (World [RErr ECONNREFUSED] []) 3 (Some (Errno ECONNREFUSED))
           (World [] [SysSendto 3 [1; 2; 3] 0 (Some example_peer)])).
  reflexivity.
Defined.

(** ** Reasoning about runs *)

Lemma bind_Returns {A B : Type} (m : M A) (f : A → M B) (w w' : world) (b : B) :
  (m ≫= f) w = Returns b w' →
  ∃ a w1, m w = Returns a w1 ∧ f a w1 = Returns b w'.
Proof.
  unfold mbind, M_bind. destruct (m w) as [a w1 | w1 |]; try discriminate. eauto.
Qed.

Lemma ret_Returns {A : Type} (a b : A) (w w' : world) :
  (mret a : M A) w = Returns b w' → a = b ∧ w = w'.
Proof. intros [= -> ->]. done. Qed.

Lemma sys_Returns (c : call) (w w' : world) (r : resp) :
  sys c w = Returns r w' →
  script w = r :: script w' ∧ trace w' = trace w ++ [c].
Proof.
  unfold sys. destruct (script w) as [| r0 rs]; [discriminate |]. by intros [= <- <-].
Qed.

Lemma int_call_Returns (c : call) (w w' : world) (v : Z) (err : option error) :
  int_call c w = Returns (v, err) w' →
  trace w' = trace w ++ [c]
  ∧ (err = None ∨ ∃ e, v = -1 ∧ err = Some (Errno e)).
Proof.
  intros H. apply bind_Returns in H as (r & w1 & Hs & H). apply sys_Returns in Hs as [_ Ht].
  destruct r; try discriminate; apply ret_Returns in H as [[= <- <-] <-]; eauto.
Qed.

Lemma err_call_Returns (c : call) (w w' : world) (err : option error) :
  err_call c w = Returns err w' →
  trace w' = trace w ++ [c]
  ∧ (err = None ∨ ∃ e, err = Some (Errno e)).
Proof.
  intros H. apply bind_Returns in H as (r & w1 & Hs & H). apply sys_Returns in Hs as [_ Ht].
  destruct r; try discriminate; apply ret_Returns in H as [[= <-] <-]; eauto.
Qed.

Lemma time_Now_Returns (w w' : world) (t : Z) :
  time_Now w = Returns t w' → script w = RNow t :: script w'.
Proof.
  intros H. apply bind_Returns in H as (r & w1 & Hs & H). apply sys_Returns in Hs as [Hs _].
  destruct r; try discriminate. by apply ret_Returns in H as [<- <-].
Qed.

Lemma Select_Returns (nfd : Z) (rd wr : option (list Z)) (tv : Timeval) (w w' : world)
    (n : Z) (ready : list Z) (err : option error) :
  syscall_Select nfd rd wr tv w = Returns (n, ready, err) w' →
  (err = None ∧ script w = RSel n ready :: script w')
  ∨ (∃ e, err = Some (Errno e) ∧ script w = RErr e :: script w').
Proof.
  intros H. apply bind_Returns in H as (r & w1 & Hs & H). apply sys_Returns in Hs as [Hs _].
  destruct r; try discriminate; apply ret_Returns in H as [[= <- <- <-] <-]; eauto.
Qed.

Lemma int_call_script (c : call) (w w' : world) (v : Z) (err : option error) :
  int_call c w = Returns (v, err) w' →
  (err = None ∧ script w = RVal v :: script w')
  ∨ (∃ e, v = -1 ∧ err = Some (Errno e) ∧ script w = RErr e :: script w').
Proof.
  intros H. apply bind_Returns in H as (r & w1 & Hs & H). apply sys_Returns in Hs as [Hs _].
  destruct r; try discriminate; apply ret_Returns in H as [[= <- <-] <-]; eauto.
Qed.

(** ** The fuel of the loops *)

(** Every turn of a loop takes an answer from the script, so any fuel
    beyond the length of the script gives the same run: an outcome
    [Stuck] never comes from the fuel. *)

Lemma sys_pops (c : call) (w w1 : world) (r : resp) :
  sys c w = Returns r w1 → length (script w) = S (length (script w1)).
Proof.
  unfold sys. destruct (script w) as [| r0 rs]; [discriminate |]. by intros [= <- <-].
Qed.

Lemma time_Now_pops (w w1 : world) (t : Z) :
  time_Now w = Returns t w1 → length (script w) = S (length (script w1)).
Proof.
  intros H. apply bind_Returns in H as (r & w' & Hs & H). apply sys_pops in Hs.
  destruct r; try discriminate. by apply ret_Returns in H as [_ <-].
Qed.

Lemma int_call_pops (c : call) (w w1 : world) (r : Z * option error) :
  int_call c w = Returns r w1 → length (script w) = S (length (script w1)).
Proof.
  intros H. apply bind_Returns in H as (r0 & w' & Hs & H). apply sys_pops in Hs.
  destruct r0; try discriminate; by apply ret_Returns in H as [_ <-].
Qed.

Lemma Select_pops (nfd : Z) (rd wr : option (list Z)) (tv : Timeval) (w w1 : world)
    (r : Z * list Z * option error) :
  syscall_Select nfd rd wr tv w = Returns r w1 → length (script w) = S (length (script w1)).
Proof.
  intros H. apply bind_Returns in H as (r0 & w' & Hs & H). apply sys_pops in Hs.
  destruct r0; try discriminate; by apply ret_Returns in H as [_ <-].
Qed.

Lemma bind_ext {A B : Type} (m : M A) (f g : A → M B) (w : world) :
  (∀ a w1, m w = Returns a w1 → f a w1 = g a w1) →
  (m ≫= f) w = (m ≫= g) w.
Proof. intros H. unfold mbind, M_bind. destruct (m w); auto. Qed.

Lemma bind_ext_both {A B : Type} (m1 m2 : M A) (f g : A → M B) (w : world) :
  m1 w = m2 w →
  (∀ a w1, m2 w = Returns a w1 → f a w1 = g a w1) →
  (m1 ≫= f) w = (m2 ≫= g) w.
Proof. intros Hm H. unfold mbind, M_bind. rewrite Hm. destruct (m2 w); auto. Qed.

Lemma Read_loop_fuel (p : serial.t) (b : list Z) (expireTime : Z) :
  ∀ (f1 f2 : nat) (n readLen : Z) (hasData : bool) (w : world),
    (length (script w) < f1)%nat →
    (length (script w) < f2)%nat →
    serial.Read_loop f1 p b expireTime n readLen hasData w =
    serial.Read_loop f2 p b expireTime n readLen hasData w.
Proof.
  induction f1 as [| f1 IH]; intros [| f2] n readLen hasData w H1 H2; try lia.
  cbn [serial.Read_loop].
  apply bind_ext. intros now w1 E1. apply time_Now_pops in E1.
  destruct (expireTime - now <=? 0); [reflexivity |]. cbn zeta.
  apply bind_ext. intros [[nFd rfds] err] w2 E2. apply Select_pops in E2.
  destruct err as [e |].
  { destruct (negb _); [reflexivity | apply IH; lia]. }
  destruct (_ || _); [reflexivity |].
  destruct (slice_from b readLen) as [rest |]; [| reflexivity].
  apply bind_ext. intros [n1 err1] w3 E3. apply int_call_pops in E3.
  destruct err1 as [e |].
  { destruct (negb _); [reflexivity | apply IH; lia]. }
  destruct (0 <? n1); [apply IH; lia | reflexivity].
Qed.

Lemma Write_wait_fuel (p : serial.t) (expireTime : Z) :
  ∀ (f1 f2 : nat) (w : world),
    (length (script w) < f1)%nat →
    (length (script w) < f2)%nat →
    serial.Write_wait f1 p expireTime w = serial.Write_wait f2 p expireTime w.
Proof.
  induction f1 as [| f1 IH]; intros [| f2] w H1 H2; try lia.
  cbn [serial.Write_wait].
  apply bind_ext. intros now w1 E1. apply time_Now_pops in E1.
  destruct (expireTime - now <=? 0); [reflexivity |]. cbn zeta.
  apply bind_ext. intros [[nFd wfds] err] w2 E2. apply Select_pops in E2.
  destruct err as [e |]; [| reflexivity].
  destruct (negb _); [reflexivity | apply IH; lia].
Qed.

Lemma Write_wait_pops (p : serial.t) (expireTime : Z) :
  ∀ (f : nat) (w w1 : world) (r : option error),
    serial.Write_wait f p expireTime w = Returns r w1 →
    (length (script w1) < length (script w))%nat.
Proof.
  induction f as [| f IH]; intros w w1 r H; [discriminate |].
  cbn [serial.Write_wait] in H.
  apply bind_Returns in H as (now & w' & E1 & H). apply time_Now_pops in E1.
  destruct (expireTime - now <=? 0); [apply ret_Returns in H as [_ <-]; lia |].
  apply bind_Returns in H as ([[nFd wfds] err] & w2 & E2 & H). apply Select_pops in E2.
  cbn beta iota in H. destruct err as [e |].
  - destruct (negb _); [apply ret_Returns in H as [_ <-]; lia |].
    apply IH in H. lia.
  - destruct (_ || _); apply ret_Returns in H as [_ <-]; lia.
Qed.

Lemma Write_loop_fuel (p : serial.t) (b : list Z) (expireTime : Z) :
  ∀ (f1 f2 : nat) (writeLen : Z) (w : world),
    (length (script w) < f1)%nat →
    (length (script w) < f2)%nat →
    serial.Write_loop f1 p b expireTime writeLen w =
    serial.Write_loop f2 p b expireTime writeLen w.
Proof.
  induction f1 as [| f1 IH]; intros [| f2] writeLen w H1 H2; try lia.
  cbn [serial.Write_loop].
  destruct (slice_from b writeLen) as [rest |]; [| reflexivity].
  apply bind_ext. intros [n err] w1 E1. apply int_call_pops in E1.
  destruct (is_nil err || is_errno err EINTR); [| reflexivity].
  destruct (_ =? _); [reflexivity |]. destruct (_ <? _); [reflexivity |].
  apply bind_ext_both; [apply Write_wait_fuel; lia |].
  intros [e |] w2 E2; [reflexivity |].
  apply Write_wait_pops in E2. apply IH; lia.
Qed.

Lemma Open_fuel_fuel (baudRates : Z → option Z) (c : SerialConfig.t) :
  ∀ (f1 f2 : nat) (p : serial.t) (w : world),
    (length (script w) < f1)%nat →
    (length (script w) < f2)%nat →
    serial.Open_fuel baudRates f1 c p w = serial.Open_fuel baudRates f2 c p w.
Proof.
  induction f1 as [| f1 IH]; intros [| f2] p w H1 H2; try lia.
  cbn [serial.Open_fuel].
  apply bind_ext. intros [fd err] w1 E1. apply int_call_pops in E1.
  destruct err as [e |]; [| reflexivity].
  destruct (is_errno (Some e) EINTR); [| reflexivity].
  apply bind_ext_both; [apply IH; lia | reflexivity].
Qed.

(** ** The socket-address accessor of the Unix transport *)

(** C10 (the code as it is).  [unixsocket.SockAddr] calls itself without
    end: whatever depth of calls is allowed, it has not returned, so it
    never hands back the stored socket address. *)
Theorem unixsocket_SockAddr_never_returns :
  ∀ (fuel : nat) (p : unixsocket.t), unixsocket.SockAddr fuel p = None.
Proof. induction fuel as [| fuel IH]; intros p; [reflexivity | apply IH]. Qed.

(** The accessors of the TCP and UDP transports return the stored field. *)
Lemma tcp_udp_SockAddr_stored (t : tcp.t) (u : udp.t) :
  tcp.SockAddr t = tcp.sockAddr t ∧ udp.SockAddr u = udp.sockAddr u.
Proof. split; reflexivity. Qed.

(** ** TCP keep-alive *)

Lemma setKeepAlive_nonpositive (fd : Z) (d : Duration) (w : world) :
  d ≤ 0 → setKeepAlive fd d w = Returns (Some (ErrorString "invalid time duration")) w.
Proof. intros H. unfold setKeepAlive. apply Z.leb_le in H. rewrite H. reflexivity. Qed.

(** With a keep-alive duration that is not positive, no run of TCP [Open]
    returns without an error. *)
Lemma tcp_Open_nonpositive_keepalive_fails (c : TCPConfig.t) (p p' : tcp.t)
    (err : option error) (w w' : world) :
  TCPConfig.KeepAlive c ≤ 0 →
  tcp.Open c p w = Returns (p', err) w' →
  err ≠ None.
Proof.
  intros Hk H. unfold tcp.Open in H.
  apply bind_Returns in H as ([[[sa family] na] e0] & w1 & _ & H). cbn beta iota zeta in H.
  destruct (negb (is_nil e0)); [by apply ret_Returns in H as [[= <- <-] _] |].
  apply bind_Returns in H as ([s e1] & w2 & _ & H). cbn beta iota zeta in H.
  destruct e1; [by apply ret_Returns in H as [[= <- <-] _] |].
  apply bind_Returns in H as (e2 & w3 & _ & H).
  destruct e2.
  { apply bind_Returns in H as (? & w4 & _ & H). by apply ret_Returns in H as [[= <- <-] _]. }
  apply bind_Returns in H as (e3 & w4 & Hka & H).
  rewrite setKeepAlive_nonpositive in Hka by done. injection Hka as <- <-.
  apply bind_Returns in H as (? & w5 & _ & H). by apply ret_Returns in H as [[= <- <-] _].
Qed.

(** C8 (the code as it is).  TCP [Open] with keep-alive duration 0, in a
    run where the address resolves, the socket is created and no-delay is
    set: [setKeepAlive] refuses the duration, the socket is closed and
    [Open] fails. *)
Theorem tcp_Open_keepalive_zero_fails :
  TCPConfig.KeepAlive example_tcp_config = 0
  ∧ tcp.Open example_tcp_config tcp.newTCP
      (World [RIPAddr example_ip; RVal 3; RVal 0; RVal 0] []) =
    Returns
      (tcp.mk 3 (Some example_ip) (Some (SockaddrInet4 9000 [127; 0; 0; 1])) 0 0,
       Some (Errorf "tcp: setKeepAlive: %v" [AErr (ErrorString "invalid time duration")]))
      (World []
         [NetResolveTCPAddr "tcp" "127.0.0.1:9000";
          SysSocket AF_INET (Z.lor (Z.lor SOCK_STREAM SOCK_NONBLOCK) SOCK_CLOEXEC) IPPROTO_TCP;
          SysSetsockoptInt 3 IPPROTO_TCP TCP_NODELAY 1;
          SysClose 3]).
Proof. split; reflexivity. Qed.

(** ** Serial Open *)

(** C9 (the code as it is).  When the device open is interrupted, [Open]
    does call itself again, but it drops what that call returns: the
    endpoint is left as the second attempt leaves it, and the caller is
    handed the interrupted-call error, whatever the second attempt
    returned.  In the run below the second attempt opens descriptor 3 and
    configures it, and [Open] still returns [EINTR]. *)
Theorem serial_Open_interrupted_returns_EINTR :
  (∀ (baudRates : Z → option Z) (c : SerialConfig.t) (p : serial.t)
     (rs : list resp) (tr : list call),
     serial.Open baudRates c p (World (RErr EINTR :: rs) tr) =
       (r ← serial.Open baudRates c (opened c (-1) p);
        mret (r.1, Some (Errno EINTR)))
         (World rs (tr ++ [SysOpen (SerialConfig.Address c) open_flags 0x1b6])))
  ∧ serial.Open example_baudRates example_serial serial.newSerial
      (World [RErr EINTR; RVal 3; RTermios Termios_zero; RVal 0] []) =
    Returns
      (serial.mk 3 "/dev/ttyS0" (Some Termios_zero) (5000 * Millisecond) (1000 * Millisecond),
       Some (Errno EINTR))
      (World []
         [SysOpen "/dev/ttyS0" open_flags 0x1b6;
          SysOpen "/dev/ttyS0" open_flags 0x1b6;
          SysTcgetattr 3;
          SysTcsetattr 3 (mkTermios 0 0 0x8bd 0 0 (replicate 32 0) 0xd 0xd)]).
Proof.
  split; [| reflexivity].
  intros baudRates c p rs tr. unfold serial.Open, mbind at 1, M_bind at 1.
  cbn [script length]. generalize (S (length rs)). intros fuel.
  change (serial.Open_fuel baudRates (S fuel) c p (World (RErr EINTR :: rs) tr))
    with ((r ← serial.Open_fuel baudRates fuel c (opened c (-1) p);
           let '(p, _) := r in mret (p, Some (Errno EINTR)))
            (World rs (tr ++ [SysOpen (SerialConfig.Address c) open_flags 0x1b6]))).
  unfold mbind, M_bind.
  destruct (serial.Open_fuel _ _ _ _ _) as [[p' e'] w' | w' |]; reflexivity.
Qed.

(** Unfold one call of [Open], whatever fuel is left for the next. *)
Ltac one_Open :=
  match goal with
  | |- serial.Open_fuel _ (S ?n) _ _ _ = _ => generalize n; intros ?fuel
  end.

(** C4 (the code as it is).  When the device has been opened and
    [newTermios] refuses the configuration, [Open] returns the error at
    once: the endpoint keeps the descriptor just obtained, and the only
    call made is the device open, so the descriptor is not released.  In
    the run below the stop-bit count 3 is refused after descriptor 3 was
    opened. *)
Theorem serial_Open_newTermios_failure_keeps_descriptor :
  (∀ (baudRates : Z → option Z) (c : SerialConfig.t) (p : serial.t) (e : error)
     (fd : Z) (rs : list resp) (tr : list call),
     (newTermios baudRates c).2 = Some e →
     serial.Open baudRates c p (World (RVal fd :: rs) tr) =
       Returns (opened c fd p, Some e)
         (World rs (tr ++ [SysOpen (SerialConfig.Address c) open_flags 0x1b6])))
  ∧ serial.Open example_baudRates (with_StopBits 3 example_serial) serial.newSerial
      (World [RVal 3] []) =
    Returns
      (serial.mk 3 "/dev/ttyS0" None 0 0,
       Some (Errorf "serial: unsupported stop bits %v" [AInt 3]))
      (World [] [SysOpen "/dev/ttyS0" open_flags 0x1b6]).
Proof.
  split; [| reflexivity].
  intros baudRates c p e fd rs tr He. unfold serial.Open. cbn [script length].
  one_Open. cbn -[newTermios].
  destruct (newTermios baudRates c) as [t err]. cbn in He. subst err. reflexivity.
Qed.

Lemma serial_Open_newTermios_failure_keeps_descriptor_witness :
  serial.Open example_baudRates (with_DataBits 9 example_serial) serial.newSerial
    (World [RVal 3] []) =
  Returns
    (opened (with_DataBits 9 example_serial) 3 serial.newSerial,
     Some (Errorf "serial: unsupported character size %v" [AInt 9]))
    (World [] ([] ++ [SysOpen "/dev/ttyS0" open_flags 0x1b6])).
Proof.
  apply (proj1 serial_Open_newTermios_failure_keeps_descriptor example_baudRates
           (with_DataBits 9 example_serial) serial.newSerial
           (Errorf "serial: unsupported character size %v" [AInt 9]) 3 [] []).
  reflexivity.
Defined.

(** The two later failures of [Open] do release the descriptor: when the
    attributes cannot be applied, and when the RS-485 ioctl fails. *)
Lemma serial_Open_setTermios_failure_releases (baudRates : Z → option Z)
    (c : SerialConfig.t) (p : serial.t) (t old : Termios) (fd e v : Z)
    (rs : list resp) (tr : list call) :
  newTermios baudRates c = (t, None) →
  serial.Open baudRates c p (World (RVal fd :: RTermios old :: RErr e :: RVal v :: rs) tr) =
    Returns
      (serial.with_oldTermios None (opened c (-1) p),
       Some (Errorf "serial: could not set setting: %v" [AErr (Errno e)]))
      (World rs (tr ++ [SysOpen (SerialConfig.Address c) open_flags 0x1b6;
                        SysTcgetattr fd; SysTcsetattr fd t; SysClose fd])).
Proof.
  intros Ht. unfold serial.Open. cbn [script length].
  one_Open. cbn -[newTermios]. rewrite Ht. cbn. rewrite <- !app_assoc. reflexivity.
Qed.

Lemma serial_Open_rs485_failure_releases :
  serial.Open example_baudRates (with_RS485 rs485_on example_serial) serial.newSerial
    (World [RVal 3; RTermios Termios_zero; RVal 0; RErr EINVAL; RVal 0; RVal 0] []) =
  Returns
    (serial.mk (-1) "/dev/ttyS0" None 0 0,
     Some (SyscallError "SYS_IOCTL (RS485)" (Errno EINVAL)))
    (World []
       [SysOpen "/dev/ttyS0" open_flags 0x1b6;
        SysTcgetattr 3;
        SysTcsetattr 3 (mkTermios 0 0 0x8bd 0 0 (replicate 32 0) 0xd 0xd);
        SysIoctl 3 rs485Tiocs [3; 0; 0; 0; 0; 0; 0; 0];
        SysTcsetattr 3 Termios_zero;
        SysClose 3]).
Proof. reflexivity. Qed.

(** ** Close *)

(** Serial [Close] clears the descriptor, and a second [Close] makes no
    call and returns nil. *)
Lemma serial_Close_clears (p p' : serial.t) (err : option error) (w w' : world) :
  serial.Close p w = Returns (p', err) w' →
  serial.fd p' = -1 ∧ serial.Close p' w' = Returns (p', None) w'.
Proof.
  unfold serial.Close. destruct (Z.eqb_spec (serial.fd p) (-1)) as [E | _].
  - intros H. apply ret_Returns in H as [[= <- <-] <-]. rewrite E. done.
  - intros H. apply bind_Returns in H as (p1 & w1 & _ & H).
    apply bind_Returns in H as (e1 & w2 & _ & H).
    apply ret_Returns in H as [[= <- <-] <-]. done.
Qed.

(** One [Close] of an endpoint that is not a serial one. *)
Lemma EndPoint_Close_keeps (p : EndPoint) (r : resp) (rs : list resp) (tr : list call) :
  EndPoint_Type p ≠ EndPointSerial →
  EndPoint_Fd p ≠ -1 →
  is_answer r →
  EndPoint_Close p (World (r :: rs) tr) =
    Returns (p, None) (World rs (tr ++ [SysClose (EndPoint_Fd p)])).
Proof.
  intros Hty Hfd [v Hr].
  destruct p as [p | p | p | p]; [done | | |];
    unfold EndPoint_Fd, tcp.Fd, udp.Fd, unixsocket.Fd in *;
    apply Z.eqb_neq in Hfd;
    unfold EndPoint_Close, tcp.Close, udp.Close, unixsocket.Close;
    rewrite Hfd; destruct Hr as [-> | ->]; reflexivity.
Qed.

(** C5 (the code as it is).  [Close] of a TCP, UDP or Unix endpoint that
    holds a descriptor closes it and leaves the endpoint as it was: the
    descriptor is not cleared, so a second [Close] closes the same number
    again.  In the run below a TCP endpoint on descriptor 5 is closed
    twice and then read: all three calls go to descriptor 5. *)
Theorem Close_keeps_descriptor :
  (∀ (p : EndPoint) (r1 r2 : resp) (rs : list resp) (tr : list call),
     EndPoint_Type p ≠ EndPointSerial →
     EndPoint_Fd p ≠ -1 →
     is_answer r1 → is_answer r2 →
     (x ← EndPoint_Close p; y ← EndPoint_Close x.1; mret (x, y))
       (World (r1 :: r2 :: rs) tr) =
     Returns ((p, None), (p, None))
       (World rs (tr ++ [SysClose (EndPoint_Fd p); SysClose (EndPoint_Fd p)])))
  ∧ (x ← tcp.Close example_tcp; y ← tcp.Close x.1; z ← tcp.Read y.1 [0; 0; 0; 0];
     mret (x, y, z))
      (World [RVal 0; RErr EBADF; RErr EBADF] []) =
    Returns ((example_tcp, None), (example_tcp, None), (-1, Some (Errno EBADF)))
      (World [] [SysClose 5; SysClose 5; SysRead 5 4]).
Proof.
  split; [| reflexivity].
  intros p r1 r2 rs tr Hty Hfd H1 H2.
  unfold mbind at 1, M_bind at 1. rewrite EndPoint_Close_keeps by done.
  cbn [fst]. unfold mbind, M_bind. rewrite EndPoint_Close_keeps by done.
  cbn. rewrite <- app_assoc. reflexivity.
Qed.

Lemma Close_keeps_descriptor_witness :
  (x ← EndPoint_Close (EpTCP example_tcp); y ← EndPoint_Close x.1; mret (x, y))
    (World [RVal 0; RErr EBADF] []) =
  Returns ((EpTCP example_tcp, None), (EpTCP example_tcp, None))
    (World [] ([] ++ [SysClose 5; SysClose 5])).
Proof.
  apply (proj1 Close_keeps_descriptor (EpTCP example_tcp) (RVal 0) (RErr EBADF) [] []).
  - discriminate.
  - discriminate.
  - exists 0. left. reflexivity.
  - exists EBADF. right. reflexivity.
Defined.

(** ** Serial Read *)

Lemma no_readiness_test (fd nFd : Z) (rfds : list Z) :
  no_readiness fd nFd rfds ↔ (nFd =? 0) || negb (fdisset fd rfds) = true.
Proof.
  unfold no_readiness, fdisset. rewrite orb_true_iff, Z.eqb_eq, negb_true_iff.
  rewrite bool_decide_eq_false. done.
Qed.

Lemma bytes_read_nonneg expireTime fd blen readLen ts :
  turns_ok expireTime fd blen readLen ts → 0 ≤ bytes_read ts.
Proof.
  revert readLen. induction ts as [| [now | now nFd rfds | now nFd rfds n] ts IH];
    intros readLen H; cbn in *; [lia | | |]; destruct_and?; try (eapply IH; eassumption).
  assert (0 ≤ bytes_read ts) by (eapply IH; eassumption). lia.
Qed.

Lemma slice_from_in_range (b : list Z) (k : Z) :
  0 ≤ k → k ≤ len b → slice_from b k = Some (drop (Z.to_nat k) b).
Proof.
  intros H0 H1. unfold slice_from, len in *.
  destruct (Z.leb_spec 0 k); [| lia]. destruct (Z.leb_spec k (Z.of_nat (length b))); [| lia].
  reflexivity.
Qed.

Lemma Read_loop_turns (p : serial.t) (b : list Z) (expireTime : Z) (ts : list read_turn) :
  ∀ (fuel : nat) (n readLen : Z) (hasData : bool) (now nFd : Z) (rfds : list Z)
    (rs : list resp) (tr : list call),
    (length (turns_script ts) + 2 + length rs < fuel)%nat →
    0 ≤ readLen →
    turns_ok expireTime (serial.fd p) (len b) readLen ts →
    now < expireTime →
    no_readiness (serial.fd p) nFd rfds →
    ∃ n' tr',
      serial.Read_loop fuel p b expireTime n readLen hasData
        (World (turns_script ts ++ RNow now :: RSel nFd rfds :: rs) tr) =
      Returns
        (if hasData || (0 <? bytes_read ts)
         then (readLen + bytes_read ts, None)
         else (n', Some (serial.timeout_error (serial.readTimeout p))))
        (World rs tr').
Proof.
  induction ts as [| t ts IH]; intros fuel n readLen hasData now nFd rfds rs tr Hf H0 Hok Hnow Hno.
  - destruct fuel as [| fuel]; [cbn in Hf; lia |].
    apply no_readiness_test in Hno.
    assert ((expireTime - now <=? 0) = false) as Hd by (apply Z.leb_gt; lia).
    cbn. rewrite Hd. cbn. rewrite Hno, orb_false_r, Z.add_0_r.
    destruct hasData; cbn; eauto.
  - destruct fuel as [| fuel]; [cbn in Hf; lia |].
    unfold turns_script in *. cbn [map concat] in *. rewrite <- app_assoc.
    rewrite length_app in Hf.
    destruct t as [t0 | t0 nFd0 rfds0 | t0 nFd0 rfds0 k]; cbn [turns_ok] in Hok;
      destruct_and?;
      match goal with H : t0 < expireTime |- _ =>
        assert ((expireTime - t0 <=? 0) = false) as Hd by (apply Z.leb_gt; lia) end.
    + cbn -[slice_from]. rewrite Hd. cbn -[slice_from].
      eapply IH; eauto. cbn in Hf. lia.
    + match goal with H : ¬ no_readiness _ _ _ |- _ =>
        rewrite no_readiness_test in H; apply not_true_is_false in H; rename H into Hrdy end.
      cbn -[slice_from]. rewrite Hd. cbn -[slice_from].
      rewrite Hrdy, slice_from_in_range by done. cbn -[slice_from].
      eapply IH; eauto. cbn in Hf. lia.
    + match goal with H : ¬ no_readiness _ _ _ |- _ =>
        rewrite no_readiness_test in H; apply not_true_is_false in H; rename H into Hrdy end.
      cbn -[slice_from]. rewrite Hd. cbn -[slice_from].
      rewrite Hrdy, slice_from_in_range by done. cbn -[slice_from].
      assert ((0 <? k) = true) as -> by (apply Z.ltb_lt; lia).
      assert (0 ≤ bytes_read ts) by (eapply bytes_read_nonneg; eassumption).
      assert ((0 <? k + bytes_read ts) = true) as -> by (apply Z.ltb_lt; lia).
      rewrite orb_true_r.
      edestruct (IH fuel k (readLen + k) true now nFd rfds rs) as (n' & tr' & ->);
        eauto; [cbn in Hf; lia | lia |].
      cbn. rewrite Z.add_assoc. eauto.
Qed.

(** A run of the loop that returns without an error returns a positive
    count. *)
Lemma Read_loop_success_positive (p : serial.t) (b : list Z) (expireTime : Z) :
  ∀ (fuel : nat) (n0 readLen : Z) (hasData : bool) (w w' : world) (n : Z),
    0 ≤ readLen →
    (hasData = true → 0 < readLen) →
    serial.Read_loop fuel p b expireTime n0 readLen hasData w = Returns (n, None) w' →
    0 < n.
Proof.
  induction fuel as [| fuel IH]; intros n0 readLen hasData w w' n H0 Hh H; [discriminate |].
  cbn [serial.Read_loop] in H.
  apply bind_Returns in H as (now & w1 & _ & H).
  destruct (expireTime - now <=? 0); [by apply ret_Returns in H as [[=] _] |].
  apply bind_Returns in H as ([[nFd rfds] err] & w2 & _ & H). cbn beta iota in H.
  destruct err as [e |].
  - destruct (negb (is_errno (Some e) EINTR)); [by apply ret_Returns in H as [[=] _] |].
    eapply IH; eauto.
  - destruct ((nFd =? 0) || negb (fdisset (serial.fd p) rfds)).
    + destruct hasData; [| by apply ret_Returns in H as [[=] _]].
      apply ret_Returns in H as [[= <-] _]. auto.
    + destruct (slice_from b readLen) as [rest |]; [| discriminate].
      apply bind_Returns in H as ([n1 err1] & w3 & _ & H). cbn beta iota in H.
      destruct err1 as [e |].
      * destruct (negb (is_errno (Some e) EINTR)); [by apply ret_Returns in H as [[=] _] |].
        eapply IH; eauto.
      * destruct (Z.ltb_spec 0 n1); [| by apply ret_Returns in H as [[=] _]].
        eapply (IH n1 (readLen + n1) true); eauto; lia.
Qed.

(** The loop of [Read] after a sequence of turns that go round again: it
    stands at the top of the next turn with the count of the last read,
    the bytes accumulated, and the script that is left. *)
Lemma Read_loop_advance (p : serial.t) (b : list Z) (expireTime : Z) (ts : list read_turn) :
  ∀ (fuel : nat) (n readLen : Z) (hasData : bool) (rest : list resp) (tr : list call),
    (length (turns_script ts ++ rest) < fuel)%nat →
    0 ≤ readLen →
    turns_ok expireTime (serial.fd p) (len b) readLen ts →
    ∃ fuel' tr',
      (length rest < fuel')%nat
      ∧ serial.Read_loop fuel p b expireTime n readLen hasData
          (World (turns_script ts ++ rest) tr) =
        serial.Read_loop fuel' p b expireTime (last_count n ts) (readLen + bytes_read ts)
          (hasData || (0 <? bytes_read ts)) (World rest tr').
Proof.
  induction ts as [| t ts IH]; intros fuel n readLen hasData rest tr Hf H0 Hok.
  - exists fuel, tr. cbn. rewrite Z.add_0_r, orb_false_r. done.
  - destruct fuel as [| fuel]; [cbn in Hf; lia |].
    unfold turns_script in *. cbn [map concat] in *. rewrite <- app_assoc.
    rewrite <- app_assoc, length_app in Hf.
    destruct t as [t0 | t0 nFd0 rfds0 | t0 nFd0 rfds0 k]; cbn [turns_ok] in Hok;
      destruct_and?;
      match goal with H : t0 < expireTime |- _ =>
        assert ((expireTime - t0 <=? 0) = false) as Hd by (apply Z.leb_gt; lia) end.
    + cbn -[slice_from]. rewrite Hd. cbn -[slice_from].
      eapply IH; eauto. cbn in Hf. lia.
    + match goal with H : ¬ no_readiness _ _ _ |- _ =>
        rewrite no_readiness_test in H; apply not_true_is_false in H; rename H into Hrdy end.
      cbn -[slice_from]. rewrite Hd. cbn -[slice_from].
      rewrite Hrdy, slice_from_in_range by done. cbn -[slice_from].
      eapply IH; eauto. cbn in Hf. lia.
    + match goal with H : ¬ no_readiness _ _ _ |- _ =>
        rewrite no_readiness_test in H; apply not_true_is_false in H; rename H into Hrdy end.
      cbn -[slice_from]. rewrite Hd. cbn -[slice_from].
      rewrite Hrdy, slice_from_in_range by done. cbn -[slice_from].
      assert ((0 <? k) = true) as -> by (apply Z.ltb_lt; lia).
      assert (0 ≤ bytes_read ts) by (eapply bytes_read_nonneg; eassumption).
      assert ((0 <? k + bytes_read ts) = true) as -> by (apply Z.ltb_lt; lia).
      rewrite orb_true_r.
      edestruct (IH fuel k (readLen + k) true rest) as (fuel' & tr' & Hf' & ->);
        eauto; [cbn in Hf; lia | lia |].
      cbn. rewrite Z.add_assoc. eauto.
Qed.

Lemma Read_advance (p : serial.t) (b : list Z) (t0 : Z) (ts : list read_turn)
    (rest : list resp) (tr : list call) :
  turns_ok (t0 + serial.readTimeout p) (serial.fd p) (len b) 0 ts →
  ∃ fuel' tr',
    (length rest < fuel')%nat
    ∧ serial.Read p b (World (RNow t0 :: turns_script ts ++ rest) tr) =
      serial.Read_loop fuel' p b (t0 + serial.readTimeout p) (last_count 0 ts)
        (bytes_read ts) (0 <? bytes_read ts) (World rest tr').
Proof.
  intros Hok. unfold serial.Read. cbn -[serial.Read_loop].
  edestruct (Read_loop_advance p b (t0 + serial.readTimeout p) ts
               (S (length (turns_script ts ++ rest))) 0 0 false rest (tr ++ [TimeNow]))
    as (fuel' & tr' & Hf' & ->); eauto; lia.
Qed.

(** A run of the loop that returns without an error is made of turns that
    go round again and of a wait that, before the deadline, reports no
    readiness; the count is the bytes accumulated, and there are some. *)
Lemma Read_loop_success_run (p : serial.t) (b : list Z) (expireTime : Z) :
  ∀ (fuel : nat) (n0 readLen : Z) (hasData : bool) (w w' : world) (n : Z),
    0 ≤ readLen →
    serial.Read_loop fuel p b expireTime n0 readLen hasData w = Returns (n, None) w' →
    ∃ ts now nFd rfds,
      script w = turns_script ts ++ RNow now :: RSel nFd rfds :: script w'
      ∧ turns_ok expireTime (serial.fd p) (len b) readLen ts
      ∧ now < expireTime
      ∧ no_readiness (serial.fd p) nFd rfds
      ∧ n = readLen + bytes_read ts
      ∧ hasData || (0 <? bytes_read ts) = true.
Proof.
  induction fuel as [| fuel IH]; intros n0 readLen hasData w w' n H0 H; [discriminate |].
  cbn [serial.Read_loop] in H.
  apply bind_Returns in H as (now & w1 & E1 & H). apply time_Now_Returns in E1.
  destruct (Z.leb_spec (expireTime - now) 0) as [Hd | Hd];
    [by apply ret_Returns in H as [[=] _] |].
  apply bind_Returns in H as ([[nFd rfds] err] & w2 & E2 & H). cbn beta iota in H.
  apply Select_Returns in E2 as [[-> E2] | (e & -> & E2)].
  - destruct ((nFd =? 0) || negb (fdisset (serial.fd p) rfds)) eqn:Hr.
    + destruct hasData; [| by apply ret_Returns in H as [[=] _]].
      apply ret_Returns in H as [[= <-] <-]. exists [], now, nFd, rfds.
      rewrite E1, E2. cbn. rewrite no_readiness_test. repeat split; [lia | done | lia].
    + assert (¬ no_readiness (serial.fd p) nFd rfds) as Hrdy.
      { rewrite no_readiness_test, Hr. discriminate. }
      destruct (slice_from b readLen) as [rest |] eqn:Hsl; [| discriminate].
      assert (readLen ≤ len b) as Hlen.
      { unfold slice_from in Hsl. destruct (Z.leb_spec readLen (Z.of_nat (length b)));
          [done | by rewrite andb_false_r in Hsl]. }
      apply bind_Returns in H as ([n1 err1] & w3 & E3 & H). cbn beta iota in H.
      apply int_call_script in E3 as [[-> E3] | (e & -> & -> & E3)].
      * destruct (Z.ltb_spec 0 n1); [| by apply ret_Returns in H as [[=] _]].
        apply IH in H as (ts & now' & nFd' & rfds' & Hs & Hok & Hnow & Hno & Hn & Hb); [| lia].
        exists (ReadBytes now nFd rfds n1 :: ts), now', nFd', rfds'.
        assert (0 ≤ bytes_read ts) by (eapply bytes_read_nonneg; eassumption).
        rewrite E1, E2, E3, Hs. cbn.
        assert ((0 <? n1 + bytes_read ts) = true) as Hpos by (apply Z.ltb_lt; lia).
        rewrite Hpos, orb_true_r. repeat split; try done; lia.
      * cbn [is_errno] in H. destruct (Z.eqb_spec e EINTR) as [-> | He]; cbn [negb] in H;
          [| by apply ret_Returns in H as [[=] _]].
        apply IH in H as (ts & now' & nFd' & rfds' & Hs & Hok & Hnow & Hno & Hn & Hb); [| lia].
        exists (ReadInterrupted now nFd rfds :: ts), now', nFd', rfds'.
        rewrite E1, E2, E3, Hs. cbn. repeat split; try done; lia.
  - cbn [is_errno] in H. destruct (Z.eqb_spec e EINTR) as [-> | He]; cbn [negb] in H;
      [| by apply ret_Returns in H as [[=] _]].
    apply IH in H as (ts & now' & nFd' & rfds' & Hs & Hok & Hnow & Hno & Hn & Hb); [| lia].
    exists (WaitInterrupted now :: ts), now', nFd', rfds'.
    rewrite E1, E2, Hs. cbn. repeat split; try done; lia.
Qed.

(** C1. Serial [Read], in a run where the loop goes round any number of
    times (interrupted waits, interrupted reads, reads that bring bytes)
    and then the wait, before the deadline, reports no readiness: if
    bytes have been accumulated in this call, [Read] returns their count
    and no error; if none has, it returns a timeout error.  When instead
    the clock has reached the deadline at the top of a turn, [Read]
    returns the timeout error, in particular when no byte has arrived.
    And whatever the run, [Read] returns without an error only after a
    wait that reported no readiness before the deadline, and with the
    count of the bytes accumulated, which is positive: a timeout before
    any byte has arrived is always an error. *)
Theorem serial_Read_no_readiness (p : serial.t) (b : list Z) :
  (∀ (t0 : Z) (ts : list read_turn) (now nFd : Z) (rfds : list Z)
     (rs : list resp) (tr : list call),
     turns_ok (t0 + serial.readTimeout p) (serial.fd p) (len b) 0 ts →
     now < t0 + serial.readTimeout p →
     no_readiness (serial.fd p) nFd rfds →
     ∃ tr',
       serial.Read p b
         (World (RNow t0 :: turns_script ts ++ RNow now :: RSel nFd rfds :: rs) tr) =
       Returns
         (if 0 <? bytes_read ts
          then (bytes_read ts, None)
          else (last_count 0 ts, Some (serial.timeout_error (serial.readTimeout p))))
         (World rs tr'))
  ∧ (∀ (t0 : Z) (ts : list read_turn) (now : Z) (rs : list resp) (tr : list call),
     turns_ok (t0 + serial.readTimeout p) (serial.fd p) (len b) 0 ts →
     t0 + serial.readTimeout p ≤ now →
     ∃ tr',
       serial.Read p b (World (RNow t0 :: turns_script ts ++ RNow now :: rs) tr) =
       Returns (last_count 0 ts, Some (serial.timeout_error (serial.readTimeout p)))
         (World rs tr'))
  ∧ (∀ (w w' : world) (n : Z),
     serial.Read p b w = Returns (n, None) w' →
     0 < n
     ∧ ∃ t0 ts now nFd rfds,
         script w = RNow t0 :: turns_script ts ++ RNow now :: RSel nFd rfds :: script w'
         ∧ turns_ok (t0 + serial.readTimeout p) (serial.fd p) (len b) 0 ts
         ∧ now < t0 + serial.readTimeout p
         ∧ no_readiness (serial.fd p) nFd rfds
         ∧ n = bytes_read ts).
Proof.
  split; [| split].
  - intros t0 ts now nFd rfds rs tr Hok Hnow Hno.
    destruct (Read_advance p b t0 ts (RNow now :: RSel nFd rfds :: rs) tr Hok)
      as (fuel' & tr' & Hf' & ->).
    destruct fuel' as [| fuel']; [cbn in Hf'; lia |].
    assert ((t0 + serial.readTimeout p - now <=? 0) = false) as Hd by (apply Z.leb_gt; lia).
    apply no_readiness_test in Hno.
    cbn. rewrite Hd. cbn. rewrite Hno.
    destruct (0 <? bytes_read ts); cbn; eauto.
  - intros t0 ts now rs tr Hok Hnow.
    destruct (Read_advance p b t0 ts (RNow now :: rs) tr Hok) as (fuel' & tr' & Hf' & ->).
    destruct fuel' as [| fuel']; [cbn in Hf'; lia |].
    assert ((t0 + serial.readTimeout p - now <=? 0) = true) as Hd by (apply Z.leb_le; lia).
    cbn. rewrite Hd. cbn. eauto.
  - intros w w' n H. unfold serial.Read in H.
    apply bind_Returns in H as (t0 & w1 & E1 & H). apply time_Now_Returns in E1.
    apply Read_loop_success_run in H
      as (ts & now & nFd & rfds & Hs & Hok & Hnow & Hno & Hn & Hb); [| lia].
    cbn in Hn, Hb. apply Z.ltb_lt in Hb. split; [lia |].
    exists t0, ts, now, nFd, rfds. rewrite E1, Hs. done.
Qed.

(** Three bytes arrive in one read, then the wait runs into the deadline:
    [Read] returns the three bytes. *)
Lemma serial_Read_no_readiness_witness :
  ∃ tr',
    serial.Read example_port (replicate 10 0)
      (World (RNow 0 :: turns_script [WaitInterrupted 1000; ReadBytes 2000 1 [3] 3]
                ++ RNow 3000 :: RSel 0 [] :: []) []) =
    Returns
      (if 0 <? bytes_read [WaitInterrupted 1000; ReadBytes 2000 1 [3] 3]
       then (bytes_read [WaitInterrupted 1000; ReadBytes 2000 1 [3] 3], None)
       else (last_count 0 [WaitInterrupted 1000; ReadBytes 2000 1 [3] 3],
             Some (serial.timeout_error (serial.readTimeout example_port))))
      (World [] tr').
Proof.
  apply (proj1 (serial_Read_no_readiness example_port (replicate 10 0))
           0 [WaitInterrupted 1000; ReadBytes 2000 1 [3] 3] 3000 0 [] [] []).
  - cbn. unfold no_readiness, len. cbn. repeat split; try lia.
    intros [H | H]; [lia | apply H; in_list].
  - reflexivity.
  - left. reflexivity.
Defined.

(** The same run, evaluated: the count is 3 and the error is nil; and
    with no byte before the wait gives up, a timeout error. *)
Example serial_Read_three_bytes :
  serial.Read example_port (replicate 10 0)
    (World [RNow 0; RNow 1000; RErr EINTR; RNow 2000; RSel 1 [3]; RVal 3;
            RNow 3000; RSel 0 []] []) =
  Returns (3, None)
    (World []
       [TimeNow;
        TimeNow; SysSelect 4 (Some [3]) None (mkTimeval 0 199999);
        TimeNow; SysSelect 4 (Some [3]) None (mkTimeval 0 199998); SysRead 3 10;
        TimeNow; SysSelect 4 (Some [3]) None (mkTimeval 0 199997)]).
Proof. vm_compute. reflexivity. Qed.

Example serial_Read_no_byte :
  serial.Read example_port (replicate 10 0)
    (World [RNow 0; RNow 1000; RErr EINTR; RNow 3000; RSel 0 []] []) =
  Returns (0, Some (serial.timeout_error (200 * Millisecond)))
    (World []
       [TimeNow;
        TimeNow; SysSelect 4 (Some [3]) None (mkTimeval 0 199999);
        TimeNow; SysSelect 4 (Some [3]) None (mkTimeval 0 199997)]).
Proof. vm_compute. reflexivity. Qed.

(** ** Serial Write *)

Lemma Write_wait_ready (p : serial.t) (expireTime : Z) (waits : list Z) :
  ∀ (fuel : nat) (now nFd : Z) (wfds : list Z) (rs : list resp) (tr : list call),
    (length (waits_script waits) + 2 + length rs < fuel)%nat →
    Forall (λ t, t < expireTime) waits →
    now < expireTime →
    ¬ no_readiness (serial.fd p) nFd wfds →
    ∃ tr',
      serial.Write_wait fuel p expireTime
        (World (waits_script waits ++ RNow now :: RSel nFd wfds :: rs) tr) =
      Returns None (World rs tr').
Proof.
  induction waits as [| t waits IH]; intros fuel now nFd wfds rs tr Hf Hw Hnow Hrdy;
    (destruct fuel as [| fuel]; [cbn in Hf; lia |]).
  - rewrite no_readiness_test in Hrdy. apply not_true_is_false in Hrdy.
    assert ((expireTime - now <=? 0) = false) as Hd by (apply Z.leb_gt; lia).
    cbn. rewrite Hd. cbn. rewrite Hrdy. cbn. eauto.
  - apply Forall_cons in Hw as [Ht Hw].
    assert ((expireTime - t <=? 0) = false) as Hd by (apply Z.leb_gt; lia).
    unfold waits_script in *. cbn [map concat] in *. rewrite <- app_assoc.
    cbn. rewrite Hd. cbn. eapply IH; eauto. cbn in Hf. lia.
Qed.

Lemma is_progress_test (r : resp) :
  is_progress r →
  ∀ c rs tr,
    int_call c (World (r :: rs) tr) =
      Returns (progress r, match r with RVal _ => None | _ => Some (Errno EINTR) end)
        (World rs (tr ++ [c])).
Proof. intros [[n ->] | ->] c rs tr; reflexivity. Qed.

Lemma Write_loop_turns (p : serial.t) (b : list Z) (expireTime : Z) (ts : list write_turn) :
  ∀ (fuel : nat) (writeLen : Z) (wr : resp) (rs : list resp) (tr : list call),
    (length (wturns_script ts) + 1 + length rs < fuel)%nat →
    0 ≤ writeLen ≤ len b →
    wturns_ok expireTime (serial.fd p) (len b) writeLen ts →
    is_progress wr →
    len b ≤ writeLen + written ts + progress wr →
    ∃ tr',
      serial.Write_loop fuel p b expireTime writeLen
        (World (wturns_script ts ++ wr :: rs) tr) =
      Returns
        (if writeLen + written ts + progress wr =? len b
         then (len b, None)
         else (progress wr,
               Some (overflow_error (writeLen + written ts + progress wr) (len b))))
        (World rs tr').
Proof.
  induction ts as [| [w1 ws now nFd wfds] ts IH]; intros fuel writeLen wr rs tr Hf Hlen Hok Hwr Htot;
    (destruct fuel as [| fuel]; [cbn in Hf; lia |]).
  - cbn [written] in *. rewrite Z.add_0_r in *.
    cbn -[slice_from]. rewrite slice_from_in_range by lia.
    unfold M_bind at 1, syscall_Write. rewrite is_progress_test by done. cbn beta iota.
    assert (is_nil (match wr with RVal _ => None | _ => Some (Errno EINTR) end)
            || is_errno (match wr with RVal _ => None | _ => Some (Errno EINTR) end) EINTR = true)
      as -> by (destruct Hwr as [[n ->] | ->]; reflexivity).
    destruct (Z.eqb_spec (writeLen + progress wr) (len b)) as [-> | Hne]; [cbn; eauto |].
    assert ((len b <? writeLen + progress wr) = true) as -> by (apply Z.ltb_lt; lia).
    cbn. eauto.
  - cbn [wturns_ok wt_write wt_interrupted wt_now wt_nFd wt_wfds] in Hok.
    destruct Hok as (Hw1 & Hrange & Hws & Hnow & Hrdy & Hok).
    cbn [written wt_write] in *.
    unfold wturns_script in *. cbn [map concat] in *.
    unfold wturn_script at 1. unfold wturn_script at 1 in Hf.
    cbn [wt_write wt_interrupted wt_now wt_nFd wt_wfds] in *.
    rewrite <- !app_comm_cons, <- !app_assoc. cbn [app].
    rewrite !length_app in Hf. cbn [length] in Hf.
    cbn -[slice_from]. rewrite slice_from_in_range by lia.
    unfold M_bind at 1, syscall_Write. rewrite is_progress_test by done. cbn beta iota.
    assert (is_nil (match w1 with RVal _ => None | _ => Some (Errno EINTR) end)
            || is_errno (match w1 with RVal _ => None | _ => Some (Errno EINTR) end) EINTR = true)
      as -> by (destruct Hw1 as [[n ->] | ->]; reflexivity).
    assert ((writeLen + progress w1 =? len b) = false) as -> by (apply Z.eqb_neq; lia).
    assert ((len b <? writeLen + progress w1) = false) as -> by (apply Z.ltb_ge; lia).
    unfold M_bind at 1.
    edestruct (Write_wait_ready p expireTime ws fuel now nFd wfds
                 (concat (map wturn_script ts) ++ wr :: rs)) as (tr1 & ->); eauto.
    { rewrite ?length_app in *. cbn [length] in *. lia. }
    edestruct (IH fuel (writeLen + progress w1) wr rs tr1) as (tr' & ->); eauto; try lia.
    rewrite Z.add_assoc. eauto.
Qed.

(** A run of the loop that returns without an error returns the length
    of the buffer. *)
Lemma Write_loop_success_full (p : serial.t) (b : list Z) (expireTime : Z) :
  ∀ (fuel : nat) (writeLen : Z) (w w' : world) (n : Z),
    serial.Write_loop fuel p b expireTime writeLen w = Returns (n, None) w' →
    n = len b.
Proof.
  induction fuel as [| fuel IH]; intros writeLen w w' n H; [discriminate |].
  cbn [serial.Write_loop] in H.
  destruct (slice_from b writeLen) as [rest |]; [| discriminate].
  apply bind_Returns in H as ([n1 err] & w1 & _ & H). cbn beta iota in H.
  destruct err as [e |]; cbn [is_nil orb] in H.
  - destruct (is_errno (Some e) EINTR); [| by apply ret_Returns in H as [[=] _]].
    destruct (Z.eqb_spec (writeLen + n1) (len b)) as [E | _];
      [by apply ret_Returns in H as [[= <-] _] |].
    destruct (len b <? writeLen + n1); [by apply ret_Returns in H as [[=] _] |].
    apply bind_Returns in H as ([e1 |] & w2 & _ & H);
      [by apply ret_Returns in H as [[=] _] |].
    eapply IH; eauto.
  - destruct (Z.eqb_spec (writeLen + n1) (len b)) as [E | _];
      [by apply ret_Returns in H as [[= <-] _] |].
    destruct (len b <? writeLen + n1); [by apply ret_Returns in H as [[=] _] |].
    apply bind_Returns in H as ([e1 |] & w2 & _ & H);
      [by apply ret_Returns in H as [[=] _] |].
    eapply IH; eauto.
Qed.

(** The accounting of serial [Write], in a run where the outer loop goes
    round any number of times (a write that leaves [writeLen] short of the
    length of the buffer, then a wait that finds the descriptor writable)
    and then a write makes [writeLen] reach or pass the length of the buffer:
    if [writeLen] equals the length, [Write] returns that count and no
    error; if it exceeds the length, [Write] returns the overflow error.
    And whatever the run, a [Write] that returns without an error returns
    the length of the buffer, never a larger count. *)
Theorem serial_Write_full_or_overflow (p : serial.t) (b : list Z) :
  (∀ (t0 : Z) (ts : list write_turn) (wr : resp) (rs : list resp) (tr : list call),
     wturns_ok (t0 + serial.writeTimeout p) (serial.fd p) (len b) 0 ts →
     is_progress wr →
     len b ≤ written ts + progress wr →
     ∃ tr',
       serial.Write p b (World (RNow t0 :: wturns_script ts ++ wr :: rs) tr) =
       Returns
         (if written ts + progress wr =? len b
          then (len b, None)
          else (progress wr, Some (overflow_error (written ts + progress wr) (len b))))
         (World rs tr'))
  ∧ (∀ (w w' : world) (n : Z),
     serial.Write p b w = Returns (n, None) w' → n = len b).
Proof.
  split.
  - intros t0 ts wr rs tr Hok Hwr Htot. unfold serial.Write.
    cbn -[serial.Write_loop].
    edestruct (Write_loop_turns p b (t0 + serial.writeTimeout p) ts
                 (S (length (wturns_script ts ++ wr :: rs)))
                 0 wr rs (tr ++ [TimeNow])) as (tr' & ->); eauto.
    + rewrite length_app. cbn. lia.
    + unfold len. lia.
  - intros w w' n H. unfold serial.Write in H.
    apply bind_Returns in H as (now & w1 & _ & H).
    by eapply Write_loop_success_full in H.
Qed.

(** Eight bytes on a descriptor that takes three at a time. *)
Lemma serial_Write_full_or_overflow_witness :
  ∃ tr',
    serial.Write example_port (replicate 8 0)
      (World (RNow 0 :: wturns_script [ready_turn 3 1000; ready_turn 3 2000] ++ RVal 2 :: []) []) =
    Returns
      (if written [ready_turn 3 1000; ready_turn 3 2000] + progress (RVal 2)
          =? len (replicate 8 0)
       then (len (replicate 8 0), None)
       else (progress (RVal 2),
             Some (overflow_error
                     (written [ready_turn 3 1000; ready_turn 3 2000] + progress (RVal 2))
                     (len (replicate 8 0)))))
      (World [] tr').
Proof.
  apply (proj1 (serial_Write_full_or_overflow example_port (replicate 8 0))
           0 [ready_turn 3 1000; ready_turn 3 2000] (RVal 2) [] []).
  - cbn. unfold is_progress, no_readiness, len. cbn.
    repeat split; eauto using Forall_nil_2; try lia;
      intros [H | H]; try lia; apply H; in_list.
  - left. eauto.
  - unfold len. cbn. lia.
Defined.

(** The same run, evaluated; and a last write that is answered with more
    than was left. *)
Example serial_Write_eight_bytes :
  serial.Write example_port (replicate 8 0)
    (World [RNow 0; RVal 3; RNow 1000; RSel 1 [3]; RVal 3; RNow 2000; RSel 1 [3]; RVal 2] []) =
  Returns (8, None)
    (World []
       [TimeNow;
        SysWrite 3 (replicate 8 0);
        TimeNow; SysSelect 4 None (Some [3]) (mkTimeval 0 999999);
        SysWrite 3 (replicate 5 0);
        TimeNow; SysSelect 4 None (Some [3]) (mkTimeval 0 999998);
        SysWrite 3 (replicate 2 0)]).
Proof. vm_compute. reflexivity. Qed.

Example serial_Write_overflow :
  serial.Write example_port (replicate 8 0)
    (World [RNow 0; RVal 3; RNow 1000; RSel 1 [3]; RVal 3; RNow 2000; RSel 1 [3]; RVal 4] []) =
  Returns (4, Some (overflow_error 10 8))
    (World []
       [TimeNow;
        SysWrite 3 (replicate 8 0);
        TimeNow; SysSelect 4 None (Some [3]) (mkTimeval 0 999999);
        SysWrite 3 (replicate 5 0);
        TimeNow; SysSelect 4 None (Some [3]) (mkTimeval 0 999998);
        SysWrite 3 (replicate 2 0)]).
Proof. vm_compute. reflexivity. Qed.

(** C2 (the code as it is).  [Write] adds the count of a write to
    [writeLen] also when the write was interrupted, and package [syscall]
    returns -1 with that error; [Read], next to it, leaves [readLen] alone
    in that case.  On the 8-byte buffer 10, ..., 17, with a first write
    that takes 3 bytes, a second that is interrupted and a third that
    takes 6, the three writes are handed the buffer from byte 0, from
    byte 3 and from byte 2: the byte 12 goes to the device twice, nine
    bytes are taken in all, and [Write] returns the count 8 and no error.
    The buffer is not drained in order, and the count is not the number
    of bytes written. *)
Theorem serial_Write_interrupted_resends :
  serial.Write example_port [10; 11; 12; 13; 14; 15; 16; 17]
    (World [RNow 0; RVal 3; RNow 1000; RSel 1 [3]; RErr EINTR; RNow 2000; RSel 1 [3]; RVal 6]
       []) =
  Returns (8, None)
    (World []
       [TimeNow;
        SysWrite 3 [10; 11; 12; 13; 14; 15; 16; 17];
        TimeNow; SysSelect 4 None (Some [3]) (mkTimeval 0 999999);
        SysWrite 3 [13; 14; 15; 16; 17];
        TimeNow; SysSelect 4 None (Some [3]) (mkTimeval 0 999998);
        SysWrite 3 [12; 13; 14; 15; 16; 17]]).
Proof. vm_compute. reflexivity. Qed.

(** ** The registry *)

(** C6, as stated, fails: the registry is keyed by the address name
    alone.  After a serial endpoint is opened at /dev/ttyS0, a
    Unix-socket endpoint opened under the same name is appended to its
    collection, and the serial address name maps to two endpoints. *)
Lemma registry_serial_name_two_endpoints :
  Type_ (CfgSerial example_serial) = EndPointSerial
  ∧ (x ← Open example_baudRates (CfgSerial example_serial) ∅;
     y ← Open example_baudRates (CfgUnix example_unix_config) x.2;
     mret (Find (CfgSerial example_serial) y.2))
      (World [RVal 3; RTermios Termios_zero; RVal 0;
              RUnixAddr (mkUnixAddr "/dev/ttyS0" "unix"); RVal 4; RVal 0] []) =
    Returns
      ([EpSerial (serial.mk 3 "/dev/ttyS0" (Some Termios_zero)
                    (5000 * Millisecond) (1000 * Millisecond));
        EpUnix (unixsocket.mk 4 (Some (mkUnixAddr "/dev/ttyS0" "unix"))
                  (Some (SockaddrUnix "/dev/ttyS0")) 0 0)], true)
      (World []
         [SysOpen "/dev/ttyS0" open_flags 0x1b6;
          SysTcgetattr 3;
          SysTcsetattr 3 (mkTermios 0 0 0x8bd 0 0 (replicate 32 0) 0xd 0xd);
          NetResolveUnixAddr "unix" "/dev/ttyS0";
          SysSocket AF_UNIX (Z.lor (Z.lor SOCK_STREAM SOCK_NONBLOCK) SOCK_CLOEXEC) 0;
          SysConnect 4 (Some (SockaddrUnix "/dev/ttyS0"))]).
Proof. split; [reflexivity | vm_compute; reflexivity]. Qed.

Lemma newEndPoint_Type (c : EndPointConfig) : EndPoint_Type (newEndPoint c) = Type_ c.
Proof. destruct c; reflexivity. Qed.

Lemma EndPoint_Open_Type (baudRates : Z → option Z) (p p' : EndPoint) (c : EndPointConfig)
    (err : option error) (w w' : world) :
  EndPoint_Open baudRates p c w = Returns (p', err) w' →
  EndPoint_Type p' = EndPoint_Type p.
Proof.
  destruct p, c; try discriminate; cbn [EndPoint_Open]; intros H;
    apply bind_Returns in H as ([p1 e1] & w1 & _ & H);
    apply ret_Returns in H as [[= <- <-] _]; reflexivity.
Qed.

Lemma serial_count_app (l : list EndPoint) (p : EndPoint) :
  serial_count (l ++ [p]) = (serial_count l + if is_serial p then 1 else 0)%nat.
Proof.
  unfold serial_count. rewrite List.filter_app, length_app. cbn.
  destruct (is_serial p); reflexivity.
Qed.

Lemma Open_one_serial (baudRates : Z → option Z) (c : EndPointConfig)
    (m m' : gmap string (list EndPoint)) (p : EndPoint) (err : option error) (w w' : world) :
  one_serial m →
  Open baudRates c m w = Returns (p, err, m') w' →
  one_serial m'.
Proof.
  intros Hm H. unfold Open in H.
  assert (∀ q, one_serial (<[AddressName c := [q]]> m)) as Hsingle.
  { intros q k l. destruct (decide (AddressName c = k)) as [<- | Hne].
    - rewrite lookup_insert_eq. intros [= <-]. unfold serial_count. cbn.
      destruct (is_serial q); cbn; lia.
    - rewrite lookup_insert_ne by done. apply Hm. }
  destruct (decide (Type_ c = EndPointSerial)) as [Hs | Hs].
  - destruct (m !! AddressName c) as [slice |] eqn:Hk.
    + by apply ret_Returns in H as [[= <- <- <-] _].
    + apply bind_Returns in H as ([p1 e1] & w1 & _ & H). cbn beta iota in H.
      destruct (is_nil e1); apply ret_Returns in H as [[= <- <- <-] _]; auto.
  - apply bind_Returns in H as ([p1 e1] & w1 & Hop & H). cbn beta iota in H.
    destruct (is_nil e1); [| by apply ret_Returns in H as [[= <- <- <-] _]].
    destruct (m !! AddressName c) as [slice |] eqn:Hk;
      apply ret_Returns in H as [[= <- <- <-] _]; auto.
    intros k l. destruct (decide (AddressName c = k)) as [<- | Hne].
    + rewrite lookup_insert_eq. intros [= <-]. rewrite serial_count_app.
      apply EndPoint_Open_Type in Hop. rewrite newEndPoint_Type in Hop.
      unfold is_serial. rewrite Hop, bool_decide_eq_false_2 by done.
      rewrite Nat.add_0_r. by eapply Hm.
    + rewrite lookup_insert_ne by done. apply Hm.
Qed.

Lemma reachable_one_serial (baudRates : Z → option Z) (m : gmap string (list EndPoint)) :
  reachable baudRates m → one_serial m.
Proof.
  induction 1 as [| c m w p err m' w' _ IH H | c m _ IH].
  - intros k l. by rewrite lookup_empty.
  - eapply Open_one_serial; eauto.
  - intros k l. unfold Delete. intros H. apply lookup_delete_Some in H as [_ H]. by eapply IH.
Qed.

Lemma serial_count_all_serial (l : list EndPoint) :
  Forall (λ p, EndPoint_Type p = EndPointSerial) l → serial_count l = length l.
Proof.
  unfold serial_count. induction 1 as [| p l Hp _ IH]; [reflexivity |].
  cbn. unfold is_serial at 1. rewrite bool_decide_eq_true_2 by done. cbn. by rewrite IH.
Qed.

(** C6, amended.  In every registry that [Open] and [Delete] build from
    the empty one, each collection holds at most one serial endpoint, so
    that a collection of serial endpoints only has length at most 1.  An
    [Open] of a serial configuration whose address name is registered
    fails and asks nothing of the environment: the native open is not
    invoked and the registry is unchanged.  Two [Open]s of TCP, UDP or
    Unix configurations with the same address name, the native opens
    succeeding, both succeed, and a lookup then returns the collection
    with both endpoints at its end. *)
Theorem registry_serial_once_network_shared (baudRates : Z → option Z) :
  (∀ (m : gmap string (list EndPoint)) (k : string) (l : list EndPoint),
     reachable baudRates m →
     m !! k = Some l →
     (serial_count l ≤ 1)%nat
     ∧ (Forall (λ p, EndPoint_Type p = EndPointSerial) l → (length l ≤ 1)%nat))
  ∧ (∀ (c : EndPointConfig) (m : gmap string (list EndPoint)) (w : world),
     Type_ c = EndPointSerial →
     is_Some (m !! AddressName c) →
     Open baudRates c m w =
       Returns (newEndPoint c, Some (Errorf "opening serial repeated is unsupported" []), m) w)
  ∧ (∀ (c1 c2 : EndPointConfig) (m : gmap string (list EndPoint))
       (p1 p2 : EndPoint) (w w1 w2 : world),
     Type_ c1 ≠ EndPointSerial →
     Type_ c2 ≠ EndPointSerial →
     AddressName c1 = AddressName c2 →
     EndPoint_Open baudRates (newEndPoint c1) c1 w = Returns (p1, None) w1 →
     EndPoint_Open baudRates (newEndPoint c2) c2 w1 = Returns (p2, None) w2 →
     ∃ m1 m2,
       Open baudRates c1 m w = Returns (p1, None, m1) w1
       ∧ Open baudRates c2 m1 w1 = Returns (p2, None, m2) w2
       ∧ Find c1 m2 = (default [] (m !! AddressName c1) ++ [p1; p2], true)
       ∧ Find c2 m2 = Find c1 m2).
Proof.
  split; [| split].
  - intros m k l Hr Hk. apply reachable_one_serial in Hr.
    split; [by eapply Hr |]. intros Hall.
    rewrite <- (serial_count_all_serial l Hall). by eapply Hr.
  - intros c m w Hs [slice Hk]. unfold Open.
    rewrite decide_True by done. rewrite Hk. reflexivity.
  - intros c1 c2 m p1 p2 w w1 w2 H1 H2 Hname Ho1 Ho2.
    unfold Open, Find. rewrite !decide_False by done.
    unfold mbind at 1, M_bind at 1. rewrite Ho1. cbn beta iota. cbn [is_nil].
    rewrite <- Hname.
    destruct (m !! AddressName c1) as [slice |] eqn:Hk; cbn [default].
    + do 2 eexists. split; [reflexivity |].
      rewrite decide_False by done.
      unfold mbind, M_bind. rewrite Ho2. cbn beta iota. cbn [is_nil].
      rewrite lookup_insert_eq. split; [reflexivity |].
      rewrite lookup_insert_eq, <- app_assoc. done.
    + do 2 eexists. split; [reflexivity |].
      rewrite decide_False by done.
      unfold mbind, M_bind. rewrite Ho2. cbn beta iota. cbn [is_nil].
      rewrite lookup_insert_eq. split; [reflexivity |].
      rewrite lookup_insert_eq. done.
Qed.

Lemma registry_serial_once_network_shared_witness :
  ∃ m1 m2,
    Open example_baudRates (CfgUDP example_udp_config) ∅
      (World [RIPAddr example_ip; RVal 3; RIPAddr example_ip; RVal 4] []) =
      Returns (EpUDP (udp.mk 3 (Some example_ip) (Some example_peer) 0 0), None, m1)
        (World [RIPAddr example_ip; RVal 4]
           [NetResolveUDPAddr "udp" "127.0.0.1:9000";
            SysSocket AF_INET (Z.lor (Z.lor SOCK_DGRAM SOCK_NONBLOCK) SOCK_CLOEXEC) IPPROTO_UDP])
    ∧ Open example_baudRates (CfgUDP example_udp_config) m1
        (World [RIPAddr example_ip; RVal 4]
           [NetResolveUDPAddr "udp" "127.0.0.1:9000";
            SysSocket AF_INET (Z.lor (Z.lor SOCK_DGRAM SOCK_NONBLOCK) SOCK_CLOEXEC) IPPROTO_UDP]) =
      Returns (EpUDP (udp.mk 4 (Some example_ip) (Some example_peer) 0 0), None, m2)
        (World []
           [NetResolveUDPAddr "udp" "127.0.0.1:9000";
            SysSocket AF_INET (Z.lor (Z.lor SOCK_DGRAM SOCK_NONBLOCK) SOCK_CLOEXEC) IPPROTO_UDP;
            NetResolveUDPAddr "udp" "127.0.0.1:9000";
            SysSocket AF_INET (Z.lor (Z.lor SOCK_DGRAM SOCK_NONBLOCK) SOCK_CLOEXEC) IPPROTO_UDP])
    ∧ Find (CfgUDP example_udp_config) m2 =
        (default [] ((∅ : gmap string (list EndPoint)) !! AddressName (CfgUDP example_udp_config))
           ++ [EpUDP (udp.mk 3 (Some example_ip) (Some example_peer) 0 0);
               EpUDP (udp.mk 4 (Some example_ip) (Some example_peer) 0 0)], true)
    ∧ Find (CfgUDP example_udp_config) m2 = Find (CfgUDP example_udp_config) m2.
Proof.
  apply (proj2 (proj2 (registry_serial_once_network_shared example_baudRates))
           (CfgUDP example_udp_config) (CfgUDP example_udp_config) ∅).
  - discriminate.
  - discriminate.
  - reflexivity.
  - vm_compute. reflexivity.
  - vm_compute. reflexivity.
Defined.

(** * Further properties *)

(** ** The socket builder *)

(** Every run of [sysSocket] that returns is one of five: the socket is
    created with the flags; the creation fails with another errno than the
    two that ask for the fall-back; the fall-back creation fails; the
    fall-back succeeds, after marking the socket close-on-exec and
    non-blocking; or the socket cannot be made non-blocking and is closed.
    An error always comes with -1, and a descriptor that is returned was
    either created non-blocking or made so. *)
Theorem sysSocket_outcomes (family sotype proto : Z) (w w' : world)
    (s : Z) (err : option error) :
  sysSocket family sotype proto w = Returns (s, err) w' →
  ∃ calls, trace w' = trace w ++ calls
    ∧ ((calls = [socket_with_flags family sotype proto] ∧ err = None)
       ∨ (calls = [socket_with_flags family sotype proto] ∧ s = -1
          ∧ ∃ e, err = Some (SyscallError "socket" (Errno e))
                 ∧ e ≠ EPROTONOSUPPORT ∧ e ≠ EINVAL)
       ∨ (calls = [socket_with_flags family sotype proto; SysSocket family sotype proto]
          ∧ s = -1 ∧ ∃ e, err = Some (SyscallError "socket" (Errno e)))
       ∨ (calls = [socket_with_flags family sotype proto; SysSocket family sotype proto;
                   SysCloseOnExec s; SysSetNonblock s true]
          ∧ err = None)
       ∨ (∃ fd e,
            calls = [socket_with_flags family sotype proto; SysSocket family sotype proto;
                     SysCloseOnExec fd; SysSetNonblock fd true; SysClose fd]
            ∧ s = -1 ∧ err = Some (SyscallError "setnonblock" (Errno e)))).
Proof.
  intros H. unfold sysSocket in H.
  apply bind_Returns in H as ([s1 e1] & w1 & H1 & H). cbn beta iota in H.
  apply int_call_Returns in H1 as [T1 [-> | (e & -> & ->)]].
  { apply ret_Returns in H as [[= <- <-] <-]. eexists. split; [exact T1 |]. by left. }
  cbn [is_nil is_errno] in H.
  destruct (Z.eqb_spec e EPROTONOSUPPORT) as [E1 | E1];
    [| destruct (Z.eqb_spec e EINVAL) as [E2 | E2]]; cbn [orb] in H.
  3: { apply ret_Returns in H as [[= <- <-] <-]. eexists. split; [exact T1 |].
       right; left. eauto 10. }
  all: apply bind_Returns in H as ([s2 e2] & w2 & H2 & H); cbn beta iota in H;
    apply int_call_Returns in H2 as [T2 [-> | (e' & -> & ->)]]; cbn [is_nil negb] in H.
  all: try (apply bind_Returns in H as ([] & w3 & H3 & H);
            apply ret_Returns in H3 as [_ <-];
            apply ret_Returns in H as [[= <- <-] <-];
            eexists; split; [rewrite T2, T1, <- app_assoc; reflexivity |];
            right; right; left; eauto 10).
  all: apply bind_Returns in H as ([] & w3 & H3 & H);
    apply bind_Returns in H3 as (r3 & w3' & H3 & H3');
    apply sys_Returns in H3 as [_ T3]; apply ret_Returns in H3' as [_ <-];
    apply bind_Returns in H as (e3 & w4 & H4 & H);
    apply err_call_Returns in H4 as [T4 [-> | (e4 & ->)]]; cbn [is_nil negb] in H.
  all: try (apply ret_Returns in H as [[= <- <-] <-];
            eexists; split; [rewrite T4, T3, T2, T1, <- !app_assoc; reflexivity |];
            right; right; right; left; eauto).
  all: apply bind_Returns in H as (e5 & w5 & H5 & H);
    apply err_call_Returns in H5 as [T5 _];
    apply ret_Returns in H as [[= <- <-] <-];
    eexists; split; [rewrite T5, T4, T3, T2, T1, <- !app_assoc; reflexivity |];
    right; right; right; right; eauto 10.
Qed.

Lemma sysSocket_outcomes_witness :
  ∃ calls,
    [socket_with_flags AF_INET SOCK_STREAM IPPROTO_TCP; SysSocket AF_INET SOCK_STREAM IPPROTO_TCP;
     SysCloseOnExec 7; SysSetNonblock 7 true; SysClose 7] = [] ++ calls
    ∧ ((calls = [socket_with_flags AF_INET SOCK_STREAM IPPROTO_TCP]
        ∧ Some (SyscallError "setnonblock" (Errno EBADF)) = None)
       ∨ (calls = [socket_with_flags AF_INET SOCK_STREAM IPPROTO_TCP] ∧ -1 = -1
          ∧ ∃ e, Some (SyscallError "setnonblock" (Errno EBADF))
                   = Some (SyscallError "socket" (Errno e))
                 ∧ e ≠ EPROTONOSUPPORT ∧ e ≠ EINVAL)
       ∨ (calls = [socket_with_flags AF_INET SOCK_STREAM IPPROTO_TCP;
                   SysSocket AF_INET SOCK_STREAM IPPROTO_TCP]
          ∧ -1 = -1
          ∧ ∃ e, Some (SyscallError "setnonblock" (Errno EBADF))
                   = Some (SyscallError "socket" (Errno e)))
       ∨ (calls = [socket_with_flags AF_INET SOCK_STREAM IPPROTO_TCP;
                   SysSocket AF_INET SOCK_STREAM IPPROTO_TCP;
                   SysCloseOnExec (-1); SysSetNonblock (-1) true]
          ∧ Some (SyscallError "setnonblock" (Errno EBADF)) = None)
       ∨ (∃ fd e,
            calls = [socket_with_flags AF_INET SOCK_STREAM IPPROTO_TCP;
                     SysSocket AF_INET SOCK_STREAM IPPROTO_TCP;
                     SysCloseOnExec fd; SysSetNonblock fd true; SysClose fd]
            ∧ -1 = -1
            ∧ Some (SyscallError "setnonblock" (Errno EBADF))
                = Some (SyscallError "setnonblock" (Errno e)))).
Proof.
  apply (sysSocket_outcomes AF_INET SOCK_STREAM IPPROTO_TCP
           (World [RErr EINVAL; RVal 7; RVal 0; RErr EBADF; RVal 0] [])
           (World [] [socket_with_flags AF_INET SOCK_STREAM IPPROTO_TCP;
                      SysSocket AF_INET SOCK_STREAM IPPROTO_TCP;
                      SysCloseOnExec 7; SysSetNonblock 7 true; SysClose 7])
           (-1) (Some (SyscallError "setnonblock" (Errno EBADF)))).
  reflexivity.
Defined.

(** ** Socket options *)

(** [setKeepAlive] with a positive duration: the options are set in the
    order keep-alive, interval, idle time, with the duration in whole
    seconds (rounded down, so 0 for less than a second).  The first option
    that the kernel refuses ends the sequence: no further option is set,
    and the error of that refusal is returned, wrapped as an error of
    setsockopt.  Nil is returned when the kernel has accepted all three. *)
Theorem setKeepAlive_calls (fd : Z) (d : Duration) (rs : list resp) (tr : list call) :
  0 < d →
  (∀ e,
     setKeepAlive fd d (World (RErr e :: rs) tr) =
     Returns (Some (SyscallError "setsockopt" (Errno e)))
       (World rs (tr ++ [SysSetsockoptInt fd SOL_SOCKET SO_KEEPALIVE 1])))
  ∧ (∀ v e,
     setKeepAlive fd d (World (RVal v :: RErr e :: rs) tr) =
     Returns (Some (SyscallError "setsockopt" (Errno e)))
       (World rs (tr ++ [SysSetsockoptInt fd SOL_SOCKET SO_KEEPALIVE 1;
                         SysSetsockoptInt fd IPPROTO_TCP TCP_KEEPINTVL (Z.quot d Second)])))
  ∧ (∀ v1 v2 e,
     setKeepAlive fd d (World (RVal v1 :: RVal v2 :: RErr e :: rs) tr) =
     Returns (Some (SyscallError "setsockopt" (Errno e)))
       (World rs (tr ++ [SysSetsockoptInt fd SOL_SOCKET SO_KEEPALIVE 1;
                         SysSetsockoptInt fd IPPROTO_TCP TCP_KEEPINTVL (Z.quot d Second);
                         SysSetsockoptInt fd IPPROTO_TCP TCP_KEEPIDLE (Z.quot d Second)])))
  ∧ (∀ v1 v2 v3,
     setKeepAlive fd d (World (RVal v1 :: RVal v2 :: RVal v3 :: rs) tr) =
     Returns None
       (World rs (tr ++ [SysSetsockoptInt fd SOL_SOCKET SO_KEEPALIVE 1;
                         SysSetsockoptInt fd IPPROTO_TCP TCP_KEEPINTVL (Z.quot d Second);
                         SysSetsockoptInt fd IPPROTO_TCP TCP_KEEPIDLE (Z.quot d Second)])))
  ∧ (d < Second → Z.quot d Second = 0).
Proof.
  intros Hd. unfold setKeepAlive.
  assert ((d <=? 0) = false) as -> by (apply Z.leb_gt; lia).
  repeat split; intros; cbn; rewrite <- ?app_assoc; try reflexivity.
  apply Z.quot_small. lia.
Qed.

Lemma setKeepAlive_calls_witness :
  (∀ e,
     setKeepAlive 3 (500 * Millisecond) (World (RErr e :: []) []) =
     Returns (Some (SyscallError "setsockopt" (Errno e)))
       (World [] ([] ++ [SysSetsockoptInt 3 SOL_SOCKET SO_KEEPALIVE 1])))
  ∧ (∀ v e,
     setKeepAlive 3 (500 * Millisecond) (World (RVal v :: RErr e :: []) []) =
     Returns (Some (SyscallError "setsockopt" (Errno e)))
       (World [] ([] ++ [SysSetsockoptInt 3 SOL_SOCKET SO_KEEPALIVE 1;
                         SysSetsockoptInt 3 IPPROTO_TCP TCP_KEEPINTVL
                           (Z.quot (500 * Millisecond) Second)])))
  ∧ (∀ v1 v2 e,
     setKeepAlive 3 (500 * Millisecond) (World (RVal v1 :: RVal v2 :: RErr e :: []) []) =
     Returns (Some (SyscallError "setsockopt" (Errno e)))
       (World [] ([] ++ [SysSetsockoptInt 3 SOL_SOCKET SO_KEEPALIVE 1;
                         SysSetsockoptInt 3 IPPROTO_TCP TCP_KEEPINTVL
                           (Z.quot (500 * Millisecond) Second);
                         SysSetsockoptInt 3 IPPROTO_TCP TCP_KEEPIDLE
                           (Z.quot (500 * Millisecond) Second)])))
  ∧ (∀ v1 v2 v3,
     setKeepAlive 3 (500 * Millisecond) (World (RVal v1 :: RVal v2 :: RVal v3 :: []) []) =
     Returns None
       (World [] ([] ++ [SysSetsockoptInt 3 SOL_SOCKET SO_KEEPALIVE 1;
                         SysSetsockoptInt 3 IPPROTO_TCP TCP_KEEPINTVL
                           (Z.quot (500 * Millisecond) Second);
                         SysSetsockoptInt 3 IPPROTO_TCP TCP_KEEPIDLE
                           (Z.quot (500 * Millisecond) Second)])))
  ∧ (500 * Millisecond < Second → Z.quot (500 * Millisecond) Second = 0).
Proof.
  apply (setKeepAlive_calls 3 (500 * Millisecond) [] []). reflexivity.
Defined.

(** ** Address resolution *)

Lemma copy_length (dst src : list Z) : length (copy dst src) = length dst.
Proof. unfold copy. rewrite length_app, length_take, length_drop. lia. Qed.

Lemma copy_same_length (dst src : list Z) : length src = length dst → copy dst src = src.
Proof.
  intros H. unfold copy. rewrite <- H, firstn_all, drop_ge by lia. apply app_nil_r.
Qed.

Lemma determineProto_version (v4 v6 : string) (known : list string) (msg proto : string)
    (a : IPAddr) (version : string) :
  determineProto v4 v6 known msg proto a = (version, None) →
  version = v4 ∨ version = v6 ∨ version ∈ known.
Proof.
  unfold determineProto. repeat case_match; intros [= <-]; auto.
  right; right. by eapply bool_decide_eq_true_1.
Qed.

(** What the [switch] on the version builds, when the version is one of
    its three cases. *)
Lemma sockaddr_of_shape (v0 v4 v6 version : string) (a : IPAddr) (w w' : world)
    (sa : option Sockaddr) (family : Z) :
  sockaddr_of v0 v4 v6 version a w = Returns (sa, family, None) w' →
  version ∈ [v0; v4; v6] →
  (∃ addr, sa = Some (SockaddrInet4 (Port a) addr) ∧ length addr = 4%nat ∧ family = AF_INET)
  ∨ (∃ zone addr, sa = Some (SockaddrInet6 (Port a) zone addr) ∧ length addr = 16%nat
                  ∧ 0 ≤ zone < 2 ^ 32 ∧ family = AF_INET6).
Proof.
  intros H Hv. unfold sockaddr_of in H.
  destruct (String.eqb_spec version v0) as [_ | N0].
  { apply ret_Returns in H as [[= <- <-] _]. left. eauto. }
  destruct (String.eqb_spec version v4) as [_ | N4].
  { apply ret_Returns in H as [[= <- <-] _]. left. eexists. split; [reflexivity |].
    split; [| reflexivity].
    destruct (IP a) as [ip |]; [destruct (length ip =? 16)%nat |];
      rewrite ?copy_length; reflexivity. }
  destruct (String.eqb_spec version v6) as [_ | N6].
  2: { exfalso. repeat (apply elem_of_cons in Hv as [Hv | Hv]; [done |]).
       by apply elem_of_nil in Hv. }
  assert (length match IP a with
                 | Some ip => copy (replicate 16 0) ip
                 | None => replicate 16 0
                 end = 16%nat) as Hlen
    by (destruct (IP a); rewrite ?copy_length; reflexivity).
  destruct (negb (String.eqb (Zone a) EmptyString)).
  - apply bind_Returns in H as ([index e] & w1 & _ & H). cbn beta iota in H.
    destruct (negb (is_nil e)) eqn:He.
    + apply ret_Returns in H as [[= <- <- ->] _]. done.
    + apply ret_Returns in H as [[= <- <-] _]. right. eexists _, _.
      split; [reflexivity |]. split; [exact Hlen |]. split; [| reflexivity].
      apply Z.mod_pos_bound. lia.
  - apply ret_Returns in H as [[= <- <-] _]. right. eexists _, _.
    split; [reflexivity |]. split; [exact Hlen |]. split; [lia | reflexivity].
Qed.

(** [getTCPSockaddr] and [getUDPSockaddr] never return a nil socket
    address without an error: when the error is nil, the network address
    is the resolved one, and the socket address is an IPv4 one with a
    4-byte address and family [AF_INET], or an IPv6 one with a 16-byte
    address, a zone that fits 32 bits and family [AF_INET6]; its port is
    the resolved port. *)
Theorem getSockaddr_family (proto addr : string) (w w' : world)
    (sa : option Sockaddr) (family : Z) (na : option IPAddr) :
  getTCPSockaddr proto addr w = Returns (sa, family, na, None) w'
  ∨ getUDPSockaddr proto addr w = Returns (sa, family, na, None) w' →
  ∃ a, na = Some a
    ∧ ((∃ ip, sa = Some (SockaddrInet4 (Port a) ip) ∧ length ip = 4%nat ∧ family = AF_INET)
       ∨ (∃ zone ip, sa = Some (SockaddrInet6 (Port a) zone ip) ∧ length ip = 16%nat
                     ∧ 0 ≤ zone < 2 ^ 32 ∧ family = AF_INET6)).
Proof.
  intros [H | H]; [unfold getTCPSockaddr in H | unfold getUDPSockaddr in H];
    apply bind_Returns in H as ([[a |] e] & w1 & H1 & H); cbn beta iota in H;
    try (apply bind_Returns in H1 as (r & w0 & _ & H1);
         destruct r; try discriminate; by apply ret_Returns in H1 as [[=] _]).
  - destruct (determineTCPProto proto a) as [version e'] eqn:Hv.
    destruct e'; cbn [is_nil negb] in H; [by apply ret_Returns in H as [[=] _] |].
    apply bind_Returns in H as ([[sa' fam'] e''] & w2 & H2 & H). cbn beta iota in H.
    apply ret_Returns in H as [[= <- <- <- ->] _]. exists a. split; [reflexivity |].
    apply determineProto_version in Hv.
    eapply sockaddr_of_shape; [exact H2 |].
    destruct Hv as [-> | [-> | Hv]]; [in_list | in_list | exact Hv].
  - apply ret_Returns in H as [[= <- <- <- ->] _].
    apply bind_Returns in H1 as (r & w0 & _ & H1).
    destruct r; try discriminate; by apply ret_Returns in H1 as [[=] _].
  - destruct (determineUDPProto proto a) as [version e'] eqn:Hv.
    destruct e'; cbn [is_nil negb] in H; [by apply ret_Returns in H as [[=] _] |].
    apply bind_Returns in H as ([[sa' fam'] e''] & w2 & H2 & H). cbn beta iota in H.
    apply ret_Returns in H as [[= <- <- <- ->] _]. exists a. split; [reflexivity |].
    apply determineProto_version in Hv.
    eapply sockaddr_of_shape; [exact H2 |].
    destruct Hv as [-> | [-> | Hv]]; [in_list | in_list | exact Hv].
  - apply ret_Returns in H as [[= <- <- <- ->] _].
    apply bind_Returns in H1 as (r & w0 & _ & H1).
    destruct r; try discriminate; by apply ret_Returns in H1 as [[=] _].
Qed.

Lemma getSockaddr_family_witness :
  ∃ a, Some example_ip = Some a
    ∧ ((∃ ip, Some example_peer = Some (SockaddrInet4 (Port a) ip)
              ∧ length ip = 4%nat ∧ AF_INET = AF_INET)
       ∨ (∃ zone ip, Some example_peer = Some (SockaddrInet6 (Port a) zone ip)
                     ∧ length ip = 16%nat ∧ 0 ≤ zone < 2 ^ 32 ∧ AF_INET = AF_INET6)).
Proof.
  apply (getSockaddr_family "tcp6" "127.0.0.1:9000"
           (World [RIPAddr example_ip] [])
           (World [] [NetResolveTCPAddr "tcp6" "127.0.0.1:9000"])).
  left. reflexivity.
Defined.

Lemma To4_ok_4 (ip : list Z) : length ip = 4%nat → To4_ok (Some ip) = true.
Proof. intros H. unfold To4_ok. by rewrite H. Qed.

Lemma resolve_ip_answer {B : Type} (c : call) (f : option IPAddr * option error → M B)
    (a : IPAddr) (rs : list resp) (tr : list call) :
  (resolve_ip c ≫= f) (World (RIPAddr a :: rs) tr) = f (Some a, None) (World rs (tr ++ [c])).
Proof. reflexivity. Qed.

Lemma determineProto_v4 (v4 v6 : string) (known : list string) (msg proto : string)
    (a : IPAddr) :
  To4_ok (IP a) = true → determineProto v4 v6 known msg proto a = (v4, None).
Proof. intros H. unfold determineProto. by rewrite H. Qed.

Lemma sockaddr_of_v4 (v0 v4 v6 : string) (a : IPAddr) (w : world) :
  v4 ≠ v0 →
  sockaddr_of v0 v4 v6 v4 a w =
    Returns
      (Some (SockaddrInet4 (Port a)
               match IP a with
               | None => replicate 4 0
               | Some ip =>
                   if (length ip =? 16)%nat then copy (replicate 4 0) (take 4 (drop 12 ip))
                   else copy (replicate 4 0) ip
               end), AF_INET, None) w.
Proof.
  intros H. unfold sockaddr_of. apply String.eqb_neq in H. rewrite H, String.eqb_refl.
  reflexivity.
Qed.

(** The family of the resolved address wins over the declared network:
    when the resolved IP has 4 bytes, or 16 bytes that map an IPv4
    address, the socket address is the IPv4 one with those 4 bytes,
    whatever string was given as the network (it is not looked at), for
    TCP and for UDP. *)
Theorem resolved_ipv4_wins (proto addr : string) (a : IPAddr) (ip : list Z)
    (rs : list resp) (tr : list call) :
  length ip = 4%nat →
  IP a = Some ip ∨ IP a = Some (replicate 10 0 ++ [0xff; 0xff] ++ ip) →
  getTCPSockaddr proto addr (World (RIPAddr a :: rs) tr) =
    Returns (Some (SockaddrInet4 (Port a) ip), AF_INET, Some a, None)
      (World rs (tr ++ [NetResolveTCPAddr proto addr]))
  ∧ getUDPSockaddr proto addr (World (RIPAddr a :: rs) tr) =
    Returns (Some (SockaddrInet4 (Port a) ip), AF_INET, Some a, None)
      (World rs (tr ++ [NetResolveUDPAddr proto addr])).
Proof.
  intros Hlen Hip.
  assert (To4_ok (IP a) = true) as H4.
  { destruct Hip as [-> | ->]; [by apply To4_ok_4 |].
    unfold To4_ok. rewrite !length_app, Hlen. cbn. apply bool_decide_eq_true_2.
    reflexivity. }
  assert (match IP a with
          | None => replicate 4 0
          | Some ip0 =>
              if (length ip0 =? 16)%nat then copy (replicate 4 0) (take 4 (drop 12 ip0))
              else copy (replicate 4 0) ip0
          end = ip) as Hcopy.
  { destruct Hip as [-> | ->].
    - rewrite Hlen. cbn -[copy]. by apply copy_same_length.
    - rewrite !length_app, Hlen. cbn -[copy take].
      rewrite drop_0, firstn_all2 by lia. by apply copy_same_length. }
  unfold getTCPSockaddr, getUDPSockaddr, net_ResolveTCPAddr, net_ResolveUDPAddr,
    determineTCPProto, determineUDPProto.
  rewrite !resolve_ip_answer, !determineProto_v4 by done. cbn [is_nil negb].
  unfold mbind, M_bind. rewrite !sockaddr_of_v4, Hcopy by done. done.
Qed.

Lemma resolved_ipv4_wins_witness :
  getTCPSockaddr "quic" "[::ffff:10.0.0.1]:80"
    (World [RIPAddr (mkIPAddr (Some (replicate 10 0 ++ [0xff; 0xff] ++ [10; 0; 0; 1])) 80
                       EmptyString)] []) =
    Returns (Some (SockaddrInet4 80 [10; 0; 0; 1]), AF_INET,
             Some (mkIPAddr (Some (replicate 10 0 ++ [0xff; 0xff] ++ [10; 0; 0; 1])) 80
                     EmptyString), None)
      (World [] ([] ++ [NetResolveTCPAddr "quic" "[::ffff:10.0.0.1]:80"]))
  ∧ getUDPSockaddr "quic" "[::ffff:10.0.0.1]:80"
    (World [RIPAddr (mkIPAddr (Some (replicate 10 0 ++ [0xff; 0xff] ++ [10; 0; 0; 1])) 80
                       EmptyString)] []) =
    Returns (Some (SockaddrInet4 80 [10; 0; 0; 1]), AF_INET,
             Some (mkIPAddr (Some (replicate 10 0 ++ [0xff; 0xff] ++ [10; 0; 0; 1])) 80
                     EmptyString), None)
      (World [] ([] ++ [NetResolveUDPAddr "quic" "[::ffff:10.0.0.1]:80"])).
Proof.
  apply (resolved_ipv4_wins "quic" "[::ffff:10.0.0.1]:80"
           (mkIPAddr (Some (replicate 10 0 ++ [0xff; 0xff] ++ [10; 0; 0; 1])) 80 EmptyString)
           [10; 0; 0; 1] [] []).
  - reflexivity.
  - right. reflexivity.
Defined.

Lemma determineProto_no_ip (v4 v6 : string) (known : list string) (msg proto : string)
    (a : IPAddr) :
  IP a = None →
  determineProto v4 v6 known msg proto a =
    if bool_decide (proto ∈ known) then (proto, None) else (EmptyString, Some (Errorf msg [])).
Proof. intros H. unfold determineProto. rewrite H. reflexivity. Qed.

(** When the resolved address has no IP (an address such as ":9000"),
    the declared network decides: a network other than tcp, tcp4, tcp6 is
    an error, with a nil socket address; tcp and tcp4 give the IPv4
    socket address 0.0.0.0 with the port, and tcp6 (without a zone) the
    IPv6 one with the zero address. *)
Theorem getTCPSockaddr_without_ip (proto addr : string) (a : IPAddr)
    (rs : list resp) (tr : list call) :
  IP a = None →
  (proto ∉ ["tcp"; "tcp4"; "tcp6"]%string →
   getTCPSockaddr proto addr (World (RIPAddr a :: rs) tr) =
     Returns (None, 0, Some a, Some (Errorf "only tcp/tcp4/tcp6 are supported" []))
       (World rs (tr ++ [NetResolveTCPAddr proto addr])))
  ∧ (proto = "tcp"%string ∨ proto = "tcp4"%string →
     getTCPSockaddr proto addr (World (RIPAddr a :: rs) tr) =
       Returns (Some (SockaddrInet4 (Port a) [0; 0; 0; 0]), AF_INET, Some a, None)
         (World rs (tr ++ [NetResolveTCPAddr proto addr])))
  ∧ (proto = "tcp6"%string → Zone a = EmptyString →
     getTCPSockaddr proto addr (World (RIPAddr a :: rs) tr) =
       Returns (Some (SockaddrInet6 (Port a) 0 (replicate 16 0)), AF_INET6, Some a, None)
         (World rs (tr ++ [NetResolveTCPAddr proto addr]))).
Proof.
  intros Hip. unfold getTCPSockaddr, net_ResolveTCPAddr, determineTCPProto.
  rewrite resolve_ip_answer, determineProto_no_ip by done.
  split; [| split].
  - intros Hp. rewrite bool_decide_eq_false_2 by done. reflexivity.
  - intros [-> | ->]; rewrite bool_decide_eq_true_2 by in_list;
      cbn; rewrite ?Hip; reflexivity.
  - intros -> Hz. rewrite bool_decide_eq_true_2 by in_list.
    cbn. rewrite Hip, Hz. reflexivity.
Qed.

Lemma getTCPSockaddr_without_ip_witness :
  getTCPSockaddr "tcp5" ":9000" (World [RIPAddr (mkIPAddr None 9000 EmptyString)] []) =
    Returns (None, 0, Some (mkIPAddr None 9000 EmptyString),
             Some (Errorf "only tcp/tcp4/tcp6 are supported" []))
      (World [] ([] ++ [NetResolveTCPAddr "tcp5" ":9000"])).
Proof.
  apply (proj1 (getTCPSockaddr_without_ip "tcp5" ":9000" (mkIPAddr None 9000 EmptyString)
                  [] [] eq_refl)).
  not_in_list.
Defined.

(** An IPv6 address (16 bytes that do not map an IPv4 address) with a
    zone: the zone is looked up as an interface name and its index,
    reduced to 32 bits, is the zone of the socket address; when the
    interface is not found, the error of the lookup is returned with a
    nil socket address.  Without a zone no interface is looked up and the
    zone is 0. *)
Theorem getUDPSockaddr_ipv6_zone (proto addr : string) (a : IPAddr) (ip : list Z)
    (rs : list resp) (tr : list call) :
  IP a = Some ip →
  length ip = 16%nat →
  take 12 ip ≠ replicate 10 0 ++ [0xff; 0xff] →
  (Zone a = EmptyString →
   getUDPSockaddr proto addr (World (RIPAddr a :: rs) tr) =
     Returns (Some (SockaddrInet6 (Port a) 0 ip), AF_INET6, Some a, None)
       (World rs (tr ++ [NetResolveUDPAddr proto addr])))
  ∧ (Zone a ≠ EmptyString →
     (∀ index rs',
        rs = RVal index :: rs' →
        getUDPSockaddr proto addr (World (RIPAddr a :: rs) tr) =
          Returns (Some (SockaddrInet6 (Port a) (index `mod` 2 ^ 32) ip), AF_INET6, Some a, None)
            (World rs' (tr ++ [NetResolveUDPAddr proto addr; NetInterfaceByName (Zone a)])))
     ∧ (∀ msg rs',
        rs = RFail msg :: rs' →
        getUDPSockaddr proto addr (World (RIPAddr a :: rs) tr) =
          Returns (None, 0, Some a, Some (ErrorString msg))
            (World rs' (tr ++ [NetResolveUDPAddr proto addr; NetInterfaceByName (Zone a)])))).
Proof.
  intros Hip Hlen Hmap.
  assert (determineUDPProto proto a = ("udp6"%string, None)) as Hv.
  { unfold determineUDPProto, determineProto, To4_ok, To16_ok. rewrite Hip, Hlen.
    cbn [Nat.eqb orb andb]. rewrite bool_decide_eq_false_2 by done. reflexivity. }
  assert (copy (replicate 16 0) ip = ip) as Hcopy by (by apply copy_same_length).
  unfold getUDPSockaddr, net_ResolveUDPAddr. rewrite resolve_ip_answer, Hv.
  cbn [is_nil negb]. unfold sockaddr_of. cbn [String.eqb Ascii.eqb Bool.eqb].
  rewrite Hip, Hcopy. split.
  - intros ->. reflexivity.
  - intros Hz. apply String.eqb_neq in Hz. rewrite Hz. cbn [negb].
    split; intros x rs' ->; cbn; rewrite <- app_assoc; reflexivity.
Qed.

Lemma getUDPSockaddr_ipv6_zone_witness :
  getUDPSockaddr "udp" "[fe80::1%eth0]:53"
    (World (RIPAddr (mkIPAddr (Some ([0xfe; 0x80] ++ replicate 13 0 ++ [1])) 53 "eth0")
              :: [RVal 2]) []) =
    Returns (Some (SockaddrInet6 53 (2 `mod` 2 ^ 32) ([0xfe; 0x80] ++ replicate 13 0 ++ [1])),
             AF_INET6,
             Some (mkIPAddr (Some ([0xfe; 0x80] ++ replicate 13 0 ++ [1])) 53 "eth0"), None)
      (World [] ([] ++ [NetResolveUDPAddr "udp" "[fe80::1%eth0]:53"; NetInterfaceByName "eth0"])).
Proof.
  apply (proj1 (proj2 (getUDPSockaddr_ipv6_zone "udp" "[fe80::1%eth0]:53"
                         (mkIPAddr (Some ([0xfe; 0x80] ++ replicate 13 0 ++ [1])) 53 "eth0")
                         ([0xfe; 0x80] ++ replicate 13 0 ++ [1]) [RVal 2] []
                         eq_refl eq_refl ltac:(discriminate)) ltac:(discriminate)) 2 []).
  reflexivity.
Defined.

(** ** Opening the socket transports *)

Lemma sysSocket_error (family sotype proto : Z) (w w' : world) (s : Z) (e : error) :
  sysSocket family sotype proto w = Returns (s, Some e) w' → s = -1.
Proof.
  intros H. unfold sysSocket in H.
  apply bind_Returns in H as ([s1 e1] & w1 & _ & H). cbn beta iota in H.
  destruct (is_nil e1); [by apply ret_Returns in H as [[=] _] |].
  destruct (_ || _); [| by apply ret_Returns in H as [[= <-] _]].
  apply bind_Returns in H as ([s2 e2] & w2 & _ & H). cbn beta iota in H.
  apply bind_Returns in H as ([] & w3 & _ & H).
  destruct (negb (is_nil e2)); [by apply ret_Returns in H as [[= <-] _] |].
  apply bind_Returns in H as (e3 & w4 & _ & H).
  destruct (negb (is_nil e3)); [| by apply ret_Returns in H as [[=] _]].
  apply bind_Returns in H as (e4 & w5 & _ & H). by apply ret_Returns in H as [[= <-] _].
Qed.

Lemma syscall_Close_trace (fd : Z) (w w' : world) (err : option error) :
  syscall_Close fd w = Returns err w' → last (trace w') = Some (SysClose fd).
Proof. intros H. apply err_call_Returns in H as [-> _]. apply last_snoc. Qed.

(** TCP [Open] that fails.  When the address does not resolve, the
    descriptor field is left as it was; when the socket cannot be created
    it is -1; in every other failure (no-delay, keep-alive, connect,
    non-blocking) the last call of [Open] closes the socket, and the
    descriptor field still holds the number of that closed socket. *)
Theorem tcp_Open_failure (c : TCPConfig.t) (p p' : tcp.t) (e : error) (w w' : world) :
  tcp.Open c p w = Returns (p', Some e) w' →
  (e = Errorf "tcp: getTCPSockaddr %v %v: %v"
         [AStr (TCPConfig.Network c); AStr (TCPConfig.Address c)]
   ∧ tcp.fd p' = tcp.fd p)
  ∨ ((∃ e', e = Errorf "tcp: sysSocket: %v" [AErr e']) ∧ tcp.fd p' = -1)
  ∨ ((∃ e', e = Errorf "tcp: setNoDelay: %v" [AErr e']
            ∨ e = Errorf "tcp: setKeepAlive: %v" [AErr e']
            ∨ e = Errorf "tcp: Connect: %v" [AErr e']
            ∨ e = Errorf "tcp: SetNonblock: %v" [AErr e'])
     ∧ last (trace w') = Some (SysClose (tcp.fd p'))).
Proof.
  intros H. unfold tcp.Open in H.
  apply bind_Returns in H as ([[[sa family] na] e0] & w1 & _ & H). cbn beta iota zeta in H.
  destruct (negb (is_nil e0)); [apply ret_Returns in H as [[= <- <-] _]; by left |].
  apply bind_Returns in H as ([s e1] & w2 & Hs & H). cbn beta iota zeta in H.
  destruct e1 as [e1 |].
  { apply ret_Returns in H as [[= <- <-] _]. right; left.
    apply sysSocket_error in Hs. eauto. }
  right; right.
  apply bind_Returns in H as ([e2 |] & w3 & _ & H).
  { apply bind_Returns in H as (x & w4 & Hc & H). apply syscall_Close_trace in Hc.
    apply ret_Returns in H as [[= <- <-] <-]. eauto 10. }
  apply bind_Returns in H as ([e3 |] & w4 & _ & H).
  { apply bind_Returns in H as (x & w5 & Hc & H). apply syscall_Close_trace in Hc.
    apply ret_Returns in H as [[= <- <-] <-]. eauto 10. }
  apply bind_Returns in H as ([e4 |] & w5 & _ & H).
  { apply bind_Returns in H as (x & w6 & Hc & H). apply syscall_Close_trace in Hc.
    apply ret_Returns in H as [[= <- <-] <-]. eauto 10. }
  apply bind_Returns in H as ([e5 |] & w6 & _ & H).
  { apply bind_Returns in H as (x & w7 & Hc & H). apply syscall_Close_trace in Hc.
    apply ret_Returns in H as [[= <- <-] <-]. eauto 10. }
  by apply ret_Returns in H as [[=] _].
Qed.

Lemma tcp_Open_failure_witness :
  (Errorf "tcp: Connect: %v" [AErr (SyscallError "connect" (Errno ECONNREFUSED))]
   = Errorf "tcp: getTCPSockaddr %v %v: %v" [AStr "tcp"; AStr "127.0.0.1:9000"]
   ∧ 3 = -1)
  ∨ ((∃ e', Errorf "tcp: Connect: %v" [AErr (SyscallError "connect" (Errno ECONNREFUSED))]
            = Errorf "tcp: sysSocket: %v" [AErr e']) ∧ 3 = -1)
  ∨ ((∃ e', Errorf "tcp: Connect: %v" [AErr (SyscallError "connect" (Errno ECONNREFUSED))]
            = Errorf "tcp: setNoDelay: %v" [AErr e']
            ∨ Errorf "tcp: Connect: %v" [AErr (SyscallError "connect" (Errno ECONNREFUSED))]
              = Errorf "tcp: setKeepAlive: %v" [AErr e']
            ∨ Errorf "tcp: Connect: %v" [AErr (SyscallError "connect" (Errno ECONNREFUSED))]
              = Errorf "tcp: Connect: %v" [AErr e']
            ∨ Errorf "tcp: Connect: %v" [AErr (SyscallError "connect" (Errno ECONNREFUSED))]
              = Errorf "tcp: SetNonblock: %v" [AErr e'])
     ∧ last [NetResolveTCPAddr "tcp" "127.0.0.1:9000";
             socket_with_flags AF_INET SOCK_STREAM IPPROTO_TCP;
             SysSetsockoptInt 3 IPPROTO_TCP TCP_NODELAY 1;
             SysSetsockoptInt 3 SOL_SOCKET SO_KEEPALIVE 1;
             SysSetsockoptInt 3 IPPROTO_TCP TCP_KEEPINTVL 30;
             SysSetsockoptInt 3 IPPROTO_TCP TCP_KEEPIDLE 30;
             SysConnect 3 (Some example_peer);
             SysClose 3] = Some (SysClose 3)).
Proof.
  apply (tcp_Open_failure
           (TCPConfig.mk "tcp" "127.0.0.1:9000" (30 * Second) TCPNoDelay 0 0) tcp.newTCP
           (tcp.mk 3 (Some example_ip) (Some example_peer) 0 0)
           (Errorf "tcp: Connect: %v" [AErr (SyscallError "connect" (Errno ECONNREFUSED))])
           (World [RIPAddr example_ip; RVal 3; RVal 0; RVal 0; RVal 0; RVal 0;
                   RErr ECONNREFUSED; RVal 0] [])
           (World [] [NetResolveTCPAddr "tcp" "127.0.0.1:9000";
                      socket_with_flags AF_INET SOCK_STREAM IPPROTO_TCP;
                      SysSetsockoptInt 3 IPPROTO_TCP TCP_NODELAY 1;
                      SysSetsockoptInt 3 SOL_SOCKET SO_KEEPALIVE 1;
                      SysSetsockoptInt 3 IPPROTO_TCP TCP_KEEPINTVL 30;
                      SysSetsockoptInt 3 IPPROTO_TCP TCP_KEEPIDLE 30;
                      SysConnect 3 (Some example_peer);
                      SysClose 3])).
  vm_compute. reflexivity.
Defined.

Lemma setKeepAlive_ok (fd : Z) (d : Duration) (w w' : world) :
  setKeepAlive fd d w = Returns None w' →
  0 < d
  ∧ trace w' = trace w ++
      [SysSetsockoptInt fd SOL_SOCKET SO_KEEPALIVE 1;
       SysSetsockoptInt fd IPPROTO_TCP TCP_KEEPINTVL (Z.quot d Second);
       SysSetsockoptInt fd IPPROTO_TCP TCP_KEEPIDLE (Z.quot d Second)].
Proof.
  intros H. unfold setKeepAlive in H.
  destruct (Z.leb_spec d 0); [by apply ret_Returns in H as [[=] _] |]. cbn zeta in H.
  split; [done |].
  apply bind_Returns in H as (e1 & w1 & H1 & H).
  apply err_call_Returns in H1 as [T1 [-> | (x & ->)]]; cbn [is_nil negb NewSyscallError] in H;
    [| by apply ret_Returns in H as [[=] _]].
  apply bind_Returns in H as (e2 & w2 & H2 & H).
  apply err_call_Returns in H2 as [T2 [-> | (x & ->)]]; cbn [is_nil negb NewSyscallError] in H;
    [| by apply ret_Returns in H as [[=] _]].
  apply bind_Returns in H as (e3 & w3 & H3 & H).
  apply err_call_Returns in H3 as [T3 [-> | (x & ->)]]; cbn [NewSyscallError] in H;
    [| by apply ret_Returns in H as [[=] _]].
  apply ret_Returns in H as [_ <-]. rewrite T3, T2, T1, <- !app_assoc. reflexivity.
Qed.

(** TCP [Open] that succeeds.  The keep-alive duration is positive; the
    options are set before the connection is made, and the socket is
    marked non-blocking after it: the calls of [Open] end with no-delay,
    the three keep-alive options, connect and set-non-blocking, all on
    the descriptor of the endpoint.  A timeout of the configuration is
    recorded only when it is positive; otherwise the field is left as it
    was (there is no default). *)
Theorem tcp_Open_success (c : TCPConfig.t) (p p' : tcp.t) (w w' : world) :
  tcp.Open c p w = Returns (p', None) w' →
  0 < TCPConfig.KeepAlive c
  ∧ (∃ tr0, trace w' = tr0 ++
       [SysSetsockoptInt (tcp.fd p') IPPROTO_TCP TCP_NODELAY (TCPConfig.NoDelay c);
        SysSetsockoptInt (tcp.fd p') SOL_SOCKET SO_KEEPALIVE 1;
        SysSetsockoptInt (tcp.fd p') IPPROTO_TCP TCP_KEEPINTVL
          (Z.quot (TCPConfig.KeepAlive c) Second);
        SysSetsockoptInt (tcp.fd p') IPPROTO_TCP TCP_KEEPIDLE
          (Z.quot (TCPConfig.KeepAlive c) Second);
        SysConnect (tcp.fd p') (tcp.sockAddr p');
        SysSetNonblock (tcp.fd p') true])
  ∧ tcp.readTimeout p' =
      (if 0 <? TCPConfig.ReadTimeout c then TCPConfig.ReadTimeout c else tcp.readTimeout p)
  ∧ tcp.writeTimeout p' =
      (if 0 <? TCPConfig.WriteTimeout c then TCPConfig.WriteTimeout c else tcp.writeTimeout p).
Proof.
  intros H. unfold tcp.Open in H.
  apply bind_Returns in H as ([[[sa family] na] e0] & w1 & _ & H). cbn beta iota zeta in H.
  destruct (negb (is_nil e0)); [by apply ret_Returns in H as [[=] _] |].
  apply bind_Returns in H as ([s e1] & w2 & _ & H). cbn beta iota zeta in H.
  destruct e1 as [e1 |]; [by apply ret_Returns in H as [[=] _] |].
  apply bind_Returns in H as ([e2 |] & w3 & H2 & H).
  { apply bind_Returns in H as (x & w4 & _ & H). by apply ret_Returns in H as [[=] _]. }
  apply bind_Returns in H2 as (e2 & w3' & H2 & H2').
  apply err_call_Returns in H2 as [T2 _]. apply ret_Returns in H2' as [_ <-].
  apply bind_Returns in H as ([e3 |] & w4 & H3 & H).
  { apply bind_Returns in H as (x & w5 & _ & H). by apply ret_Returns in H as [[=] _]. }
  apply setKeepAlive_ok in H3 as [Hk T3].
  apply bind_Returns in H as ([e4 |] & w5 & H4 & H).
  { apply bind_Returns in H as (x & w6 & _ & H). by apply ret_Returns in H as [[=] _]. }
  apply err_call_Returns in H4 as [T4 _].
  apply bind_Returns in H as ([e5 |] & w6 & H5 & H).
  { apply bind_Returns in H as (x & w7 & _ & H). by apply ret_Returns in H as [[=] _]. }
  apply err_call_Returns in H5 as [T5 _].
  apply ret_Returns in H as [[= <-] <-].
  split; [done |]. split.
  - exists (trace w2). rewrite T5, T4, T3, T2, <- !app_assoc.
    destruct (0 <? TCPConfig.ReadTimeout c), (0 <? TCPConfig.WriteTimeout c); reflexivity.
  - destruct (0 <? TCPConfig.ReadTimeout c), (0 <? TCPConfig.WriteTimeout c); done.
Qed.

Lemma tcp_Open_success_witness :
  0 < 30 * Second
  ∧ (∃ tr0,
       [NetResolveTCPAddr "tcp" "127.0.0.1:9000";
        socket_with_flags AF_INET SOCK_STREAM IPPROTO_TCP;
        SysSetsockoptInt 3 IPPROTO_TCP TCP_NODELAY 1;
        SysSetsockoptInt 3 SOL_SOCKET SO_KEEPALIVE 1;
        SysSetsockoptInt 3 IPPROTO_TCP TCP_KEEPINTVL 30;
        SysSetsockoptInt 3 IPPROTO_TCP TCP_KEEPIDLE 30;
        SysConnect 3 (Some example_peer);
        SysSetNonblock 3 true] = tr0 ++
       [SysSetsockoptInt 3 IPPROTO_TCP TCP_NODELAY TCPNoDelay;
        SysSetsockoptInt 3 SOL_SOCKET SO_KEEPALIVE 1;
        SysSetsockoptInt 3 IPPROTO_TCP TCP_KEEPINTVL (Z.quot (30 * Second) Second);
        SysSetsockoptInt 3 IPPROTO_TCP TCP_KEEPIDLE (Z.quot (30 * Second) Second);
        SysConnect 3 (Some example_peer);
        SysSetNonblock 3 true])
  ∧ 2 * Second = (if 0 <? 2 * Second then 2 * Second else 0)
  ∧ 0 = (if 0 <? 0 then 0 else 0).
Proof.
  apply (tcp_Open_success
           (TCPConfig.mk "tcp" "127.0.0.1:9000" (30 * Second) TCPNoDelay (2 * Second) 0)
           tcp.newTCP
           (tcp.mk 3 (Some example_ip) (Some example_peer) (2 * Second) 0)
           (World [RIPAddr example_ip; RVal 3; RVal 0; RVal 0; RVal 0; RVal 0; RVal 0; RVal 0] [])
           (World [] [NetResolveTCPAddr "tcp" "127.0.0.1:9000";
                      socket_with_flags AF_INET SOCK_STREAM IPPROTO_TCP;
                      SysSetsockoptInt 3 IPPROTO_TCP TCP_NODELAY 1;
                      SysSetsockoptInt 3 SOL_SOCKET SO_KEEPALIVE 1;
                      SysSetsockoptInt 3 IPPROTO_TCP TCP_KEEPINTVL 30;
                      SysSetsockoptInt 3 IPPROTO_TCP TCP_KEEPIDLE 30;
                      SysConnect 3 (Some example_peer);
                      SysSetNonblock 3 true])).
  vm_compute. reflexivity.
Defined.

Lemma getUDPSockaddr_ok (proto addr : string) (w w' : world)
    (sa : option Sockaddr) (family : Z) (na : option IPAddr) :
  getUDPSockaddr proto addr w = Returns (sa, family, na, None) w' →
  is_Some na ∧ is_Some sa.
Proof.
  intros H. unfold getUDPSockaddr in H.
  apply bind_Returns in H as ([[a |] e] & w1 & H1 & H); cbn beta iota in H.
  - destruct (determineUDPProto proto a) as [version e'] eqn:Hv.
    destruct e'; cbn [is_nil negb] in H; [by apply ret_Returns in H as [[=] _] |].
    apply bind_Returns in H as ([[sa' fam'] e''] & w2 & H2 & H). cbn beta iota in H.
    apply ret_Returns in H as [[= <- <- <- ->] _]. split; [eauto |].
    apply determineProto_version in Hv.
    eapply sockaddr_of_shape in H2 as [(? & -> & _) | (? & ? & -> & _)]; eauto.
    destruct Hv as [-> | [-> | Hv]]; [in_list | in_list | exact Hv].
  - apply ret_Returns in H as [[= <- <- <- ->] _].
    apply bind_Returns in H1 as (r & w0 & _ & H1).
    destruct r; try discriminate; by apply ret_Returns in H1 as [[=] _].
Qed.

(** UDP [Open] on an endpoint without a descriptor.  If it fails, the
    endpoint is still without one, and [Close] then makes no call.  If it
    succeeds, the endpoint holds the resolved address and a socket
    address for it, so that [Write] has a peer, and a timeout is recorded
    only when it is positive. *)
Theorem udp_Open_unopened (c : UDPConfig.t) (p p' : udp.t) (err : option error)
    (w w' : world) :
  udp.fd p = -1 →
  udp.Open c p w = Returns (p', err) w' →
  (err ≠ None → udp.fd p' = -1 ∧ udp.Close p' w' = Returns (p', None) w')
  ∧ (err = None →
     is_Some (udp.netAddr p') ∧ is_Some (udp.sockAddr p')
     ∧ udp.readTimeout p' =
         (if 0 <? UDPConfig.ReadTimeout c then UDPConfig.ReadTimeout c else udp.readTimeout p)
     ∧ udp.writeTimeout p' =
         (if 0 <? UDPConfig.WriteTimeout c then UDPConfig.WriteTimeout c
          else udp.writeTimeout p)).
Proof.
  intros Hfd H. unfold udp.Open in H.
  apply bind_Returns in H as ([[[sa family] na] e0] & w1 & H0 & H). cbn beta iota zeta in H.
  destruct e0 as [e0 |]; cbn [is_nil negb] in H.
  { apply ret_Returns in H as [[= <- <-] <-]. split; [| done]. intros _.
    cbn [udp.fd]. split; [done |]. unfold udp.Close. cbn [udp.fd]. rewrite Hfd. reflexivity. }
  apply getUDPSockaddr_ok in H0 as [Hna Hsa].
  apply bind_Returns in H as ([s e1] & w2 & Hs & H). cbn beta iota zeta in H.
  destruct e1 as [e1 |].
  { apply ret_Returns in H as [[= <- <-] <-]. split; [| done]. intros _.
    apply sysSocket_error in Hs as ->. split; reflexivity. }
  apply ret_Returns in H as [[= <- <-] <-]. split; [done |]. intros _.
  destruct (0 <? UDPConfig.ReadTimeout c), (0 <? UDPConfig.WriteTimeout c); done.
Qed.

Lemma udp_Open_unopened_witness :
  (Some (Errorf "udp: sysSocket: %v" [AErr (SyscallError "socket" (Errno EMFILE))]) ≠ None →
   udp.fd (udp.mk (-1) (Some example_ip) (Some example_peer) 0 0) = -1
   ∧ udp.Close (udp.mk (-1) (Some example_ip) (Some example_peer) 0 0)
       (World [] [NetResolveUDPAddr "udp" "127.0.0.1:9000";
                  socket_with_flags AF_INET SOCK_DGRAM IPPROTO_UDP]) =
     Returns (udp.mk (-1) (Some example_ip) (Some example_peer) 0 0, None)
       (World [] [NetResolveUDPAddr "udp" "127.0.0.1:9000";
                  socket_with_flags AF_INET SOCK_DGRAM IPPROTO_UDP]))
  ∧ (Some (Errorf "udp: sysSocket: %v" [AErr (SyscallError "socket" (Errno EMFILE))]) = None →
     is_Some (udp.netAddr (udp.mk (-1) (Some example_ip) (Some example_peer) 0 0))
     ∧ is_Some (udp.sockAddr (udp.mk (-1) (Some example_ip) (Some example_peer) 0 0))
     ∧ udp.readTimeout (udp.mk (-1) (Some example_ip) (Some example_peer) 0 0) =
         (if 0 <? UDPConfig.ReadTimeout example_udp_config
          then UDPConfig.ReadTimeout example_udp_config else udp.readTimeout udp.newUDP)
     ∧ udp.writeTimeout (udp.mk (-1) (Some example_ip) (Some example_peer) 0 0) =
         (if 0 <? UDPConfig.WriteTimeout example_udp_config
          then UDPConfig.WriteTimeout example_udp_config else udp.writeTimeout udp.newUDP)).
Proof.
  apply (udp_Open_unopened example_udp_config udp.newUDP
           (udp.mk (-1) (Some example_ip) (Some example_peer) 0 0)
           (Some (Errorf "udp: sysSocket: %v" [AErr (SyscallError "socket" (Errno EMFILE))]))
           (World [RIPAddr example_ip; RErr EMFILE] [])
           (World [] [NetResolveUDPAddr "udp" "127.0.0.1:9000";
                      socket_with_flags AF_INET SOCK_DGRAM IPPROTO_UDP])).
  - reflexivity.
  - vm_compute. reflexivity.
Defined.

(** Unix [Open] that fails.  When the address does not resolve to a
    "unix" one, the descriptor field is left as it was; when the socket
    cannot be created it is -1; when the connection fails, the connect is
    the last call of [Open]: the socket is not closed, and the endpoint
    holds its descriptor. *)
Theorem unixsocket_Open_failure (c : UnixSocketConfig.t) (p p' : unixsocket.t) (e : error)
    (w w' : world) :
  unixsocket.Open c p w = Returns (p', Some e) w' →
  (e = Errorf "unixsocket: getUnixSockaddr %v %v: %v"
         [AStr (UnixSocketConfig.Network c); AStr (UnixSocketConfig.Address c)]
   ∧ unixsocket.fd p' = unixsocket.fd p)
  ∨ ((∃ e', e = Errorf "unixsocket: sysSocket: %v" [AErr e']) ∧ unixsocket.fd p' = -1)
  ∨ ((∃ e', e = Errorf "tcp: Connect: %v" [AErr (SyscallError "connect" e')])
     ∧ last (trace w') = Some (SysConnect (unixsocket.fd p') (unixsocket.sockAddr p'))).
Proof.
  intros H. unfold unixsocket.Open in H.
  apply bind_Returns in H as ([[[sa family] na] e0] & w1 & _ & H). cbn beta iota zeta in H.
  destruct (negb (is_nil e0)); [apply ret_Returns in H as [[= <- <-] _]; by left |].
  apply bind_Returns in H as ([s e1] & w2 & Hs & H). cbn beta iota zeta in H.
  destruct e1 as [e1 |].
  { apply ret_Returns in H as [[= <- <-] _]. right; left.
    apply sysSocket_error in Hs. eauto. }
  right; right.
  apply bind_Returns in H as ([e2 |] & w3 & Hc & H).
  - apply err_call_Returns in Hc as [Tc _].
    apply ret_Returns in H as [[= <- <-] <-]. split; [eauto |].
    rewrite Tc. apply last_snoc.
  - by apply ret_Returns in H as [[=] _].
Qed.

Lemma unixsocket_Open_failure_witness :
  (Errorf "tcp: Connect: %v" [AErr (SyscallError "connect" (Errno ECONNREFUSED))]
   = Errorf "unixsocket: getUnixSockaddr %v %v: %v" [AStr "unix"; AStr "/tmp/a.sock"]
   ∧ 4 = -1)
  ∨ ((∃ e', Errorf "tcp: Connect: %v" [AErr (SyscallError "connect" (Errno ECONNREFUSED))]
            = Errorf "unixsocket: sysSocket: %v" [AErr e']) ∧ 4 = -1)
  ∨ ((∃ e', Errorf "tcp: Connect: %v" [AErr (SyscallError "connect" (Errno ECONNREFUSED))]
            = Errorf "tcp: Connect: %v" [AErr (SyscallError "connect" e')])
     ∧ last [NetResolveUnixAddr "unix" "/tmp/a.sock";
             socket_with_flags AF_UNIX SOCK_STREAM 0;
             SysConnect 4 (Some (SockaddrUnix "/tmp/a.sock"))]
       = Some (SysConnect 4 (Some (SockaddrUnix "/tmp/a.sock")))).
Proof.
  apply (unixsocket_Open_failure (UnixSocketConfig.mk "unix" "/tmp/a.sock" 0 0)
           unixsocket.newUnixSocket
           (unixsocket.mk 4 (Some (mkUnixAddr "/tmp/a.sock" "unix"))
              (Some (SockaddrUnix "/tmp/a.sock")) 0 0)
           (Errorf "tcp: Connect: %v" [AErr (SyscallError "connect" (Errno ECONNREFUSED))])
           (World [RUnixAddr (mkUnixAddr "/tmp/a.sock" "unix"); RVal 4; RErr ECONNREFUSED] [])
           (World [] [NetResolveUnixAddr "unix" "/tmp/a.sock";
                      socket_with_flags AF_UNIX SOCK_STREAM 0;
                      SysConnect 4 (Some (SockaddrUnix "/tmp/a.sock"))])).
  vm_compute. reflexivity.
Defined.

(** ** Closing and opening the serial line *)

Lemma restoreTermios_run (p p1 : serial.t) (w w1 : world) :
  serial.restoreTermios p w = Returns p1 w1 →
  serial.fd p1 = serial.fd p
  ∧ match serial.oldTermios p with
    | None => trace w1 = trace w
    | Some old => ∃ calls, trace w1 = trace w ++ SysTcsetattr (serial.fd p) old :: calls
    end.
Proof.
  unfold serial.restoreTermios. destruct (serial.oldTermios p) as [old |].
  - intros H. apply bind_Returns in H as (e & w2 & H2 & H).
    apply err_call_Returns in H2 as [T2 _]. destruct e as [e |].
    + apply bind_Returns in H as ([] & w3 & H3 & H). injection H3 as <-.
      apply ret_Returns in H as [<- <-]. split; [done |]. cbn [trace].
      rewrite T2, <- app_assoc. eauto.
    + apply ret_Returns in H as [<- <-]. split; [done |]. rewrite T2. eauto.
  - intros H. by apply ret_Returns in H as [<- <-].
Qed.

(** Serial [Close] of an endpoint that holds a descriptor.  The
    attributes captured at [Open], if any, are applied first; whatever the
    kernel answers to that (a refusal is only logged), the descriptor is
    then closed by the last call.  The endpoint is left without descriptor
    and without captured attributes, and the error returned is the answer
    of the kernel to the close, and to nothing else.  A second [Close]
    then makes no call and returns nil. *)
Theorem serial_Close_releases (p : serial.t) (rs : list resp) (tr : list call) :
  serial.fd p ≠ -1 →
  (serial.oldTermios p = None →
   ∀ r, is_answer r →
     serial.Close p (World (r :: rs) tr) =
     Returns (serial.with_oldTermios None (serial.with_fd (-1) p), answer_error r)
       (World rs (tr ++ [SysClose (serial.fd p)])))
  ∧ (∀ old r1 r2,
       serial.oldTermios p = Some old → is_answer r1 → is_answer r2 →
       serial.Close p (World (r1 :: r2 :: rs) tr) =
       Returns (serial.with_oldTermios None (serial.with_fd (-1) p), answer_error r2)
         (World rs
            (tr ++ SysTcsetattr (serial.fd p) old
                :: match r1 with
                   | RErr _ => [LogPrintf "serial: could not restore setting: %v\n"]
                   | _ => []
                   end
                ++ [SysClose (serial.fd p)])))
  ∧ (∀ w,
       serial.Close (serial.with_oldTermios None (serial.with_fd (-1) p)) w =
       Returns (serial.with_oldTermios None (serial.with_fd (-1) p), None) w).
Proof.
  intros Hfd. destruct p as [fd addr old0 rt wt]. cbn in Hfd. apply Z.eqb_neq in Hfd.
  unfold serial.Close, serial.restoreTermios. cbn [serial.fd serial.oldTermios].
  split; [| split].
  - intros -> r [v [-> | ->]]; rewrite Hfd; reflexivity.
  - intros old r1 r2 -> [v1 [-> | ->]] [v2 [-> | ->]]; rewrite Hfd; cbn;
      rewrite <- ?app_assoc; reflexivity.
  - intros w. reflexivity.
Qed.

Lemma serial_Close_releases_witness :
  (serial.oldTermios (serial.mk 3 "/dev/ttyS0" (Some Termios_zero) Second Second) = None →
   ∀ r, is_answer r →
     serial.Close (serial.mk 3 "/dev/ttyS0" (Some Termios_zero) Second Second)
       (World (r :: []) []) =
     Returns (serial.with_oldTermios None
                (serial.with_fd (-1)
                   (serial.mk 3 "/dev/ttyS0" (Some Termios_zero) Second Second)),
              answer_error r)
       (World []
          ([] ++ [SysClose (serial.fd (serial.mk 3 "/dev/ttyS0" (Some Termios_zero)
                                         Second Second))])))
  ∧ (∀ old r1 r2,
       serial.oldTermios (serial.mk 3 "/dev/ttyS0" (Some Termios_zero) Second Second)
       = Some old →
       is_answer r1 → is_answer r2 →
       serial.Close (serial.mk 3 "/dev/ttyS0" (Some Termios_zero) Second Second)
         (World (r1 :: r2 :: []) []) =
       Returns (serial.with_oldTermios None
                  (serial.with_fd (-1)
                     (serial.mk 3 "/dev/ttyS0" (Some Termios_zero) Second Second)),
                answer_error r2)
         (World []
            ([] ++ SysTcsetattr
                     (serial.fd (serial.mk 3 "/dev/ttyS0" (Some Termios_zero) Second Second))
                     old
                :: match r1 with
                   | RErr _ => [LogPrintf "serial: could not restore setting: %v\n"]
                   | _ => []
                   end
                ++ [SysClose (serial.fd (serial.mk 3 "/dev/ttyS0" (Some Termios_zero)
                                           Second Second))])))
  ∧ (∀ w,
       serial.Close
         (serial.with_oldTermios None
            (serial.with_fd (-1) (serial.mk 3 "/dev/ttyS0" (Some Termios_zero) Second Second)))
         w =
       Returns (serial.with_oldTermios None
                  (serial.with_fd (-1)
                     (serial.mk 3 "/dev/ttyS0" (Some Termios_zero) Second Second)),
                None) w).
Proof.
  apply (serial_Close_releases (serial.mk 3 "/dev/ttyS0" (Some Termios_zero) Second Second)
           [] []).
  discriminate.
Defined.

(** A restore that the kernel refuses and a close that it accepts: the
    refusal is logged and [Close] returns nil. *)
Example serial_Close_restore_refused :
  serial.Close (serial.mk 3 "/dev/ttyS0" (Some Termios_zero) Second Second)
    (World [RErr EBADF; RVal 0] []) =
  Returns (serial.mk (-1) "/dev/ttyS0" None Second Second, None)
    (World [] [SysTcsetattr 3 Termios_zero;
               LogPrintf "serial: could not restore setting: %v\n"; SysClose 3]).
Proof. reflexivity. Qed.

Lemma backupTermios_run (p p1 : serial.t) (w w1 : world) :
  serial.backupTermios p w = Returns p1 w1 →
  serial.fd p1 = serial.fd p
  ∧ serial.address p1 = serial.address p
  ∧ serial.oldTermios p1 =
      match head (script w) with
      | Some (RTermios old) => Some old
      | _ => serial.oldTermios p
      end
  ∧ ∃ calls, trace w1 = trace w ++ SysTcgetattr (serial.fd p) :: calls.
Proof.
  unfold serial.backupTermios, tcgetattr. intros H.
  apply bind_Returns in H as ([old e] & w2 & H2 & H).
  apply bind_Returns in H2 as (r & w3 & H3 & H2). apply sys_Returns in H3 as [S3 T3].
  rewrite S3. cbn [head].
  destruct r; try discriminate; apply ret_Returns in H2 as [[= <- <-] <-].
  - apply bind_Returns in H as ([] & w4 & H4 & H). injection H4 as <-.
    apply ret_Returns in H as [<- <-]. repeat split. cbn [trace]. rewrite T3, <- app_assoc. eauto.
  - apply ret_Returns in H as [<- <-]. repeat split. rewrite T3. eauto.
Qed.

Lemma setTermios_run (p : serial.t) (t : Termios) (err : option error) (w w1 : world) :
  serial.setTermios p t w = Returns err w1 →
  trace w1 = trace w ++ [SysTcsetattr (serial.fd p) t]
  ∧ (err = None
     ∨ ∃ e, err = Some (Errorf "serial: could not set setting: %v" [AErr (Errno e)])).
Proof.
  unfold serial.setTermios, tcsetattr. intros H.
  apply bind_Returns in H as (e & w2 & H2 & H). apply err_call_Returns in H2 as [T2 He].
  destruct He as [-> | [e0 ->]]; apply ret_Returns in H as [<- <-]; eauto.
Qed.

Lemma enableRS485_trace (fd : Z) (config : RS485Config.t) (err : option error) (w w1 : world) :
  enableRS485 fd config w = Returns err w1 →
  ∃ calls, trace w1 = trace w ++ calls.
Proof.
  unfold enableRS485. destruct (RS485Config.Enabled config); cbn [negb].
  - intros H. apply bind_Returns in H as ([r errno] & w2 & H2 & H).
    apply bind_Returns in H2 as (r0 & w3 & H3 & H2). apply sys_Returns in H3 as [_ T3].
    assert (w3 = w2) as ->.
    { destruct r0; try discriminate; by apply ret_Returns in H2 as [_ <-]. }
    assert (w2 = w1) as ->.
    { destruct (negb (errno =? 0)); [| destruct (negb (r =? 0))];
        by apply ret_Returns in H as [_ <-]. }
    eauto.
  - intros H. apply ret_Returns in H as [_ <-]. exists []. by rewrite app_nil_r.
Qed.

(** Every run of serial [Open] that returns nil: the configuration is one
    that [newTermios] accepts; the device is opened with the four flags,
    its attributes are asked for and those of [newTermios] are applied on
    the descriptor the endpoint holds; the address is recorded; and each
    timeout is that of the configuration when positive, else 5000 ms for
    reading and 1000 ms for writing, so that both are positive. *)
Theorem serial_Open_success (baudRates : Z → option Z) (c : SerialConfig.t)
    (p p' : serial.t) (w w' : world) :
  serial.Open baudRates c p w = Returns (p', None) w' →
  ∃ t calls,
    newTermios baudRates c = (t, None)
    ∧ trace w' = trace w ++ SysOpen (SerialConfig.Address c) open_flags 0x1b6
                   :: SysTcgetattr (serial.fd p') :: calls
    ∧ SysTcsetattr (serial.fd p') t ∈ calls
    ∧ serial.address p' = SerialConfig.Address c
    ∧ serial.readTimeout p' =
        (if 0 <? SerialConfig.ReadTimeout c then SerialConfig.ReadTimeout c
         else 5000 * Millisecond)
    ∧ serial.writeTimeout p' =
        (if 0 <? SerialConfig.WriteTimeout c then SerialConfig.WriteTimeout c
         else 1000 * Millisecond)
    ∧ 0 < serial.readTimeout p' ∧ 0 < serial.writeTimeout p'.
Proof.
  unfold serial.Open. generalize (length (script w)). intros n H. cbn [serial.Open_fuel] in H.
  apply bind_Returns in H as ([fd' oerr] & w1 & H1 & H).
  apply int_call_Returns in H1 as [T1 He]. fold open_flags in T1.
  destruct He as [-> | (e & -> & ->)].
  2: { destruct (is_errno (Some (Errno e)) EINTR).
       - apply bind_Returns in H as ([p2 e2] & w2 & _ & H). by apply ret_Returns in H as [[=] _].
       - destruct (is_errno _ ENFILE || is_errno _ EMFILE);
           by apply ret_Returns in H as [[=] _]. }
  destruct (newTermios baudRates c) as [t nerr] eqn:Ht.
  destruct nerr as [ne |]; cbn [is_nil negb] in H.
  { by apply ret_Returns in H as [[=] _]. }
  apply bind_Returns in H as (p1 & w2 & H2 & H).
  apply backupTermios_run in H2 as (F2 & A2 & _ & calls2 & T2).
  apply bind_Returns in H as (serr & w3 & H3 & H). apply setTermios_run in H3 as [T3 Hs].
  destruct Hs as [-> | [e ->]]; cbn [is_nil negb] in H.
  2: { apply bind_Returns in H as (e2 & w4 & _ & H). by apply ret_Returns in H as [[=] _]. }
  apply bind_Returns in H as (rerr & w4 & H4 & H). apply enableRS485_trace in H4 as [calls4 T4].
  destruct rerr as [re |]; cbn [is_nil negb] in H.
  { apply bind_Returns in H as ([p5 e5] & w5 & _ & H). by apply ret_Returns in H as [[=] _]. }
  apply ret_Returns in H as [[= <-] <-].
  exists t, (calls2 ++ SysTcsetattr (serial.fd p1) t :: calls4).
  split; [done |]. split; [| split; [| split; [| split; [| split]]]].
  - destruct (0 <? SerialConfig.WriteTimeout c), (0 <? SerialConfig.ReadTimeout c);
      cbn; rewrite T4, T3, T2, T1, F2; cbn; rewrite <- !app_assoc; reflexivity.
  - destruct (0 <? SerialConfig.WriteTimeout c), (0 <? SerialConfig.ReadTimeout c);
      cbn; apply elem_of_app; right; left.
  - destruct (0 <? SerialConfig.WriteTimeout c), (0 <? SerialConfig.ReadTimeout c);
      cbn; by rewrite A2.
  - destruct (0 <? SerialConfig.WriteTimeout c), (0 <? SerialConfig.ReadTimeout c); reflexivity.
  - destruct (0 <? SerialConfig.WriteTimeout c), (0 <? SerialConfig.ReadTimeout c); reflexivity.
  - destruct (Z.ltb_spec 0 (SerialConfig.WriteTimeout c)),
      (Z.ltb_spec 0 (SerialConfig.ReadTimeout c)); cbn; unfold Millisecond; lia.
Qed.

Lemma serial_Open_success_witness :
  ∃ t calls,
    newTermios example_baudRates example_serial = (t, None)
    ∧ trace (World [] [SysOpen "/dev/ttyS0" open_flags 0x1b6; SysTcgetattr 3;
                       SysTcsetattr 3 (mkTermios 0 0 0x8bd 0 0 (replicate 32 0) 0xd 0xd)])
      = trace (World [RVal 3; RTermios Termios_zero; RVal 0] [])
          ++ SysOpen (SerialConfig.Address example_serial) open_flags 0x1b6
          :: SysTcgetattr
               (serial.fd (serial.mk 3 "/dev/ttyS0" (Some Termios_zero)
                             (5000 * Millisecond) (1000 * Millisecond)))
          :: calls
    ∧ SysTcsetattr
        (serial.fd (serial.mk 3 "/dev/ttyS0" (Some Termios_zero)
                      (5000 * Millisecond) (1000 * Millisecond))) t ∈ calls
    ∧ serial.address (serial.mk 3 "/dev/ttyS0" (Some Termios_zero)
                        (5000 * Millisecond) (1000 * Millisecond))
      = SerialConfig.Address example_serial
    ∧ serial.readTimeout (serial.mk 3 "/dev/ttyS0" (Some Termios_zero)
                            (5000 * Millisecond) (1000 * Millisecond)) =
        (if 0 <? SerialConfig.ReadTimeout example_serial
         then SerialConfig.ReadTimeout example_serial
         else 5000 * Millisecond)
    ∧ serial.writeTimeout (serial.mk 3 "/dev/ttyS0" (Some Termios_zero)
                             (5000 * Millisecond) (1000 * Millisecond)) =
        (if 0 <? SerialConfig.WriteTimeout example_serial
         then SerialConfig.WriteTimeout example_serial
         else 1000 * Millisecond)
    ∧ 0 < serial.readTimeout (serial.mk 3 "/dev/ttyS0" (Some Termios_zero)
                                (5000 * Millisecond) (1000 * Millisecond))
    ∧ 0 < serial.writeTimeout (serial.mk 3 "/dev/ttyS0" (Some Termios_zero)
                                 (5000 * Millisecond) (1000 * Millisecond)).
Proof.
  apply (serial_Open_success example_baudRates example_serial serial.newSerial
           (serial.mk 3 "/dev/ttyS0" (Some Termios_zero)
              (5000 * Millisecond) (1000 * Millisecond))
           (World [RVal 3; RTermios Termios_zero; RVal 0] [])
           (World [] [SysOpen "/dev/ttyS0" open_flags 0x1b6; SysTcgetattr 3;
                      SysTcsetattr 3 (mkTermios 0 0 0x8bd 0 0 (replicate 32 0) 0xd 0xd)])).
  vm_compute. reflexivity.
Defined.

Lemma enableRS485_errors (fd : Z) (config : RS485Config.t) (err : option error) (w w1 : world) :
  enableRS485 fd config w = Returns err w1 →
  err = None
  ∨ (∃ en, err = Some (SyscallError "SYS_IOCTL (RS485)" (Errno en)))
  ∨ err = Some (ErrorString "serial: unknown error from SYS_IOCTL (RS485)").
Proof.
  unfold enableRS485. destruct (RS485Config.Enabled config); cbn [negb].
  - intros H. apply bind_Returns in H as ([r errno] & w2 & _ & H).
    destruct (negb (errno =? 0)); [| destruct (negb (r =? 0))];
      apply ret_Returns in H as [<- _]; cbn; eauto.
  - intros H. apply ret_Returns in H as [<- _]. eauto.
Qed.

(** [enableRS485].  With RS-485 disabled no call is made and nil is
    returned.  With RS-485 enabled every run that returns has made exactly
    one ioctl [TIOCSRS485] on the descriptor; in the flags word bit 0 is
    set, bits 1, 2 and 4 are the three options of the configuration and no
    other bit is set; the two delays follow as configured and the five
    remaining words are zero; and nil is returned exactly when the kernel
    answered 0. *)
Theorem enableRS485_request (fd : Z) (config : RS485Config.t) (w : world) :
  (RS485Config.Enabled config = false → enableRS485 fd config w = Returns None w)
  ∧ (RS485Config.Enabled config = true →
     ∀ err w', enableRS485 fd config w = Returns err w' →
       ∃ flags r,
         script w = r :: script w'
         ∧ trace w' = trace w ++
             [SysIoctl fd rs485Tiocs
                [flags; RS485Config.DelayRtsBeforeSend config;
                 RS485Config.DelayRtsAfterSend config; 0; 0; 0; 0; 0]]
         ∧ Z.testbit flags 0 = true
         ∧ Z.testbit flags 1 = RS485Config.RtsHighDuringSend config
         ∧ Z.testbit flags 2 = RS485Config.RtsHighAfterSend config
         ∧ Z.testbit flags 4 = RS485Config.RxDuringTx config
         ∧ Z.testbit flags 3 = false
         ∧ 0 <= flags < 32
         ∧ (err = None ↔ r = RVal 0)).
Proof.
  unfold enableRS485. split; intros ->; cbn [negb]; [reflexivity |].
  intros err w' H. apply bind_Returns in H as ([r errno] & w2 & H2 & H).
  apply bind_Returns in H2 as (r0 & w3 & H3 & H2). apply sys_Returns in H3 as [S3 T3].
  eexists _, r0.
  assert (w3 = w' ∧ (err = None ↔ r0 = RVal 0)) as [-> Herr].
  { destruct r0 as [v | en | | | | | |]; try discriminate;
      apply ret_Returns in H2 as [[= <- <-] <-].
    - cbn in H. destruct (Z.eqb_spec v 0) as [-> | Hv]; cbn in H;
        apply ret_Returns in H as [<- <-]; (split; [done |]); split; congruence.
    - destruct (Z.eqb_spec en 0) as [-> | Hv]; cbn in H;
        apply ret_Returns in H as [<- <-]; (split; [done |]); split; discriminate. }
  split; [exact S3 |]. split; [exact T3 |].
  destruct (RS485Config.RtsHighDuringSend config), (RS485Config.RtsHighAfterSend config),
    (RS485Config.RxDuringTx config); vm_compute; (repeat split; try discriminate); apply Herr.
Qed.

Lemma enableRS485_request_witness :
  ∃ flags r,
    script (World [RVal 0] []) = r :: script (World [] [SysIoctl 3 rs485Tiocs [3; 0; 0; 0; 0; 0; 0; 0]])
    ∧ trace (World [] [SysIoctl 3 rs485Tiocs [3; 0; 0; 0; 0; 0; 0; 0]]) =
        trace (World [RVal 0] []) ++
          [SysIoctl 3 rs485Tiocs
             [flags; RS485Config.DelayRtsBeforeSend rs485_on;
              RS485Config.DelayRtsAfterSend rs485_on; 0; 0; 0; 0; 0]]
    ∧ Z.testbit flags 0 = true
    ∧ Z.testbit flags 1 = RS485Config.RtsHighDuringSend rs485_on
    ∧ Z.testbit flags 2 = RS485Config.RtsHighAfterSend rs485_on
    ∧ Z.testbit flags 4 = RS485Config.RxDuringTx rs485_on
    ∧ Z.testbit flags 3 = false
    ∧ 0 <= flags < 32
    ∧ (@None error = None ↔ r = RVal 0).
Proof.
  apply (proj2 (enableRS485_request 3 rs485_on (World [RVal 0] [])) eq_refl None
           (World [] [SysIoctl 3 rs485Tiocs [3; 0; 0; 0; 0; 0; 0; 0]])).
  reflexivity.
Defined.

(** Every run of serial [Open] that returns an error other than the
    interruption of the device open ends in one of three ways.  The device
    could not be opened: that call is the only one, the endpoint holds
    descriptor -1, and the message names too many open files exactly for
    ENFILE and EMFILE.  The configuration is refused by [newTermios]: the
    device open is the only call, so the descriptor the endpoint holds is
    not released.  Or a later step failed (applying the attributes, or the
    RS-485 request): the endpoint is left with descriptor -1. *)
Theorem serial_Open_failure (baudRates : Z → option Z) (c : SerialConfig.t)
    (p p' : serial.t) (e : error) (w w' : world) :
  serial.Open baudRates c p w = Returns (p', Some e) w' →
  e ≠ Errno EINTR →
  (∃ en,
     e = Errorf (if bool_decide (en = ENFILE ∨ en = EMFILE)
                 then "serial: open serial %v: %v (too many file opened)"
                 else "serial: open serial %v: %v")
           [AStr (SerialConfig.Address c); AErr (Errno en)]
     ∧ p' = opened c (-1) p
     ∧ trace w' = trace w ++ [SysOpen (SerialConfig.Address c) open_flags 0x1b6])
  ∨ (∃ t fd,
       newTermios baudRates c = (t, Some e)
       ∧ p' = opened c fd p
       ∧ script w = RVal fd :: script w'
       ∧ trace w' = trace w ++ [SysOpen (SerialConfig.Address c) open_flags 0x1b6])
  ∨ (∃ t calls,
       newTermios baudRates c = (t, None)
       ∧ serial.fd p' = -1
       ∧ trace w' = trace w ++ SysOpen (SerialConfig.Address c) open_flags 0x1b6 :: calls
       ∧ ((∃ en, e = Errorf "serial: could not set setting: %v" [AErr (Errno en)])
          ∨ (∃ en, e = SyscallError "SYS_IOCTL (RS485)" (Errno en))
          ∨ e = ErrorString "serial: unknown error from SYS_IOCTL (RS485)")).
Proof.
  unfold serial.Open. generalize (length (script w)). intros n H Hne.
  cbn [serial.Open_fuel] in H.
  apply bind_Returns in H as ([fd' oerr] & w1 & H1 & H). fold open_flags in H1.
  unfold syscall_Open in H1. apply bind_Returns in H1 as (r & w0 & H0 & H1).
  apply sys_Returns in H0 as [S0 T0].
  destruct r as [v | en | | | | | |]; try discriminate;
    apply ret_Returns in H1 as [[= <- <-] <-].
  - right. destruct (newTermios baudRates c) as [t nerr] eqn:Ht.
    destruct nerr as [ne |]; cbn [is_nil negb] in H.
    { apply ret_Returns in H as [[= <- <-] <-]. left. by exists t, v. }
    right. exists t.
    apply bind_Returns in H as (p1 & w2 & H2 & H).
    apply backupTermios_run in H2 as (F2 & A2 & _ & calls2 & T2).
    apply bind_Returns in H as (serr & w3 & H3 & H). apply setTermios_run in H3 as [T3 Hs].
    destruct Hs as [-> | [en ->]]; cbn [is_nil negb] in H.
    + apply bind_Returns in H as (rerr & w4 & H4 & H).
      pose proof (enableRS485_errors _ _ _ _ _ H4) as Hr.
      apply enableRS485_trace in H4 as [calls4 T4].
      destruct rerr as [re |]; cbn [is_nil negb] in H.
      2: { destruct (0 <? SerialConfig.WriteTimeout c), (0 <? SerialConfig.ReadTimeout c);
             by apply ret_Returns in H as [[=] _]. }
      apply bind_Returns in H as ([p5 e5] & w5 & H5 & H).
      apply ret_Returns in H as [H <-]. injection H as <- <-.
      pose proof (serial_Close_clears _ _ _ _ _ H5) as [F5 _].
      assert (∃ calls5, trace w5 = trace w4 ++ calls5) as [calls5 T5].
      { unfold serial.Close in H5. destruct (serial.fd p1 =? -1).
        - apply ret_Returns in H5 as [_ <-]. exists []. by rewrite app_nil_r.
        - apply bind_Returns in H5 as (p6 & w6 & H6 & H5).
          apply bind_Returns in H5 as (e7 & w7 & H7 & H5).
          apply ret_Returns in H5 as [_ <-]. apply err_call_Returns in H7 as [T7 _].
          apply restoreTermios_run in H6 as [_ T6].
          destruct (serial.oldTermios p1) as [old |].
          + destruct T6 as [calls6 T6]. rewrite T7, T6, <- app_assoc. eauto.
          + rewrite T7, T6. eauto. }
      eexists. split; [done |]. split; [exact F5 |]. split.
      * rewrite T5, T4, T3, T2, T0, <- !app_assoc. cbn. reflexivity.
      * destruct Hr as [[=] | [[en [= ->]] | [= ->]]]; eauto.
    + apply bind_Returns in H as (e2 & w4 & H4 & H). apply err_call_Returns in H4 as [T4 _].
      apply ret_Returns in H as [[= <- <-] <-].
      eexists. split; [done |]. split; [done |]. split.
      * rewrite T4, T3, T2, T0, <- !app_assoc. cbn. reflexivity.
      * left. eauto.
  - left. cbn [is_errno] in H. destruct (Z.eqb_spec en EINTR) as [-> | Hen].
    { apply bind_Returns in H as ([p2 e2] & w2 & _ & H).
      apply ret_Returns in H as [[= _ <-] _]. done. }
    exists en. destruct (Z.eqb_spec en ENFILE) as [-> | H1]; cbn [orb] in H.
    { apply ret_Returns in H as [[= <- <-] <-]. by rewrite bool_decide_eq_true_2 by eauto. }
    destruct (Z.eqb_spec en EMFILE) as [-> | H2].
    { apply ret_Returns in H as [[= <- <-] <-]. by rewrite bool_decide_eq_true_2 by eauto. }
    apply ret_Returns in H as [[= <- <-] <-]. rewrite bool_decide_eq_false_2 by tauto. done.
Qed.

Lemma serial_Open_failure_witness :
  (∃ en,
     Errorf "serial: could not set setting: %v" [AErr (Errno EINVAL)]
     = Errorf (if bool_decide (en = ENFILE ∨ en = EMFILE)
               then "serial: open serial %v: %v (too many file opened)"
               else "serial: open serial %v: %v")
         [AStr (SerialConfig.Address example_serial); AErr (Errno en)]
     ∧ serial.mk (-1) "/dev/ttyS0" None 0 0 = opened example_serial (-1) serial.newSerial
     ∧ trace (World [] [SysOpen "/dev/ttyS0" open_flags 0x1b6; SysTcgetattr 3;
                        SysTcsetattr 3 (mkTermios 0 0 0x8bd 0 0 (replicate 32 0) 0xd 0xd);
                        SysClose 3])
       = trace (World [RVal 3; RTermios Termios_zero; RErr EINVAL; RVal 0] [])
           ++ [SysOpen (SerialConfig.Address example_serial) open_flags 0x1b6])
  ∨ (∃ t fd,
       newTermios example_baudRates example_serial
       = (t, Some (Errorf "serial: could not set setting: %v" [AErr (Errno EINVAL)]))
       ∧ serial.mk (-1) "/dev/ttyS0" None 0 0 = opened example_serial fd serial.newSerial
       ∧ script (World [RVal 3; RTermios Termios_zero; RErr EINVAL; RVal 0] [])
         = RVal fd
           :: script (World [] [SysOpen "/dev/ttyS0" open_flags 0x1b6; SysTcgetattr 3;
                                SysTcsetattr 3
                                  (mkTermios 0 0 0x8bd 0 0 (replicate 32 0) 0xd 0xd);
                                SysClose 3])
       ∧ trace (World [] [SysOpen "/dev/ttyS0" open_flags 0x1b6; SysTcgetattr 3;
                          SysTcsetattr 3 (mkTermios 0 0 0x8bd 0 0 (replicate 32 0) 0xd 0xd);
                          SysClose 3])
         = trace (World [RVal 3; RTermios Termios_zero; RErr EINVAL; RVal 0] [])
             ++ [SysOpen (SerialConfig.Address example_serial) open_flags 0x1b6])
  ∨ (∃ t calls,
       newTermios example_baudRates example_serial = (t, None)
       ∧ serial.fd (serial.mk (-1) "/dev/ttyS0" None 0 0) = -1
       ∧ trace (World [] [SysOpen "/dev/ttyS0" open_flags 0x1b6; SysTcgetattr 3;
                          SysTcsetattr 3 (mkTermios 0 0 0x8bd 0 0 (replicate 32 0) 0xd 0xd);
                          SysClose 3])
         = trace (World [RVal 3; RTermios Termios_zero; RErr EINVAL; RVal 0] [])
             ++ SysOpen (SerialConfig.Address example_serial) open_flags 0x1b6 :: calls
       ∧ ((∃ en, Errorf "serial: could not set setting: %v" [AErr (Errno EINVAL)]
                 = Errorf "serial: could not set setting: %v" [AErr (Errno en)])
          ∨ (∃ en, Errorf "serial: could not set setting: %v" [AErr (Errno EINVAL)]
                   = SyscallError "SYS_IOCTL (RS485)" (Errno en))
          ∨ Errorf "serial: could not set setting: %v" [AErr (Errno EINVAL)]
            = ErrorString "serial: unknown error from SYS_IOCTL (RS485)")).
Proof.
  apply (serial_Open_failure example_baudRates example_serial serial.newSerial
           (serial.mk (-1) "/dev/ttyS0" None 0 0)
           (Errorf "serial: could not set setting: %v" [AErr (Errno EINVAL)])
           (World [RVal 3; RTermios Termios_zero; RErr EINVAL; RVal 0] [])
           (World [] [SysOpen "/dev/ttyS0" open_flags 0x1b6; SysTcgetattr 3;
                      SysTcsetattr 3 (mkTermios 0 0 0x8bd 0 0 (replicate 32 0) 0xd 0xd);
                      SysClose 3])).
  - vm_compute. reflexivity.
  - discriminate.
Defined.

(** Serial [Open] followed by [Close], on an endpoint that carries no
    captured attributes (a new one, or one that was closed), with a
    configuration that [newTermios] accepts, and a kernel that hands over
    a descriptor, accepts the new attributes and, when RS-485 is enabled,
    the RS-485 request.  When the kernel hands over the attributes of the
    line at [Open], [Open] succeeds and [Close] first applies exactly
    those on the descriptor.  When it refuses to hand them over, [Open]
    succeeds all the same, and [Close] makes the close call alone.  Either
    way the descriptor that [Open] obtained is closed by the last call,
    the endpoint holds -1, and the error of [Close] is the answer to the
    close. *)
Theorem serial_Open_Close_restores (baudRates : Z → option Z) (c : SerialConfig.t)
    (p : serial.t) (t : Termios) (fd v : Z) (rs : list resp) (tr : list call) :
  serial.oldTermios p = None →
  fd ≠ -1 →
  newTermios baudRates c = (t, None) →
  (∀ old r1 r2, is_answer r1 → is_answer r2 →
     ∃ p1 p2 tr1,
       serial.Open baudRates c p
         (World (RVal fd :: RTermios old :: RVal v
                   :: (if RS485Config.Enabled (SerialConfig.RS485 c) then [RVal 0] else [])
                   ++ r1 :: r2 :: rs) tr) =
       Returns (p1, None) (World (r1 :: r2 :: rs) tr1)
       ∧ serial.fd p1 = fd
       ∧ serial.Close p1 (World (r1 :: r2 :: rs) tr1) =
         Returns (p2, answer_error r2)
           (World rs
              (tr1 ++ SysTcsetattr fd old
                   :: match r1 with
                      | RErr _ => [LogPrintf "serial: could not restore setting: %v\n"]
                      | _ => []
                      end
                   ++ [SysClose fd]))
       ∧ serial.fd p2 = -1)
  ∧ (∀ e r2, is_answer r2 →
     ∃ p1 p2 tr1,
       serial.Open baudRates c p
         (World (RVal fd :: RErr e :: RVal v
                   :: (if RS485Config.Enabled (SerialConfig.RS485 c) then [RVal 0] else [])
                   ++ r2 :: rs) tr) =
       Returns (p1, None) (World (r2 :: rs) tr1)
       ∧ serial.fd p1 = fd
       ∧ serial.Close p1 (World (r2 :: rs) tr1) =
         Returns (p2, answer_error r2) (World rs (tr1 ++ [SysClose fd]))
       ∧ serial.fd p2 = -1).
Proof.
  intros Hold Hfd Ht. destruct p as [fd0 addr old0 rt wt]. cbn in Hold. subst old0.
  apply Z.eqb_neq in Hfd.
  assert (∀ (r : resp) (rest : list resp),
            (∃ old, r = RTermios old) ∨ (∃ e, r = RErr e) →
            ∃ p1 tr1,
              serial.Open baudRates c (serial.mk fd0 addr None rt wt)
                (World (RVal fd :: r :: RVal v
                          :: (if RS485Config.Enabled (SerialConfig.RS485 c)
                              then [RVal 0] else []) ++ rest) tr) =
              Returns (p1, None) (World rest tr1)
              ∧ serial.fd p1 = fd
              ∧ serial.oldTermios p1 =
                  match r with RTermios old => Some old | _ => None end) as HO.
  { intros r rest Hr.
    destruct (RS485Config.Enabled (SerialConfig.RS485 c)) eqn:HE,
      (0 <? SerialConfig.ReadTimeout c) eqn:HR, (0 <? SerialConfig.WriteTimeout c) eqn:HW;
      destruct Hr as [[old ->] | [e ->]]; do 2 eexists;
      (split;
       [unfold serial.Open; cbn [script length app]; one_Open;
        cbn -[newTermios enableRS485]; rewrite Ht; cbn -[enableRS485];
        unfold enableRS485; rewrite HE; cbn; rewrite HR, HW; reflexivity |]);
      split; reflexivity. }
  split.
  - intros old r1 r2 H1 H2.
    destruct (HO (RTermios old) (r1 :: r2 :: rs)) as (p1 & tr1 & HOp & F1 & O1); [eauto |].
    exists p1, (serial.with_oldTermios None (serial.with_fd (-1) p1)), tr1.
    split; [exact HOp |]. split; [exact F1 |]. split; [| reflexivity].
    destruct p1 as [f1 a1 o1 rt1 wt1]. cbn in F1, O1. subst f1 o1.
    unfold serial.Close, serial.restoreTermios. cbn [serial.fd serial.oldTermios].
    rewrite Hfd. destruct H1 as [v1 [-> | ->]], H2 as [v2 [-> | ->]]; cbn;
      rewrite <- ?app_assoc; reflexivity.
  - intros e r2 H2.
    destruct (HO (RErr e) (r2 :: rs)) as (p1 & tr1 & HOp & F1 & O1); [eauto |].
    exists p1, (serial.with_oldTermios None (serial.with_fd (-1) p1)), tr1.
    split; [exact HOp |]. split; [exact F1 |]. split; [| reflexivity].
    destruct p1 as [f1 a1 o1 rt1 wt1]. cbn in F1, O1. subst f1 o1.
    unfold serial.Close, serial.restoreTermios. cbn [serial.fd serial.oldTermios].
    rewrite Hfd. destruct H2 as [v2 [-> | ->]]; reflexivity.
Qed.

(** The kernel refuses to hand over the attributes of the line: [Open]
    succeeds, and [Close] only closes. *)
Lemma serial_Open_Close_restores_witness :
  ∃ p1 p2 tr1,
    serial.Open example_baudRates example_serial serial.newSerial
      (World (RVal 3 :: RErr EINVAL :: RVal 0
                :: (if RS485Config.Enabled (SerialConfig.RS485 example_serial)
                    then [RVal 0] else [])
                ++ RVal 0 :: []) []) =
    Returns (p1, None) (World (RVal 0 :: []) tr1)
    ∧ serial.fd p1 = 3
    ∧ serial.Close p1 (World (RVal 0 :: []) tr1) =
      Returns (p2, answer_error (RVal 0)) (World [] (tr1 ++ [SysClose 3]))
    ∧ serial.fd p2 = -1.
Proof.
  apply (proj2 (serial_Open_Close_restores example_baudRates example_serial serial.newSerial
                  (mkTermios 0 0 0x8bd 0 0 (replicate 32 0) 0xd 0xd) 3 0 [] []
                  eq_refl ltac:(discriminate) eq_refl)
           EINVAL (RVal 0)).
  exists 0. by left.
Defined.

(** The two runs, evaluated. *)
Example serial_Open_Close_without_attributes :
  (x ← serial.Open example_baudRates example_serial serial.newSerial; serial.Close x.1)
    (World [RVal 3; RErr EINVAL; RVal 0; RVal 0] []) =
  Returns (serial.mk (-1) "/dev/ttyS0" None (5000 * Millisecond) (1000 * Millisecond), None)
    (World []
       [SysOpen "/dev/ttyS0" open_flags 0x1b6; SysTcgetattr 3;
        LogPrintf "serial: could not get setting: %v\n";
        SysTcsetattr 3 (mkTermios 0 0 0x8bd 0 0 (replicate 32 0) 0xd 0xd);
        SysClose 3]).
Proof. vm_compute. reflexivity. Qed.

Example serial_Open_Close_with_attributes :
  (x ← serial.Open example_baudRates example_serial serial.newSerial; serial.Close x.1)
    (World [RVal 3; RTermios (mkTermios 1 2 3 4 0 (replicate 32 0) 0xd 0xd); RVal 0;
            RVal 0; RVal 0] []) =
  Returns (serial.mk (-1) "/dev/ttyS0" None (5000 * Millisecond) (1000 * Millisecond), None)
    (World []
       [SysOpen "/dev/ttyS0" open_flags 0x1b6; SysTcgetattr 3;
        SysTcsetattr 3 (mkTermios 0 0 0x8bd 0 0 (replicate 32 0) 0xd 0xd);
        SysTcsetattr 3 (mkTermios 1 2 3 4 0 (replicate 32 0) 0xd 0xd);
        SysClose 3]).
Proof. vm_compute. reflexivity. Qed.

(** ** The framing bits of the terminal attributes *)

Lemma land_bis_bic k m x : Z.land (bis k (bic m x)) m = Z.land k m.
Proof.
  unfold bis, bic. apply Z.bits_inj'. intros i _.
  rewrite !Z.land_spec, Z.lor_spec, Z.ldiff_spec.
  destruct (Z.testbit x i), (Z.testbit m i), (Z.testbit k i); done.
Qed.

(** The attributes that [newTermios] returns without an error.  The
    character-size field holds the entry of the size table and nothing of
    the rate flag.  Without parity the parity-enable bit is clear and no
    input flag is set; with a parity the enable bit is set, input parity
    checking is the only input flag, the odd bit is set exactly for odd
    and mark, and the stick bit exactly for mark and space.  The output
    and local flags, the line discipline and the control characters are
    left zero. *)
Theorem newTermios_framing (baudRates : Z → option Z) (c : SerialConfig.t) (t : Termios) :
  newTermios baudRates c = (t, None) →
  (∃ cs, charSizes (SerialConfig.DataBits c) = Some cs
         ∧ Z.land (Cflag t) CSIZE = Z.land cs CSIZE)
  ∧ Z.land (Cflag t) PARENB = (if SerialConfig.Parity c =? PARITY_NONE then 0 else PARENB)
  ∧ Iflag t = (if SerialConfig.Parity c =? PARITY_NONE then 0 else INPCK)
  ∧ (SerialConfig.Parity c ≠ PARITY_NONE →
     Z.land (Cflag t) PARODD =
       (if (SerialConfig.Parity c =? PARITY_ODD) || (SerialConfig.Parity c =? PARITY_MARK)
        then PARODD else 0)
     ∧ Z.land (Cflag t) CMSPAR =
       (if (SerialConfig.Parity c =? PARITY_MARK) || (SerialConfig.Parity c =? PARITY_SPACE)
        then CMSPAR else 0))
  ∧ Oflag t = 0 ∧ Lflag t = 0 ∧ Line t = 0 ∧ Cc t = Cc Termios_zero.
Proof.
  unfold newTermios, stopBits, parity.
  destruct (baudRates (SerialConfig.BaudRate c)) as [flag |]; [| discriminate].
  destruct (charSizes (SerialConfig.DataBits c)) as [cs |]; [| discriminate].
  destruct ((SerialConfig.StopBits c =? 0) || (SerialConfig.StopBits c =? 1));
    [| destruct (SerialConfig.StopBits c =? 2); [| discriminate]].
  all: destruct (Z.eqb_spec (SerialConfig.Parity c) PARITY_NONE) as [E0 | E0];
    [| destruct (Z.eqb_spec (SerialConfig.Parity c) PARITY_ODD) as [E1 | E1];
       [| destruct (Z.eqb_spec (SerialConfig.Parity c) PARITY_EVEN) as [E2 | E2];
          [| destruct (Z.eqb_spec (SerialConfig.Parity c) PARITY_MARK) as [E3 | E3];
             [| destruct (Z.eqb_spec (SerialConfig.Parity c) PARITY_SPACE) as [E4 | E4];
                [| discriminate]]]]].
  all: intros [= <-]; rewrite ?E1, ?E2, ?E3, ?E4.
  all: split; [exists cs; split; [reflexivity |]; flags; apply land_bis_bic |].
  all: split; [flags; reflexivity |].
  all: split; [reflexivity |].
  all: split; [intros Hn; try (by destruct Hn); split; flags; reflexivity |].
  all: repeat split.
Qed.

Lemma newTermios_framing_witness :
  (∃ cs, charSizes (SerialConfig.DataBits (with_Parity PARITY_MARK example_serial)) = Some cs
         ∧ Z.land (Cflag (mkTermios 0x10 0 0x40000bbd 0 0 (replicate 32 0) 0xd 0xd)) CSIZE
           = Z.land cs CSIZE)
  ∧ Z.land (Cflag (mkTermios 0x10 0 0x40000bbd 0 0 (replicate 32 0) 0xd 0xd)) PARENB =
      (if SerialConfig.Parity (with_Parity PARITY_MARK example_serial) =? PARITY_NONE
       then 0 else PARENB)
  ∧ Iflag (mkTermios 0x10 0 0x40000bbd 0 0 (replicate 32 0) 0xd 0xd) =
      (if SerialConfig.Parity (with_Parity PARITY_MARK example_serial) =? PARITY_NONE
       then 0 else INPCK)
  ∧ (SerialConfig.Parity (with_Parity PARITY_MARK example_serial) ≠ PARITY_NONE →
     Z.land (Cflag (mkTermios 0x10 0 0x40000bbd 0 0 (replicate 32 0) 0xd 0xd)) PARODD =
       (if (SerialConfig.Parity (with_Parity PARITY_MARK example_serial) =? PARITY_ODD)
           || (SerialConfig.Parity (with_Parity PARITY_MARK example_serial) =? PARITY_MARK)
        then PARODD else 0)
     ∧ Z.land (Cflag (mkTermios 0x10 0 0x40000bbd 0 0 (replicate 32 0) 0xd 0xd)) CMSPAR =
       (if (SerialConfig.Parity (with_Parity PARITY_MARK example_serial) =? PARITY_MARK)
           || (SerialConfig.Parity (with_Parity PARITY_MARK example_serial) =? PARITY_SPACE)
        then CMSPAR else 0))
  ∧ Oflag (mkTermios 0x10 0 0x40000bbd 0 0 (replicate 32 0) 0xd 0xd) = 0
  ∧ Lflag (mkTermios 0x10 0 0x40000bbd 0 0 (replicate 32 0) 0xd 0xd) = 0
  ∧ Line (mkTermios 0x10 0 0x40000bbd 0 0 (replicate 32 0) 0xd 0xd) = 0
  ∧ Cc (mkTermios 0x10 0 0x40000bbd 0 0 (replicate 32 0) 0xd 0xd) = Cc Termios_zero.
Proof.
  apply (newTermios_framing example_baudRates (with_Parity PARITY_MARK example_serial)
           (mkTermios 0x10 0 0x40000bbd 0 0 (replicate 32 0) 0xd 0xd)).
  vm_compute. reflexivity.
Defined.

(** ** The other exits of serial Read *)

(** The deadline of serial [Read].  When, after any number of turns that
    went round again, the clock at the top of a turn has reached the
    deadline, [Read] returns the timeout error, also when bytes have been
    read in this call: the count returned is that of the last read alone
    (-1 after an interrupted read, 0 when nothing was read), and the
    descriptor is not waited for again. *)
Theorem serial_Read_deadline (p : serial.t) (b : list Z) (t0 : Z) (ts : list read_turn)
    (now : Z) (rs : list resp) (tr : list call) :
  turns_ok (t0 + serial.readTimeout p) (serial.fd p) (len b) 0 ts →
  t0 + serial.readTimeout p ≤ now →
  ∃ tr',
    serial.Read p b (World (RNow t0 :: turns_script ts ++ RNow now :: rs) tr) =
    Returns (last_count 0 ts, Some (serial.timeout_error (serial.readTimeout p)))
      (World rs (tr' ++ [TimeNow])).
Proof.
  intros Hok Hnow.
  destruct (Read_advance p b t0 ts (RNow now :: rs) tr Hok) as (fuel' & tr' & Hf' & ->).
  destruct fuel' as [| fuel']; [cbn in Hf'; lia |].
  assert ((t0 + serial.readTimeout p - now <=? 0) = true) as Hd by (apply Z.leb_le; lia).
  cbn. rewrite Hd. cbn. eauto.
Qed.

Lemma serial_Read_deadline_witness :
  ∃ tr',
    serial.Read example_port [0; 0; 0; 0]
      (World (RNow 0 :: turns_script [ReadBytes 10 1 [3] 2; ReadInterrupted 20 1 [3]]
                ++ RNow (200 * Millisecond) :: []) []) =
    Returns (last_count 0 [ReadBytes 10 1 [3] 2; ReadInterrupted 20 1 [3]],
             Some (serial.timeout_error (serial.readTimeout example_port)))
      (World [] (tr' ++ [TimeNow])).
Proof.
  apply (serial_Read_deadline example_port [0; 0; 0; 0] 0
           [ReadBytes 10 1 [3] 2; ReadInterrupted 20 1 [3]] (200 * Millisecond) [] []).
  - cbn. unfold no_readiness, example_port, len. cbn.
    repeat split; try lia; intros [H | H]; try lia; apply H; left.
  - cbn. lia.
Defined.

(** The failures of serial [Read].  After any number of turns that went
    round again, and before the deadline: a wait that fails with another
    error than an interruption ends the call with that error; on a ready
    descriptor, a read that returns a count not above zero ends it with
    the error "read no data", and a read that fails with another error
    than an interruption ends it with that error.  In each case the bytes
    read so far in this call are not reported. *)
Theorem serial_Read_failures (p : serial.t) (b : list Z) (t0 : Z) (ts : list read_turn)
    (now : Z) (rs : list resp) (tr : list call) :
  turns_ok (t0 + serial.readTimeout p) (serial.fd p) (len b) 0 ts →
  now < t0 + serial.readTimeout p →
  (∀ e, e ≠ EINTR →
     ∃ tr',
       serial.Read p b (World (RNow t0 :: turns_script ts ++ RNow now :: RErr e :: rs) tr) =
       Returns (last_count 0 ts, Some (Errorf "serial: could not select: %v" [AErr (Errno e)]))
         (World rs tr'))
  ∧ (∀ nFd rfds, ¬ no_readiness (serial.fd p) nFd rfds → bytes_read ts ≤ len b →
       (∀ k, k ≤ 0 →
          ∃ tr',
            serial.Read p b
              (World (RNow t0 :: turns_script ts ++ RNow now :: RSel nFd rfds :: RVal k :: rs) tr) =
            Returns (k, Some (Errorf "serial: read no data" [])) (World rs tr'))
       ∧ (∀ e, e ≠ EINTR →
            ∃ tr',
              serial.Read p b
                (World (RNow t0 :: turns_script ts ++ RNow now :: RSel nFd rfds :: RErr e :: rs)
                   tr) =
              Returns (-1, Some (Errorf "serial: could not read: %v" [AErr (Errno e)]))
                (World rs tr'))).
Proof.
  intros Hok Hnow.
  assert ((t0 + serial.readTimeout p - now <=? 0) = false) as Hd by (apply Z.leb_gt; lia).
  assert (0 ≤ bytes_read ts) as Hb by (eapply bytes_read_nonneg; eassumption).
  split.
  - intros e He.
    destruct (Read_advance p b t0 ts (RNow now :: RErr e :: rs) tr Hok)
      as (fuel' & tr' & Hf' & ->).
    destruct fuel' as [| fuel']; [cbn in Hf'; lia |].
    apply Z.eqb_neq in He. cbn. rewrite Hd. cbn. rewrite He. cbn. eauto.
  - intros nFd rfds Hrdy Hlen.
    rewrite no_readiness_test in Hrdy. apply not_true_is_false in Hrdy.
    split.
    + intros k Hk.
      destruct (Read_advance p b t0 ts (RNow now :: RSel nFd rfds :: RVal k :: rs) tr Hok)
        as (fuel' & tr' & Hf' & ->).
      destruct fuel' as [| fuel']; [cbn in Hf'; lia |].
      cbn -[slice_from]. rewrite Hd. cbn -[slice_from].
      rewrite Hrdy, slice_from_in_range by done. cbn -[slice_from].
      assert ((0 <? k) = false) as -> by (apply Z.ltb_ge; lia). cbn. eauto.
    + intros e He.
      destruct (Read_advance p b t0 ts (RNow now :: RSel nFd rfds :: RErr e :: rs) tr Hok)
        as (fuel' & tr' & Hf' & ->).
      destruct fuel' as [| fuel']; [cbn in Hf'; lia |].
      apply Z.eqb_neq in He.
      cbn -[slice_from]. rewrite Hd. cbn -[slice_from].
      rewrite Hrdy, slice_from_in_range by done. cbn -[slice_from].
      rewrite He. cbn. eauto.
Qed.

Lemma serial_Read_failures_witness :
  (∀ e, e ≠ EINTR →
     ∃ tr',
       serial.Read example_port [0; 0; 0; 0]
         (World (RNow 0 :: turns_script [ReadBytes 10 1 [3] 2] ++ RNow 20 :: RErr e :: []) []) =
       Returns (last_count 0 [ReadBytes 10 1 [3] 2],
                Some (Errorf "serial: could not select: %v" [AErr (Errno e)]))
         (World [] tr'))
  ∧ (∀ nFd rfds, ¬ no_readiness (serial.fd example_port) nFd rfds →
       bytes_read [ReadBytes 10 1 [3] 2] ≤ len [0; 0; 0; 0] →
       (∀ k, k ≤ 0 →
          ∃ tr',
            serial.Read example_port [0; 0; 0; 0]
              (World (RNow 0 :: turns_script [ReadBytes 10 1 [3] 2]
                        ++ RNow 20 :: RSel nFd rfds :: RVal k :: []) []) =
            Returns (k, Some (Errorf "serial: read no data" [])) (World [] tr'))
       ∧ (∀ e, e ≠ EINTR →
            ∃ tr',
              serial.Read example_port [0; 0; 0; 0]
                (World (RNow 0 :: turns_script [ReadBytes 10 1 [3] 2]
                          ++ RNow 20 :: RSel nFd rfds :: RErr e :: []) []) =
              Returns (-1, Some (Errorf "serial: could not read: %v" [AErr (Errno e)]))
                (World [] tr'))).
Proof.
  apply (serial_Read_failures example_port [0; 0; 0; 0] 0 [ReadBytes 10 1 [3] 2] 20 [] []).
  - cbn. unfold no_readiness, example_port, len. cbn.
    repeat split; try lia; intros [H | H]; try lia; apply H; left.
  - reflexivity.
Defined.

(** ** The other exits of serial Write *)

Lemma Write_wait_advance (p : serial.t) (expireTime : Z) (waits : list Z) :
  ∀ (fuel : nat) (rest : list resp) (tr : list call),
    (length (waits_script waits ++ rest) < fuel)%nat →
    Forall (λ t, t < expireTime) waits →
    ∃ fuel' tr',
      (length rest < fuel')%nat
      ∧ serial.Write_wait fuel p expireTime (World (waits_script waits ++ rest) tr) =
        serial.Write_wait fuel' p expireTime (World rest tr').
Proof.
  induction waits as [| t waits IH]; intros fuel rest tr Hf Hw.
  - exists fuel, tr. done.
  - destruct fuel as [| fuel]; [cbn in Hf; lia |].
    apply Forall_cons in Hw as [Ht Hw].
    assert ((expireTime - t <=? 0) = false) as Hd by (apply Z.leb_gt; lia).
    unfold waits_script in *. cbn [map concat] in *. rewrite <- app_assoc in *.
    cbn. rewrite Hd. cbn. eapply IH; eauto. cbn in Hf. lia.
Qed.

(** The outer loop of [Write] after a sequence of turns that go round
    again: it stands before the next write with what the turns added to
    [writeLen]. *)
Lemma Write_loop_advance (p : serial.t) (b : list Z) (expireTime : Z) (ts : list write_turn) :
  ∀ (fuel : nat) (writeLen : Z) (rest : list resp) (tr : list call),
    (length (wturns_script ts ++ rest) < fuel)%nat →
    0 ≤ writeLen ≤ len b →
    wturns_ok expireTime (serial.fd p) (len b) writeLen ts →
    ∃ fuel' tr',
      (length rest < fuel')%nat
      ∧ 0 ≤ writeLen + written ts ≤ len b
      ∧ serial.Write_loop fuel p b expireTime writeLen (World (wturns_script ts ++ rest) tr) =
        serial.Write_loop fuel' p b expireTime (writeLen + written ts) (World rest tr').
Proof.
  induction ts as [| [w1 ws now nFd wfds] ts IH]; intros fuel writeLen rest tr Hf Hlen Hok.
  - exists fuel, tr. cbn [written]. rewrite Z.add_0_r. done.
  - destruct fuel as [| fuel]; [cbn in Hf; lia |].
    cbn [wturns_ok wt_write wt_interrupted wt_now wt_nFd wt_wfds] in Hok.
    destruct Hok as (Hw1 & Hrange & Hws & Hnow & Hrdy & Hok).
    cbn [written wt_write] in *.
    unfold wturns_script in *. cbn [map concat] in *.
    unfold wturn_script at 1. unfold wturn_script at 1 in Hf.
    cbn [wt_write wt_interrupted wt_now wt_nFd wt_wfds] in *.
    rewrite <- !app_comm_cons, <- !app_assoc. cbn [app].
    rewrite <- !app_comm_cons, <- !app_assoc in Hf. cbn [app length] in Hf.
    rewrite !length_app in Hf. cbn [length] in Hf.
    cbn -[slice_from]. rewrite slice_from_in_range by lia.
    unfold M_bind at 1, syscall_Write. rewrite is_progress_test by done. cbn beta iota.
    assert (is_nil (match w1 with RVal _ => None | _ => Some (Errno EINTR) end)
            || is_errno (match w1 with RVal _ => None | _ => Some (Errno EINTR) end) EINTR = true)
      as -> by (destruct Hw1 as [[n ->] | ->]; reflexivity).
    assert ((writeLen + progress w1 =? len b) = false) as -> by (apply Z.eqb_neq; lia).
    assert ((len b <? writeLen + progress w1) = false) as -> by (apply Z.ltb_ge; lia).
    unfold M_bind at 1.
    edestruct (Write_wait_ready p expireTime ws fuel now nFd wfds
                 (concat (map wturn_script ts) ++ rest)) as (tr1 & ->); eauto.
    { rewrite ?length_app in *. cbn [length] in *. lia. }
    edestruct (IH fuel (writeLen + progress w1) rest tr1) as (fuel' & tr' & Hf' & Hr & ->);
      eauto; try lia.
    rewrite Z.add_assoc. eauto.
Qed.

Lemma Write_advance (p : serial.t) (b : list Z) (t0 : Z) (ts : list write_turn)
    (rest : list resp) (tr : list call) :
  wturns_ok (t0 + serial.writeTimeout p) (serial.fd p) (len b) 0 ts →
  ∃ fuel' tr',
    (length rest < fuel')%nat
    ∧ 0 ≤ written ts ≤ len b
    ∧ serial.Write p b (World (RNow t0 :: wturns_script ts ++ rest) tr) =
      serial.Write_loop fuel' p b (t0 + serial.writeTimeout p) (written ts) (World rest tr').
Proof.
  intros Hok. unfold serial.Write. cbn -[serial.Write_loop].
  edestruct (Write_loop_advance p b (t0 + serial.writeTimeout p) ts
               (S (length (wturns_script ts ++ rest))) 0 rest (tr ++ [TimeNow]))
    as (fuel' & tr' & Hf' & Hr & ->); eauto; try lia; try (unfold len; lia).
Qed.

(** One write of the loop that makes progress and leaves [writeLen] short
    of the end of the buffer: the loop goes into the wait. *)
Lemma Write_loop_short (p : serial.t) (b : list Z) (expireTime : Z) (fuel : nat)
    (writeLen : Z) (wr : resp) (rest : list resp) (tr : list call) :
  0 ≤ writeLen ≤ len b →
  is_progress wr →
  writeLen + progress wr < len b →
  serial.Write_loop (S fuel) p b expireTime writeLen (World (wr :: rest) tr) =
  match serial.Write_wait fuel p expireTime
          (World rest (tr ++ [SysWrite (serial.fd p) (drop (Z.to_nat writeLen) b)])) with
  | Returns (Some e) w => Returns (progress wr, Some e) w
  | Returns None w => serial.Write_loop fuel p b expireTime (writeLen + progress wr) w
  | Panics w => Panics w
  | Stuck => Stuck
  end.
Proof.
  intros Hlen Hwr Hshort.
  cbn -[slice_from]. rewrite slice_from_in_range by lia.
  unfold M_bind at 1, syscall_Write. rewrite is_progress_test by done. cbn beta iota.
  assert (is_nil (match wr with RVal _ => None | _ => Some (Errno EINTR) end)
          || is_errno (match wr with RVal _ => None | _ => Some (Errno EINTR) end) EINTR = true)
    as -> by (destruct Hwr as [[n ->] | ->]; reflexivity).
  assert ((writeLen + progress wr =? len b) = false) as -> by (apply Z.eqb_neq; lia).
  assert ((len b <? writeLen + progress wr) = false) as -> by (apply Z.ltb_ge; lia).
  unfold M_bind at 1.
  destruct (serial.Write_wait fuel p expireTime _) as [[e |] w1 | w1 |]; reflexivity.
Qed.

(** Serial [Write] giving up in the wait.  After any number of turns that
    went round again, a write makes progress and leaves the buffer
    unfinished; the wait for the descriptor then ends, after any number of
    interruptions, with the clock at the deadline, with no readiness
    reported, or with an error of the wait other than an interruption.
    [Write] returns the timeout error in the first two cases and the
    error of the wait in the third, and the count it returns is that of
    the last write call alone, not the number of bytes written. *)
Theorem serial_Write_gives_up (p : serial.t) (b : list Z) (t0 : Z) (ts : list write_turn)
    (wr : resp) (waits : list Z) (rs : list resp) (tr : list call) :
  wturns_ok (t0 + serial.writeTimeout p) (serial.fd p) (len b) 0 ts →
  is_progress wr →
  written ts + progress wr < len b →
  Forall (λ t, t < t0 + serial.writeTimeout p) waits →
  (∀ now, t0 + serial.writeTimeout p ≤ now →
     ∃ tr',
       serial.Write p b
         (World (RNow t0 :: wturns_script ts ++ wr :: waits_script waits ++ RNow now :: rs) tr) =
       Returns (progress wr, Some (serial.timeout_error (serial.writeTimeout p))) (World rs tr'))
  ∧ (∀ now nFd wfds, now < t0 + serial.writeTimeout p →
       no_readiness (serial.fd p) nFd wfds →
       ∃ tr',
         serial.Write p b
           (World (RNow t0 :: wturns_script ts ++ wr :: waits_script waits
                     ++ RNow now :: RSel nFd wfds :: rs) tr) =
         Returns (progress wr, Some (serial.timeout_error (serial.writeTimeout p)))
           (World rs tr'))
  ∧ (∀ now e, now < t0 + serial.writeTimeout p → e ≠ EINTR →
       ∃ tr',
         serial.Write p b
           (World (RNow t0 :: wturns_script ts ++ wr :: waits_script waits
                     ++ RNow now :: RErr e :: rs) tr) =
         Returns (progress wr, Some (Errorf "serial: could not select: %v" [AErr (Errno e)]))
           (World rs tr')).
Proof.
  intros Hok Hwr Hshort Hwaits.
  assert (∀ rest : list resp,
            ∃ fuel' tr',
              (length rest < fuel')%nat
              ∧ serial.Write p b
                  (World (RNow t0 :: wturns_script ts ++ wr :: waits_script waits ++ rest) tr) =
                match serial.Write_wait fuel' p (t0 + serial.writeTimeout p) (World rest tr') with
                | Returns (Some e) w => Returns (progress wr, Some e) w
                | Returns None w =>
                    serial.Write_loop fuel' p b (t0 + serial.writeTimeout p)
                      (written ts + progress wr) w
                | Panics w => Panics w
                | Stuck => Stuck
                end) as Hrun.
  { intros rest.
    destruct (Write_advance p b t0 ts (wr :: waits_script waits ++ rest) tr Hok)
      as (fuel1 & tr1 & Hf1 & Hr1 & ->).
    destruct fuel1 as [| fuel1]; [cbn in Hf1; lia |].
    rewrite Write_loop_short by done.
    edestruct (Write_wait_advance p (t0 + serial.writeTimeout p) waits fuel1 rest)
      as (fuel2 & tr2 & Hf2 & ->); [cbn [length] in Hf1; lia | done |].
    cbn [length] in Hf1. rewrite length_app in Hf1.
    exists fuel2, tr2. split; [done |].
    destruct (serial.Write_wait fuel2 p _ _) as [[e |] w1 | w1 |] eqn:E; try reflexivity.
    apply Write_wait_pops in E. cbn in E. apply Write_loop_fuel; lia. }
  repeat split.
  - intros now Hnow. destruct (Hrun (RNow now :: rs)) as (fuel' & tr' & Hf' & ->).
    destruct fuel' as [| fuel']; [cbn in Hf'; lia |].
    assert ((t0 + serial.writeTimeout p - now <=? 0) = true) as Hd by (apply Z.leb_le; lia).
    cbn. rewrite Hd. cbn. eauto.
  - intros now nFd wfds Hnow Hno.
    destruct (Hrun (RNow now :: RSel nFd wfds :: rs)) as (fuel' & tr' & Hf' & ->).
    destruct fuel' as [| fuel']; [cbn in Hf'; lia |].
    assert ((t0 + serial.writeTimeout p - now <=? 0) = false) as Hd by (apply Z.leb_gt; lia).
    apply no_readiness_test in Hno.
    cbn. rewrite Hd. cbn. rewrite Hno. cbn. eauto.
  - intros now e Hnow He.
    destruct (Hrun (RNow now :: RErr e :: rs)) as (fuel' & tr' & Hf' & ->).
    destruct fuel' as [| fuel']; [cbn in Hf'; lia |].
    assert ((t0 + serial.writeTimeout p - now <=? 0) = false) as Hd by (apply Z.leb_gt; lia).
    apply Z.eqb_neq in He.
    cbn. rewrite Hd. cbn. rewrite He. cbn. eauto.
Qed.

Lemma serial_Write_gives_up_witness :
  (∀ now, 0 + serial.writeTimeout example_port ≤ now →
     ∃ tr',
       serial.Write example_port (replicate 8 0)
         (World (RNow 0 :: wturns_script [ready_turn 3 1000] ++ RVal 2
                   :: waits_script [2000] ++ RNow now :: []) []) =
       Returns (progress (RVal 2),
                Some (serial.timeout_error (serial.writeTimeout example_port))) (World [] tr'))
  ∧ (∀ now nFd wfds, now < 0 + serial.writeTimeout example_port →
       no_readiness (serial.fd example_port) nFd wfds →
       ∃ tr',
         serial.Write example_port (replicate 8 0)
           (World (RNow 0 :: wturns_script [ready_turn 3 1000] ++ RVal 2
                     :: waits_script [2000] ++ RNow now :: RSel nFd wfds :: []) []) =
         Returns (progress (RVal 2),
                  Some (serial.timeout_error (serial.writeTimeout example_port)))
           (World [] tr'))
  ∧ (∀ now e, now < 0 + serial.writeTimeout example_port → e ≠ EINTR →
       ∃ tr',
         serial.Write example_port (replicate 8 0)
           (World (RNow 0 :: wturns_script [ready_turn 3 1000] ++ RVal 2
                     :: waits_script [2000] ++ RNow now :: RErr e :: []) []) =
         Returns (progress (RVal 2),
                  Some (Errorf "serial: could not select: %v" [AErr (Errno e)]))
           (World [] tr')).
Proof.
  apply (serial_Write_gives_up example_port (replicate 8 0) 0 [ready_turn 3 1000]
           (RVal 2) [2000] [] []).
  - cbn. unfold is_progress, no_readiness, len. cbn.
    repeat split; eauto using Forall_nil_2; try lia;
      intros [H | H]; try lia; apply H; in_list.
  - left. eauto.
  - unfold len. cbn. lia.
  - apply Forall_cons. split; [reflexivity | apply Forall_nil_2].
Defined.

(** A failing write of serial [Write].  After any number of turns that
    went round again, a write that fails with another error than an
    interruption ends the call at once with that error and the count -1:
    the bytes written so far are not reported, and the descriptor is not
    waited for. *)
Theorem serial_Write_error (p : serial.t) (b : list Z) (t0 : Z) (ts : list write_turn)
    (e : Z) (rs : list resp) (tr : list call) :
  wturns_ok (t0 + serial.writeTimeout p) (serial.fd p) (len b) 0 ts →
  e ≠ EINTR →
  ∃ tr',
    serial.Write p b (World (RNow t0 :: wturns_script ts ++ RErr e :: rs) tr) =
    Returns (-1, Some (Errorf "serial: could not write: %v" [AErr (Errno e)]))
      (World rs (tr' ++ [SysWrite (serial.fd p) (drop (Z.to_nat (written ts)) b)])).
Proof.
  intros Hok He.
  destruct (Write_advance p b t0 ts (RErr e :: rs) tr Hok) as (fuel' & tr' & Hf' & Hr & ->).
  destruct fuel' as [| fuel']; [cbn in Hf'; lia |].
  apply Z.eqb_neq in He.
  cbn -[slice_from]. rewrite slice_from_in_range by lia. cbn. rewrite He. cbn. eauto.
Qed.

Lemma serial_Write_error_witness :
  ∃ tr',
    serial.Write example_port (replicate 8 0)
      (World (RNow 0 :: wturns_script [ready_turn 3 1000] ++ RErr EBADF :: []) []) =
    Returns (-1, Some (Errorf "serial: could not write: %v" [AErr (Errno EBADF)]))
      (World [] (tr' ++ [SysWrite (serial.fd example_port)
                           (drop (Z.to_nat (written [ready_turn 3 1000])) (replicate 8 0))])).
Proof.
  apply (serial_Write_error example_port (replicate 8 0) 0 [ready_turn 3 1000] EBADF [] []).
  - cbn. unfold is_progress, no_readiness, len. cbn.
    repeat split; eauto using Forall_nil_2; try lia;
      intros [H | H]; try lia; apply H; in_list.
  - discriminate.
Defined.

(** An interrupted write of serial [Write] while nothing is written yet.
    The interrupted write counts as -1 byte; when the wait that follows
    finds the descriptor writable, the next turn slices the buffer from
    index -1, which is a run-time panic: [Write] does not return. *)
Theorem serial_Write_interrupted_at_zero_panics (p : serial.t) (b : list Z) (t0 : Z)
    (ts : list write_turn) (waits : list Z) (now nFd : Z) (wfds : list Z)
    (rs : list resp) (tr : list call) :
  wturns_ok (t0 + serial.writeTimeout p) (serial.fd p) (len b) 0 ts →
  written ts = 0 →
  Forall (λ t, t < t0 + serial.writeTimeout p) waits →
  now < t0 + serial.writeTimeout p →
  ¬ no_readiness (serial.fd p) nFd wfds →
  ∃ tr',
    serial.Write p b
      (World (RNow t0 :: wturns_script ts ++ RErr EINTR :: waits_script waits
                ++ RNow now :: RSel nFd wfds :: rs) tr) =
    Panics (World rs tr').
Proof.
  intros Hok H0 Hwaits Hnow Hrdy.
  destruct (Write_advance p b t0 ts
              (RErr EINTR :: waits_script waits ++ RNow now :: RSel nFd wfds :: rs) tr Hok)
    as (fuel1 & tr1 & Hf1 & Hr1 & ->).
  destruct fuel1 as [| fuel1]; [cbn in Hf1; lia |].
  rewrite H0 in *.
  rewrite Write_loop_short; [| done | by right | cbn; unfold len; lia].
  cbn [length] in Hf1. rewrite length_app in Hf1. cbn [length] in Hf1.
  edestruct (Write_wait_ready p (t0 + serial.writeTimeout p) waits fuel1 now nFd wfds rs)
    as (tr2 & ->); eauto; [lia |].
  destruct fuel1 as [| fuel1]; [lia |].
  cbn. eauto.
Qed.

Lemma serial_Write_interrupted_at_zero_panics_witness :
  ∃ tr',
    serial.Write example_port (replicate 8 0)
      (World (RNow 0 :: wturns_script [] ++ RErr EINTR :: waits_script []
                ++ RNow 1000 :: RSel 1 [3] :: []) []) =
    Panics (World [] tr').
Proof.
  apply (serial_Write_interrupted_at_zero_panics example_port (replicate 8 0) 0 [] []
           1000 1 [3] [] []).
  - exact I.
  - reflexivity.
  - apply Forall_nil_2.
  - reflexivity.
  - unfold no_readiness. cbn. intros [H | H]; [lia | apply H; in_list].
Defined.

(** ** The registry *)

(** What [Open(c, m)] does to the registry, whatever the run.  A failed
    [Open] leaves it as it was.  A successful one appends the endpoint it
    returns to the collection under the address name of the
    configuration, so that [Find] returns the earlier endpoints followed
    by the new one.  Either way no other name is touched, nothing is
    removed from a collection, and the endpoint returned has the type of
    the configuration. *)
Theorem registry_Open_frame (baudRates : Z → option Z) (c : EndPointConfig)
    (m m' : gmap string (list EndPoint)) (p : EndPoint) (err : option error) (w w' : world) :
  Open baudRates c m w = Returns (p, err, m') w' →
  (err ≠ None → m' = m)
  ∧ (err = None →
     Find c m' = (default [] (m !! AddressName c) ++ [p], true)
     ∧ (Type_ c = EndPointSerial → m !! AddressName c = None))
  ∧ (∀ k, k ≠ AddressName c → m' !! k = m !! k)
  ∧ (∀ k l, m !! k = Some l → ∃ l', m' !! k = Some (l ++ l'))
  ∧ EndPoint_Type p = Type_ c.
Proof.
  intros H. unfold Open in H.
  assert (∀ (p0 : EndPoint) (e0 : option error) (w0 w1 : world),
            EndPoint_Open baudRates (newEndPoint c) c w0 = Returns (p0, e0) w1 →
            EndPoint_Type p0 = Type_ c) as HT.
  { intros p0 e0 w0 w1 H0. apply EndPoint_Open_Type in H0. by rewrite H0, newEndPoint_Type. }
  assert (∀ l0 : list EndPoint,
            m !! AddressName c = Some l0 ∨ (m !! AddressName c = None ∧ l0 = []) →
            ∀ k l, m !! k = Some l →
                   ∃ l', <[AddressName c := l0 ++ [p]]> m !! k = Some (l ++ l')) as Hmono.
  { intros l0 Hl0 k l Hk. destruct (decide (k = AddressName c)) as [-> | Hne].
    - rewrite lookup_insert_eq. destruct Hl0 as [Hl0 | [Hl0 _]]; [| congruence].
      rewrite Hl0 in Hk. injection Hk as ->. eauto.
    - rewrite lookup_insert_ne by done. exists []. by rewrite app_nil_r. }
  assert (∀ k l, m !! k = Some l → ∃ l', m !! k = Some (l ++ l')) as Hsame.
  { intros k l Hk. exists []. by rewrite app_nil_r. }
  destruct (decide (Type_ c = EndPointSerial)) as [Hs | Hs].
  - destruct (m !! AddressName c) as [slice |] eqn:Hk.
    + apply ret_Returns in H as [[= <- <- <-] <-].
      repeat split; try done. by rewrite newEndPoint_Type.
    + apply bind_Returns in H as ([p1 e1] & w1 & H1 & H). apply HT in H1.
      destruct e1 as [e |]; cbn [is_nil] in H; apply ret_Returns in H as [[= <- <- <-] <-].
      * repeat split; try done.
      * repeat split; try done.
        -- unfold Find. by rewrite lookup_insert_eq.
        -- intros k Hne. by rewrite lookup_insert_ne.
        -- apply (Hmono []). right. done.
  - apply bind_Returns in H as ([p1 e1] & w1 & H1 & H). apply HT in H1.
    destruct e1 as [e |]; cbn [is_nil] in H.
    + apply ret_Returns in H as [[= <- <- <-] <-]. repeat split; try done.
    + destruct (m !! AddressName c) as [slice |] eqn:Hk;
        apply ret_Returns in H as [[= <- <- <-] <-].
      * repeat split; try done.
        -- unfold Find. by rewrite lookup_insert_eq.
        -- intros k Hne. by rewrite lookup_insert_ne.
        -- apply (Hmono slice). left. done.
      * repeat split; try done.
        -- unfold Find. by rewrite lookup_insert_eq.
        -- intros k Hne. by rewrite lookup_insert_ne.
        -- apply (Hmono []). right. done.
Qed.

Lemma registry_Open_frame_witness :
  (@None error ≠ None →
   <[AddressName (CfgUDP example_udp_config)
       := [EpUDP (udp.mk 3 (Some example_ip) (Some example_peer) 0 0)]]>
     (∅ : gmap string (list EndPoint)) = ∅)
  ∧ (@None error = None →
     Find (CfgUDP example_udp_config)
       (<[AddressName (CfgUDP example_udp_config)
            := [EpUDP (udp.mk 3 (Some example_ip) (Some example_peer) 0 0)]]> ∅)
     = (default [] ((∅ : gmap string (list EndPoint))
                      !! AddressName (CfgUDP example_udp_config))
          ++ [EpUDP (udp.mk 3 (Some example_ip) (Some example_peer) 0 0)], true)
     ∧ (Type_ (CfgUDP example_udp_config) = EndPointSerial →
        (∅ : gmap string (list EndPoint)) !! AddressName (CfgUDP example_udp_config) = None))
  ∧ (∀ k, k ≠ AddressName (CfgUDP example_udp_config) →
       <[AddressName (CfgUDP example_udp_config)
           := [EpUDP (udp.mk 3 (Some example_ip) (Some example_peer) 0 0)]]>
         (∅ : gmap string (list EndPoint)) !! k = (∅ : gmap string (list EndPoint)) !! k)
  ∧ (∀ k l, (∅ : gmap string (list EndPoint)) !! k = Some l →
       ∃ l',
         <[AddressName (CfgUDP example_udp_config)
             := [EpUDP (udp.mk 3 (Some example_ip) (Some example_peer) 0 0)]]>
           (∅ : gmap string (list EndPoint)) !! k = Some (l ++ l'))
  ∧ EndPoint_Type (EpUDP (udp.mk 3 (Some example_ip) (Some example_peer) 0 0))
    = Type_ (CfgUDP example_udp_config).
Proof.
  apply (registry_Open_frame example_baudRates (CfgUDP example_udp_config) ∅
           (<[AddressName (CfgUDP example_udp_config)
                := [EpUDP (udp.mk 3 (Some example_ip) (Some example_peer) 0 0)]]> ∅)
           (EpUDP (udp.mk 3 (Some example_ip) (Some example_peer) 0 0)) None
           (World [RIPAddr example_ip; RVal 3] [])
           (World [] [NetResolveUDPAddr "udp" "127.0.0.1:9000";
                      SysSocket AF_INET (Z.lor (Z.lor SOCK_DGRAM SOCK_NONBLOCK) SOCK_CLOEXEC)
                        IPPROTO_UDP])).
  vm_compute. reflexivity.
Defined.

(** [Delete] and the registry.  After [Delete(c, m)] nothing is found
    under the address name of [c], whatever the type of the configuration
    that asks and however many endpoints were registered; every other
    name is found as before; and an [Open] under that name, serial
    included, is no longer refused: when the native open succeeds the
    endpoint is registered alone. *)
Theorem registry_Delete_Find (baudRates : Z → option Z) (c c' : EndPointConfig)
    (m : gmap string (list EndPoint)) :
  (AddressName c' = AddressName c → Find c' (Delete c m) = ([], false))
  ∧ (AddressName c' ≠ AddressName c → Find c' (Delete c m) = Find c' m)
  ∧ (AddressName c' = AddressName c →
     ∀ p w w',
       EndPoint_Open baudRates (newEndPoint c') c' w = Returns (p, None) w' →
       ∃ m', Open baudRates c' (Delete c m) w = Returns (p, None, m') w'
             ∧ Find c' m' = ([p], true)
             ∧ Delete c m' = Delete c m).
Proof.
  unfold Find, Delete. split; [| split].
  - intros ->. by rewrite lookup_delete_eq.
  - intros Hne. by rewrite lookup_delete_ne.
  - intros Hn p w w' H. exists (<[AddressName c := [p]]> (delete (AddressName c) m)).
    unfold Open. cbn zeta. rewrite Hn, lookup_delete_eq.
    rewrite lookup_insert_eq, delete_insert_eq.
    split; [| split; [done | apply delete_delete_eq]].
    destruct (decide (Type_ c' = EndPointSerial));
      unfold mbind, M_bind; rewrite H; reflexivity.
Qed.

Lemma registry_Delete_Find_witness :
  ∃ m',
    Open example_baudRates (CfgUDP example_udp_config)
      (Delete (CfgUDP example_udp_config) {[ "127.0.0.1:9000" := [EpUDP example_udp] ]})
      (World [RIPAddr example_ip; RVal 3] []) =
    Returns (EpUDP (udp.mk 3 (Some example_ip) (Some example_peer) 0 0), None, m')
      (World [] [NetResolveUDPAddr "udp" "127.0.0.1:9000";
                 SysSocket AF_INET (Z.lor (Z.lor SOCK_DGRAM SOCK_NONBLOCK) SOCK_CLOEXEC)
                   IPPROTO_UDP])
    ∧ Find (CfgUDP example_udp_config) m'
      = ([EpUDP (udp.mk 3 (Some example_ip) (Some example_peer) 0 0)], true)
    ∧ Delete (CfgUDP example_udp_config) m'
      = Delete (CfgUDP example_udp_config) {[ "127.0.0.1:9000" := [EpUDP example_udp] ]}.
Proof.
  apply (proj2 (proj2 (registry_Delete_Find example_baudRates (CfgUDP example_udp_config)
                         (CfgUDP example_udp_config)
                         {[ "127.0.0.1:9000" := [EpUDP example_udp] ]}))
           eq_refl
           (EpUDP (udp.mk 3 (Some example_ip) (Some example_peer) 0 0))
           (World [RIPAddr example_ip; RVal 3] [])
           (World [] [NetResolveUDPAddr "udp" "127.0.0.1:9000";
                      SysSocket AF_INET (Z.lor (Z.lor SOCK_DGRAM SOCK_NONBLOCK) SOCK_CLOEXEC)
                        IPPROTO_UDP])).
  vm_compute. reflexivity.
Defined.

(** ** A failed TCP Open, then Close *)

Lemma tcp_Open_failure_closed (c : TCPConfig.t) (p p' : tcp.t) (e : error) (w w' : world) :
  tcp.Open c p w = Returns (p', Some e) w' →
  tcp.fd p' = tcp.fd p ∨ tcp.fd p' = -1
  ∨ ∃ tr0, trace w' = tr0 ++ [SysClose (tcp.fd p')].
Proof.
  intros H. unfold tcp.Open in H.
  apply bind_Returns in H as ([[[sa family] na] e0] & w1 & _ & H). cbn beta iota zeta in H.
  destruct (negb (is_nil e0)); [apply ret_Returns in H as [[= <- <-] _]; by left |].
  apply bind_Returns in H as ([s e1] & w2 & Hs & H). cbn beta iota zeta in H.
  destruct e1 as [e1 |].
  { apply ret_Returns in H as [[= <- <-] _]. right; left.
    apply sysSocket_error in Hs. cbn. tauto. }
  right; right.
  apply bind_Returns in H as ([e2 |] & w3 & _ & H).
  { apply bind_Returns in H as (x & w4 & Hc & H). apply err_call_Returns in Hc as [Hc _].
    apply ret_Returns in H as [[= <- <-] <-]. eauto. }
  apply bind_Returns in H as ([e3 |] & w4 & _ & H).
  { apply bind_Returns in H as (x & w5 & Hc & H). apply err_call_Returns in Hc as [Hc _].
    apply ret_Returns in H as [[= <- <-] <-]. eauto. }
  apply bind_Returns in H as ([e4 |] & w5 & _ & H).
  { apply bind_Returns in H as (x & w6 & Hc & H). apply err_call_Returns in Hc as [Hc _].
    apply ret_Returns in H as [[= <- <-] <-]. eauto. }
  apply bind_Returns in H as ([e5 |] & w6 & _ & H).
  { apply bind_Returns in H as (x & w7 & Hc & H). apply err_call_Returns in Hc as [Hc _].
    apply ret_Returns in H as [[= <- <-] <-]. eauto. }
  by apply ret_Returns in H as [[=] _].
Qed.

(** A failed TCP [Open] followed by [Close].  When [Open] of a new
    endpoint fails and leaves a descriptor in the endpoint, that socket
    has been closed by the last call of [Open]; the [Close] that follows
    makes the close call on the same number again, so that the trace ends
    with two closes of one descriptor. *)
Theorem tcp_Open_failure_then_Close (c : TCPConfig.t) (p p' : tcp.t) (e : error)
    (w w' : world) (r : resp) (rs : list resp) :
  tcp.Open c p w = Returns (p', Some e) w' →
  tcp.fd p = -1 →
  tcp.fd p' ≠ -1 →
  script w' = r :: rs →
  is_answer r →
  ∃ tr0,
    tcp.Close p' w' =
    Returns (p', None) (World rs (tr0 ++ [SysClose (tcp.fd p'); SysClose (tcp.fd p')])).
Proof.
  intros H Hp Hp' Hs Hr.
  apply tcp_Open_failure_closed in H as [H | [H | [tr0 H]]]; [congruence | done |].
  exists tr0. destruct w' as [s' t']. cbn in Hs, H. subst s' t'.
  unfold tcp.Close. apply Z.eqb_neq in Hp'. rewrite Hp'. cbn [negb].
  destruct Hr as [v [-> | ->]]; cbn; rewrite <- app_assoc; reflexivity.
Qed.

Lemma tcp_Open_failure_then_Close_witness :
  ∃ tr0,
    tcp.Close (tcp.mk 3 (Some example_ip) (Some example_peer) 0 0)
      (World [RErr EBADF]
         [NetResolveTCPAddr "tcp" "127.0.0.1:9000";
          socket_with_flags AF_INET SOCK_STREAM IPPROTO_TCP;
          SysSetsockoptInt 3 IPPROTO_TCP TCP_NODELAY 1;
          SysSetsockoptInt 3 SOL_SOCKET SO_KEEPALIVE 1;
          SysSetsockoptInt 3 IPPROTO_TCP TCP_KEEPINTVL 30;
          SysSetsockoptInt 3 IPPROTO_TCP TCP_KEEPIDLE 30;
          SysConnect 3 (Some example_peer);
          SysClose 3]) =
    Returns (tcp.mk 3 (Some example_ip) (Some example_peer) 0 0, None)
      (World []
         (tr0 ++ [SysClose (tcp.fd (tcp.mk 3 (Some example_ip) (Some example_peer) 0 0));
                  SysClose (tcp.fd (tcp.mk 3 (Some example_ip) (Some example_peer) 0 0))])).
Proof.
  apply (tcp_Open_failure_then_Close
           (TCPConfig.mk "tcp" "127.0.0.1:9000" (30 * Second) TCPNoDelay 0 0) tcp.newTCP
           (tcp.mk 3 (Some example_ip) (Some example_peer) 0 0)
           (Errorf "tcp: Connect: %v" [AErr (SyscallError "connect" (Errno ECONNREFUSED))])
           (World [RIPAddr example_ip; RVal 3; RVal 0; RVal 0; RVal 0; RVal 0;
                   RErr ECONNREFUSED; RVal 0; RErr EBADF] [])
           (World [RErr EBADF]
              [NetResolveTCPAddr "tcp" "127.0.0.1:9000";
               socket_with_flags AF_INET SOCK_STREAM IPPROTO_TCP;
               SysSetsockoptInt 3 IPPROTO_TCP TCP_NODELAY 1;
               SysSetsockoptInt 3 SOL_SOCKET SO_KEEPALIVE 1;
               SysSetsockoptInt 3 IPPROTO_TCP TCP_KEEPINTVL 30;
               SysSetsockoptInt 3 IPPROTO_TCP TCP_KEEPIDLE 30;
               SysConnect 3 (Some example_peer);
               SysClose 3])
           (RErr EBADF) []).
  - vm_compute. reflexivity.
  - reflexivity.
  - discriminate.
  - reflexivity.
  - exists EBADF. by right.
Defined.

(** ** The earlier TCP Open *)

Lemma setKeepAlive_last (fd : Z) (d : Duration) (err : option error) (w w' : world) :
  setKeepAlive fd d w = Returns err w' →
  w' = w ∨ ∃ tr0 level opt v, trace w' = tr0 ++ [SysSetsockoptInt fd level opt v].
Proof.
  unfold setKeepAlive. destruct (d <=? 0).
  { intros H. apply ret_Returns in H as [_ <-]. by left. }
  intros H. right.
  apply bind_Returns in H as (e1 & w1 & H1 & H). apply err_call_Returns in H1 as [T1 _].
  destruct (negb (is_nil e1)); [apply ret_Returns in H as [_ <-]; eauto |].
  apply bind_Returns in H as (e2 & w2 & H2 & H). apply err_call_Returns in H2 as [T2 _].
  destruct (negb (is_nil e2)); [apply ret_Returns in H as [_ <-]; eauto |].
  apply bind_Returns in H as (e3 & w3 & H3 & H). apply err_call_Returns in H3 as [T3 _].
  apply ret_Returns in H as [_ <-]; eauto.
Qed.

(** The earlier TCP [Open] that fails after the socket was created (the
    no-delay option, the keep-alive options or the connection).  The
    socket is not closed: the last call of [Open] is a socket option or
    the connect on the descriptor that the endpoint holds, and the
    [Close] that follows closes that descriptor, once. *)
Theorem tcp_v1_Open_failure_keeps_socket (c : TCPConfig.t) (p p' : tcp_v1.t) (e : error)
    (w w' : world) :
  tcp_v1.Open c p w = Returns (p', Some e) w' →
  tcp_v1.fd p = -1 →
  tcp_v1.fd p' ≠ -1 →
  (∃ tr0 call,
     trace w' = tr0 ++ [call]
     ∧ ((∃ level opt v, call = SysSetsockoptInt (tcp_v1.fd p') level opt v)
        ∨ call = SysConnect (tcp_v1.fd p') (tcp_v1.sockAddr p')))
  ∧ (∀ r rs, script w' = r :: rs → is_answer r →
       tcp_v1.Close p' w' =
       Returns (p', None) (World rs (trace w' ++ [SysClose (tcp_v1.fd p')]))).
Proof.
  intros H Hp Hp'. split.
  - unfold tcp_v1.Open in H.
    apply bind_Returns in H as ([[[sa family] na] e0] & w1 & _ & H). cbn beta iota zeta in H.
    destruct (negb (is_nil e0)); [apply ret_Returns in H as [[= <- <-] _]; done |].
    apply bind_Returns in H as ([s e1] & w2 & Hs & H). cbn beta iota zeta in H.
    destruct e1 as [e1 |].
    { apply ret_Returns in H as [[= <- <-] _]. apply sysSocket_error in Hs.
      cbn in Hp'. tauto. }
    apply bind_Returns in H as (e2 & w3 & H2 & H). unfold setNoDelay in H2.
    apply bind_Returns in H2 as (e2' & w3' & H2 & H2'). apply err_call_Returns in H2 as [T2 _].
    apply ret_Returns in H2' as [<- <-].
    destruct e2' as [e2 |]; cbn [NewSyscallError] in H.
    { apply ret_Returns in H as [[= <- <-] <-]. eauto 10. }
    apply bind_Returns in H as (e3 & w4 & H3 & H). apply setKeepAlive_last in H3.
    assert (∃ tr0 level opt v,
              trace w4 = tr0 ++ [SysSetsockoptInt s level opt v]) as (tr0 & l & o & v & T4).
    { destruct H3 as [-> | H3]; eauto. }
    destruct e3 as [e3 |].
    { apply ret_Returns in H as [[= <- <-] <-]. eauto 10. }
    apply bind_Returns in H as (e4 & w5 & H4 & H). apply err_call_Returns in H4 as [T5 _].
    destruct e4 as [e4 |]; [| by apply ret_Returns in H as [[=] _]].
    apply ret_Returns in H as [[= <- <-] <-]. eauto 10.
  - intros r rs Hs Hr. destruct w' as [s' t']. cbn in Hs. subst s'.
    unfold tcp_v1.Close. apply Z.eqb_neq in Hp'. rewrite Hp'. cbn [negb].
    destruct Hr as [v [-> | ->]]; reflexivity.
Qed.

Lemma tcp_v1_Open_failure_keeps_socket_witness :
  (∃ tr0 call,
     trace (World [RVal 0]
              [NetResolveTCPAddr "tcp" "127.0.0.1:9000";
               socket_with_flags AF_INET SOCK_STREAM IPPROTO_TCP;
               SysSetsockoptInt 3 IPPROTO_TCP TCP_NODELAY 1;
               SysSetsockoptInt 3 SOL_SOCKET SO_KEEPALIVE 1;
               SysSetsockoptInt 3 IPPROTO_TCP TCP_KEEPINTVL 30;
               SysSetsockoptInt 3 IPPROTO_TCP TCP_KEEPIDLE 30;
               SysConnect 3 (Some example_peer)]) = tr0 ++ [call]
     ∧ ((∃ level opt v,
           call = SysSetsockoptInt
                    (tcp_v1.fd (tcp_v1.mk 3 (Some example_ip) (Some example_peer))) level opt v)
        ∨ call = SysConnect (tcp_v1.fd (tcp_v1.mk 3 (Some example_ip) (Some example_peer)))
                   (tcp_v1.sockAddr (tcp_v1.mk 3 (Some example_ip) (Some example_peer)))))
  ∧ (∀ r rs,
       script (World [RVal 0]
                 [NetResolveTCPAddr "tcp" "127.0.0.1:9000";
                  socket_with_flags AF_INET SOCK_STREAM IPPROTO_TCP;
                  SysSetsockoptInt 3 IPPROTO_TCP TCP_NODELAY 1;
                  SysSetsockoptInt 3 SOL_SOCKET SO_KEEPALIVE 1;
                  SysSetsockoptInt 3 IPPROTO_TCP TCP_KEEPINTVL 30;
                  SysSetsockoptInt 3 IPPROTO_TCP TCP_KEEPIDLE 30;
                  SysConnect 3 (Some example_peer)]) = r :: rs →
       is_answer r →
       tcp_v1.Close (tcp_v1.mk 3 (Some example_ip) (Some example_peer))
         (World [RVal 0]
            [NetResolveTCPAddr "tcp" "127.0.0.1:9000";
             socket_with_flags AF_INET SOCK_STREAM IPPROTO_TCP;
             SysSetsockoptInt 3 IPPROTO_TCP TCP_NODELAY 1;
             SysSetsockoptInt 3 SOL_SOCKET SO_KEEPALIVE 1;
             SysSetsockoptInt 3 IPPROTO_TCP TCP_KEEPINTVL 30;
             SysSetsockoptInt 3 IPPROTO_TCP TCP_KEEPIDLE 30;
             SysConnect 3 (Some example_peer)]) =
       Returns (tcp_v1.mk 3 (Some example_ip) (Some example_peer), None)
         (World rs
            (trace (World [RVal 0]
                      [NetResolveTCPAddr "tcp" "127.0.0.1:9000";
                       socket_with_flags AF_INET SOCK_STREAM IPPROTO_TCP;
                       SysSetsockoptInt 3 IPPROTO_TCP TCP_NODELAY 1;
                       SysSetsockoptInt 3 SOL_SOCKET SO_KEEPALIVE 1;
                       SysSetsockoptInt 3 IPPROTO_TCP TCP_KEEPINTVL 30;
                       SysSetsockoptInt 3 IPPROTO_TCP TCP_KEEPIDLE 30;
                       SysConnect 3 (Some example_peer)])
               ++ [SysClose (tcp_v1.fd (tcp_v1.mk 3 (Some example_ip) (Some example_peer)))]))).
Proof.
  apply (tcp_v1_Open_failure_keeps_socket
           (TCPConfig.mk "tcp" "127.0.0.1:9000" (30 * Second) TCPNoDelay 0 0) tcp_v1.newTCP
           (tcp_v1.mk 3 (Some example_ip) (Some example_peer))
           (Errorf "tcp: Connect: %v" [AErr (SyscallError "connect" (Errno ECONNREFUSED))])
           (World [RIPAddr example_ip; RVal 3; RVal 0; RVal 0; RVal 0; RVal 0;
                   RErr ECONNREFUSED; RVal 0] [])
           (World [RVal 0]
              [NetResolveTCPAddr "tcp" "127.0.0.1:9000";
               socket_with_flags AF_INET SOCK_STREAM IPPROTO_TCP;
               SysSetsockoptInt 3 IPPROTO_TCP TCP_NODELAY 1;
               SysSetsockoptInt 3 SOL_SOCKET SO_KEEPALIVE 1;
               SysSetsockoptInt 3 IPPROTO_TCP TCP_KEEPINTVL 30;
               SysSetsockoptInt 3 IPPROTO_TCP TCP_KEEPIDLE 30;
               SysConnect 3 (Some example_peer)])).
  - vm_compute. reflexivity.
  - reflexivity.
  - discriminate.
Defined.
